(** * adversarialLogistic.py: the perturbation-intensity engine

    A shallow embedding of the class [AdversarialLogistic] of
    [src/adversarialLogistic.py] and the properties its specification states.

    Conventions of the embedding.
    - float64 numbers are idealised as the real numbers [R]: arithmetic is
      exact, there is no rounding, no infinity and no NaN.  A division whose
      divisor is zero yields Rocq's [x / 0]; statements never depend on its
      value.
    - 1-D numpy arrays are lists of reals, 2-D arrays lists of rows.  An
      operation on operands of unequal length raises, as numpy does for
      [dot]; the broadcasting of length-one operands is not part of the model.
    - a Python exception is a value of [exn]; a call returns [Ok v] or
      [Raise e] (type [result]).  Printing ([verbose]) is left out.
    - the bounds of an instance are real numbers: the defaults
      [float('-inf')] and [float('inf')] of [__init__] have no counterpart
      (the default mode ['nothing'] never looks at the bounds).
    - the functions of scipy, numpy.linalg, statsmodels and sklearn the class
      calls ([special.erfinv], [stats.norm.cdf], [linalg.inv],
      [sm.add_constant], [predict_proba]) are not part of the repository:
      they are fields of [Externals] or of the fitted model object, and every
      theorem holds whatever they compute. *)

From Stdlib Require Import String.
From Stdlib Require Import Reals Lra Psatz List ZArith Bool PeanoNat Lia.
Import ListNotations.

Open Scope string_scope.
Open Scope list_scope.
Open Scope R_scope.

(** ** Exceptions and results *)

Inductive exn : Type :=
| ValueError (msg : string)
| ArithmeticError (msg : string)
| PyException (msg : string)
| TypeError (msg : string)
| AssertionError
| AttributeError (attr : string)
| IndexError
| LinAlgError.

Inductive result (A : Type) : Type :=
| Ok (a : A)
| Raise (e : exn).

Arguments Ok {A} a.
Arguments Raise {A} e.

Definition bind {A B : Type} (r : result A) (k : A -> result B) : result B :=
  match r with
  | Ok a => k a
  | Raise e => Raise e
  end.

Notation "x <- c1 ;; c2" := (bind c1 (fun x => c2))
  (at level 61, c1 at next level, right associativity).

Notation "' pat <- c1 ;; c2" := (bind c1 (fun x => match x with pat => c2 end))
  (at level 61, pat pattern, c1 at next level, right associativity).

Definition py_assert (b : bool) : result unit :=
  if b then Ok tt else Raise AssertionError.

(** Comparisons of floats as booleans. *)

Definition Rltb (x y : R) : bool := if Rlt_dec x y then true else false.
Definition Rleb (x y : R) : bool := if Rle_dec x y then true else false.
Definition Rgtb (x y : R) : bool := Rltb y x.
Definition Rgeb (x y : R) : bool := Rleb y x.

(** ** numpy arrays *)

Abbreviation vec := (list R) (only parsing).
Abbreviation matrix := (list (list R)) (only parsing).

Definition shape_error : exn := ValueError "shapes not aligned".

(** [sum(u * v)] over two arrays of one length. *)
Fixpoint dot_ (u v : vec) : R :=
  match u, v with
  | a :: u', b :: v' => a * b + dot_ u' v'
  | _, _ => 0
  end.

(** [u.dot(v)] for 1-D arrays. *)
Definition dot (u v : vec) : result R :=
  if Nat.eqb (length u) (length v) then Ok (dot_ u v) else Raise shape_error.

(** [c * v]. *)
Definition vscale (c : R) (v : vec) : vec := map (fun a => c * a) v.

Fixpoint vadd_ (u v : vec) : vec :=
  match u, v with
  | a :: u', b :: v' => (a + b) :: vadd_ u' v'
  | _, _ => []
  end.

(** [u + v]. *)
Definition vadd (u v : vec) : result vec :=
  if Nat.eqb (length u) (length v) then Ok (vadd_ u v) else Raise shape_error.

(** [sum(v**2)]. *)
Definition sum_sq (v : vec) : R := fold_right (fun a s => a * a + s) 0 v.

(** [np.insert(v, i, a)] for a 1-D array and a non-negative index. *)
Definition np_insert (v : vec) (i : nat) (a : R) : result vec :=
  if Nat.leb i (length v) then Ok (firstn i v ++ a :: skipn i v)
  else Raise IndexError.

(** [np.outer(u, v)]. *)
Definition outer (u v : vec) : matrix := map (fun a => vscale a v) u.

Definition nrows (M : matrix) : nat := length M.
Definition ncols (M : matrix) : nat :=
  match M with [] => O | r :: _ => length r end.

(** A 2-D array is rectangular. *)
Definition rect (n m : nat) (M : matrix) : Prop :=
  length M = n /\ Forall (fun r => length r = m) M.

Definition same_shape (M N : matrix) : bool :=
  Nat.eqb (nrows M) (nrows N) && Nat.eqb (ncols M) (ncols N).

(** [c * M]. *)
Definition mscale (c : R) (M : matrix) : matrix := map (vscale c) M.

Fixpoint msub_ (M N : matrix) : matrix :=
  match M, N with
  | r :: M', s :: N' => vadd_ r (vscale (-1) s) :: msub_ M' N'
  | _, _ => []
  end.

(** [M - N]. *)
Definition msub (M N : matrix) : result matrix :=
  if same_shape M N then Ok (msub_ M N) else Raise shape_error.

Fixpoint madd_ (M N : matrix) : matrix :=
  match M, N with
  | r :: M', s :: N' => vadd_ r s :: madd_ M' N'
  | _, _ => []
  end.

(** [M + N]. *)
Definition madd (M N : matrix) : result matrix :=
  if same_shape M N then Ok (madd_ M N) else Raise shape_error.

(** [v.dot(M)] for a 1-D [v] and a 2-D [M]: the combination of the rows of
    [M] with the coefficients [v]. *)
Fixpoint vecmat_ (m : nat) (v : vec) (M : matrix) : vec :=
  match v, M with
  | a :: v', r :: M' => vadd_ (vscale a r) (vecmat_ m v' M')
  | _, _ => repeat 0 m
  end.

Definition vecmat (v : vec) (M : matrix) : result vec :=
  if Nat.eqb (length v) (nrows M) then Ok (vecmat_ (ncols M) v M)
  else Raise shape_error.

(** [u.T.dot(M).dot(v)]: the transpose of a 1-D array is the array itself. *)
Definition quad_form (u : vec) (M : matrix) (v : vec) : result R :=
  w <- vecmat u M ;; dot w v.

(** [M.T], [M.dot(N)], [np.diag(v)], [np.identity(n)]. *)
Fixpoint transpose_ (m : nat) (M : matrix) : matrix :=
  match M with
  | [] => repeat [] m
  | r :: M' => map (fun p => fst p :: snd p) (combine r (transpose_ m M'))
  end.

Definition transpose (M : matrix) : matrix := transpose_ (ncols M) M.

Definition matmul (M N : matrix) : result matrix :=
  if Nat.eqb (ncols M) (nrows N) then Ok (map (fun r => vecmat_ (ncols N) r N) M)
  else Raise shape_error.

Fixpoint unit_row (n i : nat) (a : R) : vec :=
  match n with
  | O => []
  | S n' => match i with
            | O => a :: repeat 0 n'
            | S i' => 0 :: unit_row n' i' a
            end
  end.

Definition diag (v : vec) : matrix :=
  map (fun p => unit_row (length v) (fst p) (snd p)) (combine (seq 0 (length v)) v).

Definition identity (n : nat) : matrix := diag (repeat 1 n).

(** [math.sqrt]: raises on a negative argument. *)
Definition math_sqrt (v : R) : result R :=
  if Rltb v 0 then Raise (ValueError "math domain error") else Ok (sqrt v).

(** ** External libraries and the fitted model object *)

Record Externals : Type := {
  erfinv : R -> R;                      (* scipy.special.erfinv *)
  norm_cdf : R -> R -> R -> R;          (* scipy.stats.norm.cdf(x, loc, scale) *)
  linalg_inv : matrix -> result matrix; (* numpy.linalg.inv *)
  sm_add_constant : matrix -> matrix    (* statsmodels add_constant(X, prepend=True) *)
}.

(** A fitted sklearn LogisticRegression: [get_params()], [coef_.squeeze()],
    [intercept_] and [predict_proba(X)[:, classes_ == 1]]. *)
Record SklearnLogit : Type := {
  fit_intercept : bool;
  C_param : R;
  penalty : string;
  coef_ : vec;
  intercept_ : R;
  predict_proba_pos : option matrix -> result vec
}.

(** A fitted statsmodels GLM: [params] is a pandas Series (index labels,
    taken to be distinct, and values); [normalized_cov_params] is [None] when
    the object has no such attribute. *)
Record StatsmodelsGLM : Type := {
  params : list (string * R);
  normalized_cov_params : option matrix
}.

Inductive fitted_model : Type :=
| Sklearn (m : SklearnLogit)              (* __module__ == 'sklearn.linear_model.logistic' *)
| Statsmodels (m : StatsmodelsGLM)        (* __module__ == 'statsmodels.genmod.generalized_linear_model' *)
| OtherModel (module : string).

(** ** The class AdversarialLogistic *)

(** The attributes of an instance; [idx_beta0] and [cov_params] are [None]
    until they are assigned. *)
Record AdversarialLogistic : Type := {
  model : fitted_model;
  module_ : string;
  X_has_constant : bool;
  model_has_intercept : bool;
  beta_hat : vec;
  beta_hat_minus0 : vec;
  idx_beta0 : option nat;
  lower_bound : R;
  upper_bound : R;
  cov_params : option matrix
}.

Definition set_cov_params (self : AdversarialLogistic) (cov : matrix)
  : AdversarialLogistic :=
  {| model := model self; module_ := module_ self;
     X_has_constant := X_has_constant self;
     model_has_intercept := model_has_intercept self;
     beta_hat := beta_hat self; beta_hat_minus0 := beta_hat_minus0 self;
     idx_beta0 := idx_beta0 self;
     lower_bound := lower_bound self; upper_bound := upper_bound self;
     cov_params := Some cov |}.

(** ['const' in index], [params.drop('const')] and
    [np.where('const' == index)[0]]. *)
Definition has_label (l : string) (s : list (string * R)) : bool :=
  existsb (fun p => String.eqb l (fst p)) s.

Definition drop_label (l : string) (s : list (string * R)) : vec :=
  map snd (filter (fun p => negb (String.eqb l (fst p))) s).

Fixpoint where_label (l : string) (s : list (string * R)) : nat :=
  match s with
  | [] => O
  | p :: s' => if String.eqb l (fst p) then O else S (where_label l s')
  end.

(** [__init__(self, model, X_train=None, lower_bound, upper_bound)]. *)
Definition init (mdl : fitted_model) (X_train : option matrix)
    (lower upper : R) : result AdversarialLogistic :=
  match mdl with
  | Sklearn m =>
      if fit_intercept m then
        Ok {| model := mdl; module_ := "sklearn";
              X_has_constant := false; model_has_intercept := true;
              beta_hat := intercept_ m :: coef_ m;
              beta_hat_minus0 := coef_ m;
              idx_beta0 := Some O;
              lower_bound := lower; upper_bound := upper;
              cov_params := None |}
      else
        Ok {| model := mdl; module_ := "sklearn";
              X_has_constant := false; model_has_intercept := false;
              beta_hat := coef_ m;
              beta_hat_minus0 := coef_ m;
              idx_beta0 := None;
              lower_bound := lower; upper_bound := upper;
              cov_params := None |}
  | Statsmodels m =>
      _ <- py_assert (match X_train with Some _ => true | None => false end) ;;
      if negb (has_label "const" (params m)) then
        Ok {| model := mdl; module_ := "statsmodels";
              X_has_constant := false; model_has_intercept := false;
              beta_hat := map snd (params m);
              beta_hat_minus0 := map snd (params m);
              idx_beta0 := None;
              lower_bound := lower; upper_bound := upper;
              cov_params := None |}
      else
        Ok {| model := mdl; module_ := "statsmodels";
              X_has_constant := true; model_has_intercept := true;
              beta_hat := map snd (params m);
              beta_hat_minus0 := drop_label "const" (params m);
              idx_beta0 := Some (where_label "const" (params m));
              lower_bound := lower; upper_bound := upper;
              cov_params := None |}
  | OtherModel _ => Raise (ValueError "model not supported.")
  end.

Section Engine.

Variable ext : Externals.

(** [__add_constant(self, X=X)], [X] a matrix or [None]. *)
Definition add_constant_X (self : AdversarialLogistic) (X : option matrix)
  : option matrix :=
  if model_has_intercept self && negb (X_has_constant self) then
    match X with
    | Some X' => Some (sm_add_constant ext X')
    | None => None
    end
  else X.

(** [__add_constant(self, x=x)]: [np.insert(x, 0, 1)] when needed. *)
Definition add_constant_x (self : AdversarialLogistic) (x : vec) : vec :=
  if model_has_intercept self && negb (X_has_constant self) then 1 :: x
  else x.

(** [np.dot(X_train.T.dot(W), X_train)] with [W = np.diag(yhat * (1 - yhat))]. *)
Definition Xt_W_X (X : matrix) (yhat : vec) : result matrix :=
  let W := diag (map (fun p => p * (1 - p)) yhat) in
  XtW <- matmul (transpose X) W ;;
  matmul XtW X.

(** [compute_covariance(self, X_train, y_train)]: the instance with
    [cov_params] assigned. *)
Definition compute_covariance (self : AdversarialLogistic)
    (X_train : option matrix) : result AdversarialLogistic :=
  let X_train_origin := X_train in
  let X_train := add_constant_X self X_train in
  if String.eqb (module_ self) "statsmodels" then
    match model self with
    | Statsmodels m =>
        match normalized_cov_params m with
        | Some cov => Ok (set_cov_params self cov)
        | None => Raise (ValueError "Model not supported yet.")
        end
    | _ => Raise (AttributeError "normalized_cov_params")
    end
  else if String.eqb (module_ self) "sklearn" then
    match model self with
    | Sklearn m =>
        if Rgeb (C_param m) 10000000000 then
          match X_train with
          | None => Raise AssertionError
          | Some X =>
              yhat <- predict_proba_pos m X_train_origin ;;
              XWX <- Xt_W_X X yhat ;;
              cov <- linalg_inv ext XWX ;;
              Ok (set_cov_params self cov)
          end
        else if String.eqb (penalty m) "l2" then
          match X_train with
          | None => Raise AssertionError
          | Some X =>
              yhat <- predict_proba_pos m X_train_origin ;;
              XWX <- Xt_W_X X yhat ;;
              let lambda_c := 1 / C_param m in
              reg <- madd XWX (mscale (2 * lambda_c) (identity (nrows XWX))) ;;
              invOmegaLambda <- linalg_inv ext reg ;;
              t <- matmul invOmegaLambda XWX ;;
              cov <- matmul t invOmegaLambda ;;
              Ok (set_cov_params self cov)
          end
        else Raise (ValueError "L1 Regularized Logit not supported yet.")
    | _ => Raise (AttributeError "get_params")
    end
  else Raise (PyException "CovarianceNotSupported").

(** [compute_orthogonal_projection(self, x, overshoot)]. *)
Definition compute_orthogonal_projection (self : AdversarialLogistic)
    (x : vec) (overshoot : R) : result vec :=
  xb <- dot x (beta_hat self) ;;
  let delta := vscale (- (xb / sum_sq (beta_hat_minus0 self))) (beta_hat_minus0 self) in
  let delta := vscale (1 + overshoot) delta in
  if model_has_intercept self then
    match idx_beta0 self with
    | Some i => np_insert delta i 0
    | None => Raise (AttributeError "idx_beta0")
    end
  else Ok delta.

(** *** The lambda solver *)

(** [A = np.outer(beta_hat, beta_hat) - 2 * erfinv(2*alpha-1)**2 * cov_params]. *)
Definition mat_A (self : AdversarialLogistic) (cov : matrix) (alpha : R)
  : result matrix :=
  msub (outer (beta_hat self) (beta_hat self))
       (mscale (2 * (erfinv ext (2 * alpha - 1) * erfinv ext (2 * alpha - 1))) cov).

(** The coefficients [a], [b], [c] of the second degree equation. *)
Definition quad_coeffs (self : AdversarialLogistic) (cov : matrix)
    (alpha : R) (x delta : vec) : result (R * R * R) :=
  A <- mat_A self cov alpha ;;
  a <- quad_form delta A delta ;;
  b1 <- quad_form x A delta ;;
  b2 <- quad_form delta A x ;;
  c <- quad_form x A x ;;
  Ok (a, b1 + b2, c).

(** [eq]: the magnitude of the residual of the equation before squaring, at
    [x_adv = x + lambda_star * delta]. *)
Definition residual (self : AdversarialLogistic) (cov : matrix)
    (alpha : R) (x delta : vec) (lambda_star : R) : result R :=
  x_adv <- vadd x (vscale lambda_star delta) ;;
  let d := sqrt 2 * erfinv ext (2 * alpha - 1) in
  xb <- dot x_adv (beta_hat self) ;;
  s2 <- quad_form x_adv cov x_adv ;;
  s <- math_sqrt s2 ;;
  Ok (Rabs (xb + d * s)).

(** The loop [for lambda_star in [lambda1, lambda2]] and the [raise] that
    follows it. *)
Fixpoint select_root (self : AdversarialLogistic) (cov : matrix)
    (alpha : R) (x delta : vec) (tol : R) (roots : list R)
  : result (option R) :=
  match roots with
  | [] => Raise (ValueError "Error when solving the 2nd degree equation.")
  | lambda_star :: rest =>
      eq <- residual self cov alpha x delta lambda_star ;;
      if Rltb eq tol then Ok (Some lambda_star)
      else select_root self cov alpha x delta tol rest
  end.

(** The body of [__solve_lambda] once [alpha] has been replaced for [y = 0]. *)
Definition solve_lambda_body (self : AdversarialLogistic) (alpha : R)
    (x delta : vec) (tol tol_underflow : R) : result (option R) :=
  match cov_params self with
  | None => Raise (AttributeError "cov_params")
  | Some cov =>
      '(a, b, c) <- quad_coeffs self cov alpha x delta ;;
      let DeltaEq2 := b * b - 4 * a * c in
      if Rltb a tol_underflow then Raise (ArithmeticError "Risk of underflow")
      else if Rltb (Rabs DeltaEq2) tol && Rleb DeltaEq2 0 then
        Ok (Some (- b / (2 * a)))
      else if Rltb DeltaEq2 0 then Ok None
      else if Rgtb DeltaEq2 0 then
        let lambda1 := (- b - sqrt DeltaEq2) / (2 * a) in
        let lambda2 := (- b + sqrt DeltaEq2) / (2 * a) in
        select_root self cov alpha x delta tol [lambda1; lambda2]
      else Raise (ValueError "Error when solving the 2nd degree equation.")
  end.

(** [__solve_lambda(self, alpha, x, y, delta, tol, tol_underflow)]. *)
Definition solve_lambda (self : AdversarialLogistic) (alpha : R) (x : vec)
    (y : Z) (delta : vec) (tol tol_underflow : R) : result (option R) :=
  _ <- py_assert (Z.eqb y 0 || Z.eqb y 1) ;;
  let alpha := if Z.eqb y 0 then 1 - alpha else alpha in
  solve_lambda_body self alpha x delta tol tol_underflow.

(** *** Bounds *)

Definition np_any (p : R -> bool) (v : vec) : bool := existsb p v.

(** [v[mask] = a] for the mask [p]. *)
Definition assign_where (p : R -> bool) (a : R) (v : vec) : vec :=
  map (fun c => if p c then a else c) v.

(** One of the two blocks of [__check_bounds]: [None] stands for the
    [return None] of the block, [Some v] for the array the code goes on with. *)
Definition bound_block (outside : R -> bool) (bound : R) (out_bounds : string)
    (x_adv : vec) : option vec :=
  if np_any outside x_adv then
    if String.eqb out_bounds "missing" then None
    else if String.eqb out_bounds "clipping" then
      Some (assign_where outside bound x_adv)
    else Some x_adv
  else Some x_adv.

(** [__check_bounds(self, x_adv, out_bounds)]: the array returned ([None]
    for a discarded one).  Under ['clipping'] the array is modified in
    place, so the returned array is also the new value of the argument. *)
Definition check_bounds (self : AdversarialLogistic) (x_adv : vec)
    (out_bounds : string) : result (option vec) :=
  _ <- py_assert (String.eqb out_bounds "clipping"
                  || String.eqb out_bounds "missing"
                  || String.eqb out_bounds "nothing") ;;
  match bound_block (fun c => Rltb c (lower_bound self)) (lower_bound self)
                    out_bounds x_adv with
  | None => Ok None
  | Some x_adv =>
      Ok (bound_block (fun c => Rgtb c (upper_bound self)) (upper_bound self)
                      out_bounds x_adv)
  end.

(** *** The probability that pred(x) = y *)

(** [(t > 0) == y] and [(t > 0) != y] for a float [t] and an integer [y]. *)
Definition pred_eq (t : R) (y : Z) : bool := Z.eqb (Z.b2z (Rgtb t 0)) y.
Definition pred_ne (t : R) (y : Z) : bool := negb (pred_eq t y).

(** [__compute_probability_predx_equals_y(self, x, y)].  The assertion on
    the types of [mu] and [sigma] holds of every scalar of the model. *)
Definition compute_probability_predx_equals_y (self : AdversarialLogistic)
    (x : vec) (y : Z) : result R :=
  _ <- py_assert (Z.eqb y 0 || Z.eqb y 1) ;;
  match cov_params self with
  | None => Raise (PyException
      "Missing cov_params. Call: self.compute_covariance(X_train, y_train)")
  | Some cov =>
      mu <- dot x (beta_hat self) ;;
      sigma <- quad_form x cov x ;;
      scale <- math_sqrt sigma ;;
      let proba_xbeta_inf_0 := norm_cdf ext 0 mu scale in
      if Z.eqb y 0 then Ok proba_xbeta_inf_0
      else Ok (1 - proba_xbeta_inf_0)
  end.

(** *** The orchestrator *)

(** The values [alpha] may be bound to. *)
Inductive pyval : Type :=
| PyFloat (r : R)
| PyList (l : list R)
| PyInt (z : Z)
| PyNumpyFloat64 (r : R)
| PyTuple (l : list R)
| PyNone.

(** One entry of the result. *)
Record result_dict : Type := {
  alpha_ : R;
  lambda_star : R;
  x_adv_star : option vec;
  x_adv_0 : option vec
}.

(** The value returned: one dict for one level, a list of dicts otherwise. *)
Inductive perturbation : Type :=
| OneDict (d : result_dict)
| ListOfDicts (l : list result_dict).

(** What the function computes before it looks at [alpha]:
    the aligned [x], [delta] and the bounded [x_adv_0]. *)
Definition prepare (self : AdversarialLogistic) (x : vec) (y : Z)
    (out_bounds : string) : result (vec * vec * option vec) :=
  let x := add_constant_x self x in
  match cov_params self with
  | None => Raise (PyException
      "Missing cov_params. Call: self.compute_covariance(X_train, y_train)")
  | Some _ =>
      _ <- py_assert (Z.eqb y 0 || Z.eqb y 1) ;;
      xb <- dot x (beta_hat self) ;;
      let x_correctly_predicted := pred_eq xb y in
      delta <- compute_orthogonal_projection self x (1 / 1000000) ;;
      x_adv_0 <- vadd x delta ;;
      xb0 <- dot x_adv_0 (beta_hat self) ;;
      _ <- py_assert (if x_correctly_predicted then pred_ne xb0 y
                      else pred_eq xb0 y) ;;
      x_adv_0 <- check_bounds self x_adv_0 out_bounds ;;
      Ok (x, delta, x_adv_0)
  end.

(** [if type(alpha) == float ... elif type(alpha) == list ... else raise]. *)
Definition alphas_of (alpha : pyval) : result (list R) :=
  match alpha with
  | PyFloat a => Ok [a]
  | PyList l => Ok l
  | _ => Raise (PyException "Invalid alpha parameter")
  end.

(** The body of [for a in alphas] up to the bounds check of [x_adv_star]:
    the dict built and the value of [x] afterwards (in the first branch
    [x_adv_star] is the array [x] itself, which ['clipping'] modifies). *)
Definition level_step (self : AdversarialLogistic) (y : Z)
    (out_bounds : string) (tol tol_underflow : R)
    (delta : vec) (x_adv_0 : option vec) (proba_predx_equals_y : R)
    (x : vec) (a : R) : result (result_dict * vec) :=
  if Rgeb (1 - proba_predx_equals_y) a then
    checked <- check_bounds self x out_bounds ;;
    Ok ({| alpha_ := a; lambda_star := 0;
           x_adv_star := checked; x_adv_0 := x_adv_0 |},
        match checked with Some x' => x' | None => x end)
  else
    sol <- solve_lambda self a x y delta tol tol_underflow ;;
    match sol with
    | None => Raise (TypeError "unsupported operand type(s) for *")
    | Some lam =>
        x_adv <- vadd x (vscale lam delta) ;;
        _ <- (if Rgtb a (1 / 2 + tol) then
                xb <- dot x_adv (beta_hat self) ;; py_assert (pred_ne xb y)
              else if Rltb a (1 / 2 - tol) then
                xb <- dot x_adv (beta_hat self) ;; py_assert (pred_eq xb y)
              else Ok tt) ;;
        proba_predxadvstar_equals_y <-
          compute_probability_predx_equals_y self x_adv y ;;
        _ <- py_assert (Rgeb (1 - proba_predxadvstar_equals_y + tol) a) ;;
        checked <- check_bounds self x_adv out_bounds ;;
        Ok ({| alpha_ := a; lambda_star := lam;
               x_adv_star := checked; x_adv_0 := x_adv_0 |}, x)
    end.

(** The loop over [alphas]; [n] is [len(alphas)], [results] the list built
    so far. *)
Fixpoint levels_loop (self : AdversarialLogistic) (y : Z)
    (out_bounds : string) (tol tol_underflow : R)
    (delta : vec) (x_adv_0 : option vec) (proba : R) (n : nat)
    (x : vec) (results : list result_dict) (alphas : list R)
  : result perturbation :=
  match alphas with
  | [] => Ok (ListOfDicts results)
  | a :: rest =>
      '(d, x') <- level_step self y out_bounds tol tol_underflow
                             delta x_adv_0 proba x a ;;
      if Nat.eqb n 1 then Ok (OneDict d)
      else levels_loop self y out_bounds tol tol_underflow delta x_adv_0
                       proba n x' (results ++ [d]) rest
  end.

(** [compute_adversarial_perturbation(self, x, y, alpha, out_bounds, tol,
    tol_underflow)]. *)
Definition compute_adversarial_perturbation (self : AdversarialLogistic)
    (x : vec) (y : Z) (alpha : pyval) (out_bounds : string)
    (tol tol_underflow : R) : result perturbation :=
  '(x, delta, x_adv_0) <- prepare self x y out_bounds ;;
  alphas <- alphas_of alpha ;;
  proba_predx_equals_y <- compute_probability_predx_equals_y self x y ;;
  levels_loop self y out_bounds tol tol_underflow delta x_adv_0
              proba_predx_equals_y (length alphas) x [] alphas.

End Engine.

(** ** Plotting *)

(** One call of [plt.plot]: the two series and the style it is given. *)
Record plot_call : Type := {
  plot_x : list R;
  plot_y : list R;
  plot_label : option string;
  plot_color : string;
  plot_linestyle : option string
}.

(** [l[i]] for a list and a non-negative index. *)
Definition py_getitem {A : Type} (l : list A) (i : nat) : result A :=
  match nth_error l i with
  | Some a => Ok a
  | None => Raise IndexError
  end.

(** [labels[i]], or [None] when no list is given. *)
Definition optional_item (l : option (list string)) (i : nat)
  : result (option string) :=
  match l with
  | None => Ok None
  | Some l' => v <- py_getitem l' i ;; Ok (Some v)
  end.

(** The loop [for i, perturbations in enumerate(args)] from the index [i]
    on: the calls of [plt.plot] it makes, in order. *)
Fixpoint plot_loop (i : nat) (args : list perturbation) (colors : list string)
    (labels linestyles : option (list string)) : result (list plot_call) :=
  match args with
  | [] => Ok []
  | perturbations :: rest =>
      match perturbations with
      | OneDict _ => Raise AssertionError
      | ListOfDicts l =>
          label <- optional_item labels i ;;
          linestyle <- optional_item linestyles i ;;
          let alphas := map alpha_ l in
          let lambdas := map lambda_star l in
          color <- py_getitem colors i ;;
          calls <- plot_loop (S i) rest colors labels linestyles ;;
          Ok ({| plot_x := alphas; plot_y := lambdas; plot_label := label;
                 plot_color := color; plot_linestyle := linestyle |} :: calls)
      end
  end.

(** [plot_intensity_vs_level], called with the positional arguments [args]
    and the keywords [colors], [labels], [linestyles]: the curves handed to
    matplotlib.  The figure, the axes, the legend and the output
    file are matplotlib's and are left out. *)
Definition plot_intensity_vs_level (args : list perturbation)
    (colors : list string) (labels linestyles : option (list string))
  : result (list plot_call) :=
  plot_loop 0 args colors labels linestyles.

(** ** Notions used in the statements *)

(** The coordinate-wise effect of the two blocks under ['clipping']. *)
Definition clip (lower upper c : R) : R :=
  let c1 := if Rltb c lower then lower else c in
  if Rgtb c1 upper then upper else c1.

(** The bilinear form [u.T.dot(M).dot(v)] as a sum over the rows of [M]. *)
Fixpoint bil_ (u : vec) (M : matrix) (v : vec) : R :=
  match u, M with
  | a :: u', r :: M' => a * dot_ r v + bil_ u' M' v
  | _, _ => 0
  end.

(** A covariance matrix is square and positive semi-definite. *)
Definition psd (n : nat) (M : matrix) : Prop :=
  rect n n M /\ forall v, length v = n -> 0 <= bil_ v M v.

(** The intercept convention of an instance: [beta_hat] is
    [beta_hat_minus0] with the intercept inserted at [idx_beta0] when the
    model has an intercept, and [beta_hat_minus0] itself otherwise. *)
Definition aligned (self : AdversarialLogistic) : Prop :=
  if model_has_intercept self then
    exists i b0,
      idx_beta0 self = Some i
      /\ (i <= length (beta_hat_minus0 self))%nat
      /\ beta_hat self
         = firstn i (beta_hat_minus0 self) ++ b0 :: skipn i (beta_hat_minus0 self)
  else beta_hat self = beta_hat_minus0 self.

(** The dicts of a returned value. *)
Definition dicts_of (p : perturbation) : list result_dict :=
  match p with
  | OneDict d => [d]
  | ListOfDicts l => l
  end.

(** The index labels of the parameters of a model are distinct. *)
Definition distinct_labels (mdl : fitted_model) : Prop :=
  match mdl with
  | Statsmodels m => NoDup (map fst (params m))
  | _ => True
  end.

(** [M.dot(v)] for a 2-D [M] and a 1-D [v], and [sum(w * s**2)]. *)
Definition matvec (M : matrix) (v : vec) : vec := map (fun r => dot_ r v) M.

Fixpoint weighted_sq (w s : vec) : R :=
  match w, s with
  | a :: w', b :: s' => a * (b * b) + weighted_sq w' s'
  | _, _ => 0
  end.

(** ** Instances used in the examples *)

(** External functions that are constant: [erfinv] returns [e] and
    [norm.cdf] returns [p] at every argument.  Each example says which
    values of the real functions they stand for. *)
Definition example_externals (e p : R) : Externals :=
  {| erfinv := fun _ => e;
     norm_cdf := fun _ _ _ => p;
     linalg_inv := fun M => Ok M;
     sm_add_constant := map (cons 1) |}.

(** The model of the end-to-end scenario of the specification: an sklearn
    model with intercept 0 and coefficients [2, -1]. *)
Definition scenario_model : SklearnLogit :=
  {| fit_intercept := true; C_param := 1; penalty := "l2";
     coef_ := [2; -1]; intercept_ := 0;
     predict_proba_pos := fun _ => Ok [] |}.

(** The instance [__init__] builds from it, with [cov_params] assigned or not. *)
Definition scenario_engine (lower upper : R) (cov : option matrix)
  : AdversarialLogistic :=
  {| model := Sklearn scenario_model; module_ := "sklearn";
     X_has_constant := false; model_has_intercept := true;
     beta_hat := [0; 2; -1]; beta_hat_minus0 := [2; -1]; idx_beta0 := Some O;
     lower_bound := lower; upper_bound := upper; cov_params := cov |}.

(** The covariance of the scenario: 0.01 times the identity. *)
Definition scenario_cov : matrix :=
  [[1 / 100; 0; 0]; [0; 1 / 100; 0]; [0; 0; 1 / 100]].

(** A covariance of 4 times the identity. *)
Definition wide_cov : matrix := [[4; 0; 0]; [0; 4; 0]; [0; 0; 4]].

(** An sklearn model that predicts a constant: intercept 1, coefficients
    [0, 0]. *)
Definition constant_model : SklearnLogit :=
  {| fit_intercept := true; C_param := 1; penalty := "l2";
     coef_ := [0; 0]; intercept_ := 1;
     predict_proba_pos := fun _ => Ok [] |}.

Definition constant_engine : AdversarialLogistic :=
  {| model := Sklearn constant_model; module_ := "sklearn";
     X_has_constant := false; model_has_intercept := true;
     beta_hat := [1; 0; 0]; beta_hat_minus0 := [0; 0]; idx_beta0 := Some O;
     lower_bound := 0; upper_bound := 1; cov_params := None |}.

(** A statsmodels GLM with a constant and two features, which reports its
    covariance, and the instance built from it. *)
Definition glm_model : StatsmodelsGLM :=
  {| params := [("const", 0); ("x1", 2); ("x2", -1)];
     normalized_cov_params := Some scenario_cov |}.

Definition glm_engine : AdversarialLogistic :=
  {| model := Statsmodels glm_model; module_ := "statsmodels";
     X_has_constant := true; model_has_intercept := true;
     beta_hat := [0; 2; -1]; beta_hat_minus0 := [2; -1]; idx_beta0 := Some O;
     lower_bound := 0; upper_bound := 1; cov_params := None |}.

(** An sklearn model with an L2 penalty, which predicts the probability
    1/2 on each of two training rows, and the instance built from it. *)
Definition ridge_model : SklearnLogit :=
  {| fit_intercept := true; C_param := 1; penalty := "l2";
     coef_ := [2; -1]; intercept_ := 0;
     predict_proba_pos := fun _ => Ok [1 / 2; 1 / 2] |}.

Definition ridge_engine : AdversarialLogistic :=
  {| model := Sklearn ridge_model; module_ := "sklearn";
     X_has_constant := false; model_has_intercept := true;
     beta_hat := [0; 2; -1]; beta_hat_minus0 := [2; -1]; idx_beta0 := Some O;
     lower_bound := 0; upper_bound := 1; cov_params := None |}.

(** * Properties *)

(** ** Comparisons and the result monad *)

Lemma Rltb_true (x y : R) : Rltb x y = true <-> x < y.
Proof. unfold Rltb; destruct (Rlt_dec x y); split; intros; auto; discriminate. Qed.

Lemma Rltb_false (x y : R) : Rltb x y = false <-> y <= x.
Proof.
  unfold Rltb; destruct (Rlt_dec x y); split; intros; auto; try discriminate; lra.
Qed.

Lemma Rleb_true (x y : R) : Rleb x y = true <-> x <= y.
Proof. unfold Rleb; destruct (Rle_dec x y); split; intros; auto; discriminate. Qed.

Lemma Rleb_false (x y : R) : Rleb x y = false <-> y < x.
Proof.
  unfold Rleb; destruct (Rle_dec x y); split; intros; auto; try discriminate; lra.
Qed.

Lemma bind_Ok {A B : Type} (r : result A) (k : A -> result B) (b : B) :
  bind r k = Ok b -> exists a, r = Ok a /\ k a = Ok b.
Proof. destruct r as [a|e]; simpl; intros H; [eauto | discriminate]. Qed.

Lemma py_assert_Ok (b : bool) (u : unit) : py_assert b = Ok u -> b = true.
Proof. destruct b; simpl; [reflexivity | discriminate]. Qed.

(** Rewrites a boolean comparison of reals whose outcome [lra] decides. *)
Ltac decide_cmp :=
  repeat match goal with
  | |- context [Rltb ?x ?y] =>
      first [ replace (Rltb x y) with true by (symmetry; apply Rltb_true; lra)
            | replace (Rltb x y) with false by (symmetry; apply Rltb_false; lra) ]
  | |- context [Rleb ?x ?y] =>
      first [ replace (Rleb x y) with true by (symmetry; apply Rleb_true; lra)
            | replace (Rleb x y) with false by (symmetry; apply Rleb_false; lra) ]
  end.

(** Splits on the comparisons of the goal, innermost first. *)
Ltac case_cmp :=
  repeat match goal with
  | |- context [Rlt_dec ?a ?b] =>
      lazymatch a with
      | context [Rlt_dec] => fail
      | _ => lazymatch b with
             | context [Rlt_dec] => fail
             | _ => destruct (Rlt_dec a b)
             end
      end
  end.

(** ** The label convention of the solver *)

(** C4: calling the solver with label 1 and level [alpha] gives the outcome
    (a root, no root, or the exception raised) of calling it with label 0 and
    level [1 - alpha]: the replacement of [alpha] by [1 - alpha] is all that
    the label changes. *)
Theorem solve_lambda_label_symmetry :
  forall (ext : Externals) (self : AdversarialLogistic) (alpha : R)
         (x delta : vec) (tol tol_underflow : R),
    solve_lambda ext self alpha x 1 delta tol tol_underflow
    = solve_lambda ext self (1 - alpha) x 0 delta tol tol_underflow.
Proof.
  intros. unfold solve_lambda. simpl.
  replace (1 - (1 - alpha)) with alpha by ring.
  reflexivity.
Qed.

(** The label only enters through the level handed to the body. *)
Lemma solve_lambda_unfold :
  forall (ext : Externals) (self : AdversarialLogistic) (alpha : R) (x : vec)
         (y : Z) (delta : vec) (tol tol_underflow : R),
    y = 0%Z \/ y = 1%Z ->
    solve_lambda ext self alpha x y delta tol tol_underflow
    = solve_lambda_body ext self (if Z.eqb y 0 then 1 - alpha else alpha)
                        x delta tol tol_underflow.
Proof.
  intros ext self alpha x y delta tol tolu [-> | ->]; reflexivity.
Qed.

(** ** The bounds modes *)

Lemma np_any_nth (p : R -> bool) (v : vec) (i : nat) (c : R) :
  nth_error v i = Some c -> p c = true -> np_any p v = true.
Proof.
  intros Hn Hp. unfold np_any. apply existsb_exists.
  exists c; split; [eapply nth_error_In; eauto | exact Hp].
Qed.

Lemma assign_where_none (p : R -> bool) (a : R) (v : vec) :
  np_any p v = false -> assign_where p a v = v.
Proof.
  unfold np_any, assign_where. induction v as [|c v IH]; simpl; intros H.
  - reflexivity.
  - apply orb_false_iff in H as [Hc Hv]. rewrite Hc, IH by assumption. reflexivity.
Qed.

(** Under ['clipping'] a block clips every coordinate, whether or not one
    is outside. *)
Lemma bound_block_clipping (p : R -> bool) (a : R) (v : vec) :
  bound_block p a "clipping" v = Some (assign_where p a v).
Proof.
  unfold bound_block. destruct (np_any p v) eqn:E; simpl.
  - reflexivity.
  - rewrite assign_where_none by assumption. reflexivity.
Qed.

Lemma bound_block_nothing (p : R -> bool) (a : R) (v : vec) :
  bound_block p a "nothing" v = Some v.
Proof. unfold bound_block. destruct (np_any p v); reflexivity. Qed.

Lemma bound_block_missing (p : R -> bool) (a : R) (v : vec) :
  bound_block p a "missing" v = if np_any p v then None else Some v.
Proof. unfold bound_block. destruct (np_any p v); reflexivity. Qed.

Lemma check_bounds_clipping (self : AdversarialLogistic) (v : vec) :
  check_bounds self v "clipping"
  = Ok (Some (map (clip (lower_bound self) (upper_bound self)) v)).
Proof.
  unfold check_bounds. simpl. rewrite !bound_block_clipping.
  unfold assign_where. rewrite map_map. reflexivity.
Qed.

Lemma check_bounds_nothing (self : AdversarialLogistic) (v : vec) :
  check_bounds self v "nothing" = Ok (Some v).
Proof.
  unfold check_bounds. simpl. rewrite !bound_block_nothing. reflexivity.
Qed.

Lemma check_bounds_missing (self : AdversarialLogistic) (v : vec) :
  check_bounds self v "missing"
  = Ok (if np_any (fun c => Rltb c (lower_bound self)) v
           || np_any (fun c => Rgtb c (upper_bound self)) v
        then None else Some v).
Proof.
  unfold check_bounds. simpl. rewrite bound_block_missing.
  destruct (np_any _ v); simpl; [reflexivity|].
  rewrite bound_block_missing. destruct (np_any _ v); reflexivity.
Qed.

Lemma clip_above (lower upper c : R) : upper < c -> clip lower upper c = upper.
Proof.
  intros H. unfold clip, Rgtb, Rltb.
  destruct (Rlt_dec c lower); destruct (Rlt_dec upper _); try reflexivity; lra.
Qed.

Lemma clip_below (lower upper c : R) :
  c < lower -> lower <= upper -> clip lower upper c = lower.
Proof.
  intros H1 H2. unfold clip, Rgtb, Rltb.
  destruct (Rlt_dec c lower); destruct (Rlt_dec upper _); try reflexivity; lra.
Qed.

Lemma clip_inside (lower upper c : R) :
  lower <= c <= upper -> clip lower upper c = c.
Proof.
  intros H. unfold clip, Rgtb, Rltb.
  destruct (Rlt_dec c lower); destruct (Rlt_dec upper _); try reflexivity; lra.
Qed.

(** C8: for an array with a coordinate above the upper bound, or below the
    lower bound: ['nothing'] returns the array as it is; ['missing'] returns
    [None]; ['clipping'] returns an array of the same length in which a
    coordinate above the upper bound is the upper bound, a coordinate below
    the lower bound is the lower bound (the bounds being in order), and every
    coordinate inside the bounds is unchanged. *)
Theorem check_bounds_modes :
  forall (self : AdversarialLogistic) (x_adv : vec) (i : nat) (c : R),
    nth_error x_adv i = Some c ->
    upper_bound self < c \/ c < lower_bound self ->
    check_bounds self x_adv "nothing" = Ok (Some x_adv)
    /\ check_bounds self x_adv "missing" = Ok None
    /\ exists clipped,
         check_bounds self x_adv "clipping" = Ok (Some clipped)
         /\ length clipped = length x_adv
         /\ (upper_bound self < c -> nth_error clipped i = Some (upper_bound self))
         /\ (c < lower_bound self -> lower_bound self <= upper_bound self ->
             nth_error clipped i = Some (lower_bound self))
         /\ (forall j w, nth_error x_adv j = Some w ->
               lower_bound self <= w <= upper_bound self ->
               nth_error clipped j = Some w).
Proof.
  intros self x_adv i c Hi Hout. split; [apply check_bounds_nothing|]. split.
  - rewrite check_bounds_missing.
    replace (_ || _)%bool with true; [reflexivity|].
    symmetry. apply orb_true_iff. destruct Hout as [H|H].
    + right. eapply np_any_nth; [exact Hi|]. apply Rltb_true; exact H.
    + left. eapply np_any_nth; [exact Hi|]. apply Rltb_true; exact H.
  - eexists. split; [apply check_bounds_clipping|].
    split; [apply length_map|]. repeat split.
    + intros H. erewrite map_nth_error by exact Hi. now rewrite clip_above.
    + intros H1 H2. erewrite map_nth_error by exact Hi. now rewrite clip_below.
    + intros j w Hj Hw. erewrite map_nth_error by exact Hj. now rewrite clip_inside.
Qed.

(** ** Linear algebra on lists *)

Lemma length_vscale (c : R) (v : vec) : length (vscale c v) = length v.
Proof. apply length_map. Qed.

Lemma length_vadd_ (u v : vec) :
  length u = length v -> length (vadd_ u v) = length u.
Proof.
  revert v; induction u as [|a u IH]; intros [|b v] H; simpl in *;
    try reflexivity; try discriminate.
  f_equal. apply IH. congruence.
Qed.

Lemma dot_comm (u v : vec) : dot_ u v = dot_ v u.
Proof.
  revert v; induction u as [|a u IH]; intros [|b v]; simpl; try reflexivity.
  rewrite IH. ring.
Qed.

Lemma dot_vscale_l (c : R) (u v : vec) : dot_ (vscale c u) v = c * dot_ u v.
Proof.
  revert v; induction u as [|a u IH]; intros [|b v]; simpl; try ring.
  rewrite IH. ring.
Qed.

Lemma dot_vadd_l (u v w : vec) :
  length u = length v -> dot_ (vadd_ u v) w = dot_ u w + dot_ v w.
Proof.
  revert v w; induction u as [|a u IH]; intros [|b v] [|c w] H; simpl in *;
    try discriminate; try ring.
  rewrite IH by congruence. ring.
Qed.

Lemma dot_vscale_r (c : R) (u v : vec) : dot_ u (vscale c v) = c * dot_ u v.
Proof. rewrite dot_comm, dot_vscale_l, dot_comm. reflexivity. Qed.

Lemma dot_vadd_r (u v w : vec) :
  length v = length w -> dot_ u (vadd_ v w) = dot_ u v + dot_ u w.
Proof.
  intros H. rewrite dot_comm, dot_vadd_l by assumption.
  rewrite (dot_comm v), (dot_comm w). reflexivity.
Qed.

Lemma dot_zeros (m : nat) (v : vec) : dot_ (repeat 0 m) v = 0.
Proof.
  revert v; induction m as [|m IH]; intros [|b v]; simpl; try reflexivity.
  rewrite IH. ring.
Qed.

Lemma dot_self_sum_sq (v : vec) : dot_ v v = sum_sq v.
Proof. induction v as [|a v IH]; simpl; [reflexivity | now rewrite IH]. Qed.

Lemma sum_sq_nonneg (v : vec) : 0 <= sum_sq v.
Proof. induction v as [|a v IH]; simpl; [lra | nra]. Qed.

Lemma sum_sq_pos (v : vec) (c : R) : In c v -> c <> 0 -> 0 < sum_sq v.
Proof.
  induction v as [|a v IH]; simpl; intros Hin Hc; [contradiction|].
  pose proof (sum_sq_nonneg v). destruct Hin as [-> | Hin].
  - nra.
  - specialize (IH Hin Hc). nra.
Qed.

Lemma length_vecmat_ (m : nat) (u : vec) (M : matrix) :
  Forall (fun r => length r = m) M -> length (vecmat_ m u M) = m.
Proof.
  intros HM; revert u; induction HM as [|r M Hr HM IH]; intros [|a u]; simpl;
    try apply repeat_length.
  rewrite length_vadd_; rewrite length_vscale; [assumption|].
  rewrite IH. assumption.
Qed.

Lemma dot_vecmat_ (m : nat) (u : vec) (M : matrix) (v : vec) :
  Forall (fun r => length r = m) M -> dot_ (vecmat_ m u M) v = bil_ u M v.
Proof.
  intros HM; revert u; induction HM as [|r M Hr HM IH]; intros [|a u]; simpl;
    try apply dot_zeros.
  rewrite dot_vadd_l.
  - rewrite dot_vscale_l, IH. reflexivity.
  - rewrite length_vscale, length_vecmat_; assumption.
Qed.

Lemma bil_vadd_l (u u' : vec) (M : matrix) (v : vec) :
  length u = length u' ->
  bil_ (vadd_ u u') M v = bil_ u M v + bil_ u' M v.
Proof.
  revert u' M; induction u as [|a u IH]; intros [|a' u'] [|r M] H; simpl in *;
    try discriminate; try ring.
  rewrite IH by congruence. ring.
Qed.

Lemma bil_vscale_l (c : R) (u : vec) (M : matrix) (v : vec) :
  bil_ (vscale c u) M v = c * bil_ u M v.
Proof.
  revert M; induction u as [|a u IH]; intros [|r M]; simpl; try ring.
  rewrite IH. ring.
Qed.

Lemma bil_vadd_r (u : vec) (M : matrix) (v v' : vec) :
  length v = length v' ->
  bil_ u M (vadd_ v v') = bil_ u M v + bil_ u M v'.
Proof.
  intros H; revert M; induction u as [|a u IH]; intros [|r M]; simpl; try ring.
  rewrite IH, dot_vadd_r by assumption. ring.
Qed.

Lemma bil_vscale_r (c : R) (u : vec) (M : matrix) (v : vec) :
  bil_ u M (vscale c v) = c * bil_ u M v.
Proof.
  revert M; induction u as [|a u IH]; intros [|r M]; simpl; try ring.
  rewrite IH, dot_vscale_r. ring.
Qed.

Lemma bil_mscale (k : R) (u : vec) (M : matrix) (v : vec) :
  bil_ u (mscale k M) v = k * bil_ u M v.
Proof.
  unfold mscale.
  revert M; induction u as [|a u IH]; intros [|r M]; cbn [map bil_]; try ring.
  rewrite IH, dot_vscale_l. ring.
Qed.

Lemma bil_outer (u b b' v : vec) :
  length u = length b ->
  bil_ u (outer b b') v = dot_ u b * dot_ b' v.
Proof.
  unfold outer.
  revert b; induction u as [|a u IH]; intros [|c b] H; cbn [map bil_ dot_];
    try discriminate; try ring.
  rewrite IH by (simpl in H; congruence). rewrite dot_vscale_l. ring.
Qed.

Lemma bil_msub (m : nat) (u : vec) (M N : matrix) (v : vec) :
  length M = length N ->
  Forall (fun r => length r = m) M -> Forall (fun r => length r = m) N ->
  bil_ u (msub_ M N) v = bil_ u M v - bil_ u N v.
Proof.
  intros HL HM; revert u N HL; induction HM as [|r M Hr HM IH];
    intros [|a u] [|s N] HL HN; simpl in *; try discriminate; try ring.
  inversion HN as [|? ? Hs HN']; subst.
  rewrite IH by (assumption || congruence).
  rewrite dot_vadd_l by (rewrite length_vscale; congruence).
  rewrite dot_vscale_l. ring.
Qed.

(** Shapes. *)

Lemma rect_ncols (n : nat) (M : matrix) : rect n n M -> ncols M = n.
Proof.
  intros [HL HF]. destruct M as [|r M]; simpl in *; [assumption|].
  inversion HF; assumption.
Qed.

Lemma rect_outer (b b' : vec) : rect (length b) (length b') (outer b b').
Proof.
  split; [apply length_map|]. unfold outer. apply Forall_map.
  apply Forall_forall; intros; apply length_vscale.
Qed.

Lemma rect_mscale (n m : nat) (k : R) (M : matrix) :
  rect n m M -> rect n m (mscale k M).
Proof.
  intros [HL HF]. split; [unfold mscale; now rewrite length_map|].
  unfold mscale. apply Forall_map. eapply Forall_impl; [|exact HF].
  intros r Hr; simpl. now rewrite length_vscale.
Qed.

Lemma length_msub_ (M N : matrix) :
  length M = length N -> length (msub_ M N) = length M.
Proof.
  revert N; induction M as [|r M IH]; intros [|s N] H; simpl in *;
    try reflexivity; try discriminate.
  f_equal. apply IH. congruence.
Qed.

Lemma rows_msub_ (m : nat) (M N : matrix) :
  Forall (fun r => length r = m) M -> Forall (fun r => length r = m) N ->
  Forall (fun r => length r = m) (msub_ M N).
Proof.
  intros HM; revert N; induction HM as [|r M Hr HM IH];
    intros N HN; destruct HN as [|s N Hs HN]; simpl; constructor.
  - rewrite length_vadd_; [assumption | rewrite length_vscale; congruence].
  - apply IH; assumption.
Qed.

Lemma rect_msub (n m : nat) (M N : matrix) :
  rect n m M -> rect n m N -> rect n m (msub_ M N).
Proof.
  intros [HLM HM] [HLN HN]. split.
  - rewrite length_msub_; congruence.
  - apply rows_msub_; assumption.
Qed.

Lemma dot_Ok (u v : vec) (r : R) :
  dot u v = Ok r -> length u = length v /\ r = dot_ u v.
Proof.
  unfold dot. destruct (Nat.eqb_spec (length u) (length v)); intros H;
    [injection H as <-; auto | discriminate].
Qed.

Lemma dot_eq (u v : vec) : length u = length v -> dot u v = Ok (dot_ u v).
Proof. intros H. unfold dot. now rewrite H, Nat.eqb_refl. Qed.

Lemma vadd_Ok (u v w : vec) :
  vadd u v = Ok w -> length u = length v /\ w = vadd_ u v.
Proof.
  unfold vadd. destruct (Nat.eqb_spec (length u) (length v)); intros H;
    [injection H as <-; auto | discriminate].
Qed.

Lemma vadd_eq (u v : vec) : length u = length v -> vadd u v = Ok (vadd_ u v).
Proof. intros H. unfold vadd. now rewrite H, Nat.eqb_refl. Qed.

Lemma quad_form_Ok (n m : nat) (u : vec) (M : matrix) (v : vec) (r : R) :
  rect n m M -> quad_form u M v = Ok r -> length u = n /\ r = bil_ u M v.
Proof.
  intros [HL HF] H. unfold quad_form, vecmat, nrows in H.
  destruct (Nat.eqb_spec (length u) (length M)); simpl in H; [|discriminate].
  apply dot_Ok in H as [_ ->]. split; [congruence|].
  apply dot_vecmat_. destruct M as [|r0 M]; simpl in *; [constructor|].
  inversion HF; subst; assumption.
Qed.

Lemma quad_form_eq (n : nat) (u : vec) (M : matrix) (v : vec) :
  rect n n M -> length u = n -> length v = n ->
  quad_form u M v = Ok (bil_ u M v).
Proof.
  intros HM Hu Hv. pose proof (rect_ncols _ _ HM) as Hc. destruct HM as [HL HF].
  unfold quad_form, vecmat, nrows. rewrite Hu, HL, Nat.eqb_refl. simpl.
  rewrite Hc. rewrite dot_eq by (rewrite length_vecmat_; congruence).
  now rewrite dot_vecmat_.
Qed.

(** ** The orthogonal projection *)

Lemma dot_app (l1 l2 r1 r2 : vec) :
  length l1 = length r1 ->
  dot_ (l1 ++ l2) (r1 ++ r2) = dot_ l1 r1 + dot_ l2 r2.
Proof.
  revert r1; induction l1 as [|a l1 IH]; intros [|b r1] H; simpl in *;
    try discriminate; [ring|].
  rewrite IH by congruence. ring.
Qed.

Lemma dot_firstn_skipn (i : nat) (u v : vec) :
  dot_ (firstn i u) (firstn i v) + dot_ (skipn i u) (skipn i v) = dot_ u v.
Proof.
  revert u v; induction i as [|i IH]; intros [|a u] [|b v]; simpl; try ring.
  - rewrite (dot_comm _ []). simpl. ring.
  - rewrite <- (IH u v). ring.
Qed.

(** The delta computed for a well-formed instance: it has the length of
    [x], a zero at the intercept index, and moves the score [x.beta_hat] to
    [- overshoot] times itself. *)
Lemma projection_score (self : AdversarialLogistic) (x : vec) (overshoot : R) :
  aligned self ->
  sum_sq (beta_hat_minus0 self) <> 0 ->
  length x = length (beta_hat self) ->
  exists delta,
    compute_orthogonal_projection self x overshoot = Ok delta
    /\ length delta = length x
    /\ dot_ delta (beta_hat self) = - (1 + overshoot) * dot_ x (beta_hat self)
    /\ (model_has_intercept self = true ->
        forall i, idx_beta0 self = Some i -> nth_error delta i = Some 0).
Proof.
  intros Hal Hss Hx. unfold compute_orthogonal_projection.
  rewrite dot_eq by assumption. simpl.
  set (xb := dot_ x (beta_hat self)).
  set (m0 := beta_hat_minus0 self) in *.
  set (d := vscale (1 + overshoot) (vscale (- (xb / sum_sq m0)) m0)).
  assert (Hd : dot_ d m0 = - (1 + overshoot) * xb).
  { unfold d. rewrite !dot_vscale_l, dot_self_sum_sq. field. assumption. }
  assert (Hld : length d = length m0).
  { unfold d. now rewrite !length_vscale. }
  unfold aligned in Hal. fold m0 in Hal.
  destruct (model_has_intercept self).
  - destruct Hal as (i & b0 & Hi & Hle & Hb). rewrite Hi.
    unfold np_insert. rewrite Hld.
    replace (Nat.leb i (length m0)) with true by (symmetry; now apply Nat.leb_le).
    eexists; split; [reflexivity|]. repeat split.
    + rewrite Hx, Hb, !length_app. simpl.
      rewrite !length_firstn, !length_skipn, Hld. reflexivity.
    + rewrite Hb.
      rewrite dot_app by (rewrite !length_firstn, Hld; reflexivity).
      simpl. rewrite <- Hd, <- (dot_firstn_skipn i d m0). ring.
    + intros _ j Hj. injection Hj as <-.
      rewrite nth_error_app2 by (rewrite length_firstn; lia).
      rewrite length_firstn, Hld.
      replace (i - Nat.min i (length m0))%nat with O by lia. reflexivity.
  - eexists; split; [reflexivity|]. repeat split.
    + rewrite Hx, Hal. exact Hld.
    + rewrite Hal. exact Hd.
    + intros H; discriminate.
Qed.


(** ** The orchestrator: general facts *)

Lemma clip_idem (lower upper c : R) :
  clip lower upper (clip lower upper c) = clip lower upper c.
Proof.
  unfold clip, Rgtb, Rltb. case_cmp; try reflexivity; lra.
Qed.

(** The three values of [out_bounds] the assertion lets through. *)
Lemma check_bounds_mode (self : AdversarialLogistic) (v : vec)
    (out_bounds : string) (r : option vec) :
  check_bounds self v out_bounds = Ok r ->
  out_bounds = "clipping" \/ out_bounds = "missing" \/ out_bounds = "nothing".
Proof.
  unfold check_bounds. intros H. apply bind_Ok in H as (u & Ha & _).
  apply py_assert_Ok in Ha.
  apply orb_true_iff in Ha as [Ha | Ha]; [apply orb_true_iff in Ha as [Ha | Ha]|];
    apply String.eqb_eq in Ha; auto.
Qed.

(** The value of [x] after one more bounds check of [x] itself is checked
    to the same result. *)
Lemma check_bounds_again (self : AdversarialLogistic) (x : vec)
    (out_bounds : string) (checked : option vec) :
  check_bounds self x out_bounds = Ok checked ->
  check_bounds self (match checked with Some x' => x' | None => x end) out_bounds
  = Ok checked.
Proof.
  intros H. destruct (check_bounds_mode _ _ _ _ H) as [-> | [-> | ->]].
  - rewrite check_bounds_clipping in H. injection H as <-.
    rewrite check_bounds_clipping, map_map.
    rewrite (map_ext _ (clip (lower_bound self) (upper_bound self)))
      by (intros; apply clip_idem).
    reflexivity.
  - destruct checked as [x'|]; [|exact H].
    rewrite check_bounds_missing in H |- *.
    destruct (_ || _)%bool eqn:E in H; [discriminate|].
    injection H as <-. now rewrite E.
  - rewrite check_bounds_nothing in H. injection H as <-.
    apply check_bounds_nothing.
Qed.

(** A valid [out_bounds] never makes the check raise. *)
Lemma check_bounds_total (self : AdversarialLogistic) (v w : vec)
    (out_bounds : string) (r : option vec) :
  check_bounds self v out_bounds = Ok r ->
  exists r', check_bounds self w out_bounds = Ok r'.
Proof.
  intros H. destruct (check_bounds_mode _ _ _ _ H) as [-> | [-> | ->]].
  - rewrite check_bounds_clipping. eauto.
  - rewrite check_bounds_missing. eauto.
  - rewrite check_bounds_nothing. eauto.
Qed.

Lemma check_bounds_inside (self : AdversarialLogistic) (v : vec)
    (out_bounds : string) (r : option vec) :
  check_bounds self v out_bounds = Ok r ->
  (forall c, In c v -> lower_bound self <= c <= upper_bound self) ->
  r = Some v.
Proof.
  intros H Hin. destruct (check_bounds_mode _ _ _ _ H) as [-> | [-> | ->]].
  - rewrite check_bounds_clipping in H. injection H as <-.
    rewrite <- (map_id v) at 2. apply (f_equal Some). apply map_ext_in.
    intros c Hc. apply clip_inside. auto.
  - rewrite check_bounds_missing in H. injection H as <-.
    replace (_ || _)%bool with false; [reflexivity|].
    symmetry. apply orb_false_iff. split.
    + apply not_true_is_false. intros E. apply existsb_exists in E as (c & Hc & E).
      apply Rltb_true in E. specialize (Hin c Hc). lra.
    + apply not_true_is_false. intros E. apply existsb_exists in E as (c & Hc & E).
      apply Rltb_true in E. specialize (Hin c Hc). lra.
  - rewrite check_bounds_nothing in H. now injection H as <-.
Qed.

(** The first branch of the loop body: the solver does not occur in it. *)
Lemma level_step_zero (ext : Externals) (self : AdversarialLogistic) (y : Z)
    (out_bounds : string) (tol tol_underflow : R) (delta : vec)
    (x_adv_0 : option vec) (p : R) (x : vec) (a : R) :
  1 - p >= a ->
  level_step ext self y out_bounds tol tol_underflow delta x_adv_0 p x a
  = (checked <- check_bounds self x out_bounds ;;
     Ok ({| alpha_ := a; lambda_star := 0;
            x_adv_star := checked; x_adv_0 := x_adv_0 |},
         match checked with Some x' => x' | None => x end)).
Proof.
  intros H. unfold level_step, Rgeb.
  replace (Rleb a (1 - p)) with true by (symmetry; apply Rleb_true; lra).
  reflexivity.
Qed.

(** The second branch: what a dict it builds is made of. *)
Lemma level_step_solve (ext : Externals) (self : AdversarialLogistic) (y : Z)
    (out_bounds : string) (tol tol_underflow : R) (delta : vec)
    (xa0 : option vec) (p : R) (x : vec) (a : R)
    (d : result_dict) (x' : vec) :
  1 - p < a ->
  level_step ext self y out_bounds tol tol_underflow delta xa0 p x a
  = Ok (d, x') ->
  x' = x
  /\ solve_lambda ext self a x y delta tol tol_underflow = Ok (Some (lambda_star d))
  /\ alpha_ d = a
  /\ x_adv_0 d = xa0
  /\ exists x_adv,
       vadd x (vscale (lambda_star d) delta) = Ok x_adv
       /\ check_bounds self x_adv out_bounds = Ok (x_adv_star d).
Proof.
  intros Hlt H. unfold level_step, Rgeb in H.
  replace (Rleb a (1 - p)) with false in H by (symmetry; apply Rleb_false; lra).
  apply bind_Ok in H as ([lam|] & Hsol & H); [|discriminate].
  apply bind_Ok in H as (x_adv & Hadd & H).
  apply bind_Ok in H as (u1 & _ & H).
  apply bind_Ok in H as (p' & _ & H).
  apply bind_Ok in H as (u2 & _ & H).
  apply bind_Ok in H as (checked & Hchk & H).
  injection H as <- <-. simpl. repeat split; try assumption.
  exists x_adv; split; assumption.
Qed.

(** An invariant [Inv] of [x] and a property [Q] of the dicts, both kept by
    the loop body, hold of every dict returned. *)
Lemma levels_loop_invariant (ext : Externals) (self : AdversarialLogistic)
    (y : Z) (out_bounds : string) (tol tol_underflow : R) (delta : vec)
    (x_adv_0 : option vec) (p : R) (n : nat)
    (Inv : vec -> Prop) (Q : result_dict -> Prop) :
  (forall x a d x',
      Inv x ->
      level_step ext self y out_bounds tol tol_underflow delta x_adv_0 p x a
      = Ok (d, x') ->
      Q d /\ Inv x') ->
  forall (alphas : list R) (x : vec) (results : list result_dict)
         (res : perturbation),
    Inv x -> Forall Q results ->
    levels_loop ext self y out_bounds tol tol_underflow delta x_adv_0 p n
                x results alphas = Ok res ->
    Forall Q (dicts_of res).
Proof.
  intros Hstep alphas. induction alphas as [|a rest IH];
    intros x results res Hinv HQ H; simpl in H.
  - injection H as <-. exact HQ.
  - apply bind_Ok in H as ([d x'] & Hs & H).
    destruct (Hstep _ _ _ _ Hinv Hs) as [Hd Hx'].
    destruct (Nat.eqb n 1).
    + injection H as <-. simpl. constructor; [exact Hd | constructor].
    + eapply IH; [exact Hx' | | exact H].
      apply Forall_app. split; [exact HQ | constructor; [exact Hd | constructor]].
Qed.

(** What a successful [prepare] has established. *)
Lemma prepare_Ok (self : AdversarialLogistic) (x : vec) (y : Z)
    (out_bounds : string) (xa delta : vec) (xa0 : option vec) :
  prepare self x y out_bounds = Ok (xa, delta, xa0) ->
  xa = add_constant_x self x
  /\ (y = 0%Z \/ y = 1%Z)
  /\ (exists cov, cov_params self = Some cov)
  /\ compute_orthogonal_projection self xa (1 / 1000000) = Ok delta
  /\ exists v, vadd xa delta = Ok v /\ check_bounds self v out_bounds = Ok xa0.
Proof.
  unfold prepare. intros H.
  destruct (cov_params self) as [cov|] eqn:Hcov; [|discriminate].
  apply bind_Ok in H as (u & Hy & H).
  apply bind_Ok in H as (xb & Hxb & H).
  apply bind_Ok in H as (d & Hd & H).
  apply bind_Ok in H as (v & Hv & H).
  apply bind_Ok in H as (xb0 & Hxb0 & H).
  apply bind_Ok in H as (u' & Hself & H).
  apply bind_Ok in H as (c & Hc & H).
  injection H as <- <- <-.
  split; [reflexivity|]. split.
  { apply py_assert_Ok in Hy. apply orb_true_iff in Hy as [Hy|Hy];
      apply Z.eqb_eq in Hy; auto. }
  split; [eauto|]. split; [exact Hd|]. exists v. auto.
Qed.

(** ** The levels already met *)

(** C3, as the code has it: for a level [a] with [1 - P[pred(x)=y] >= a] the
    dict emitted has [lambda_star = 0] and, as [x_adv_star], the outcome of
    the bounds check applied to the aligned [x]: [x] itself under
    ['nothing'] or when [x] is inside the bounds.  With one float level the
    call returns that dict, whatever the solver would do. *)
Theorem zero_intensity_level :
  forall (ext : Externals) (self : AdversarialLogistic) (x : vec) (y : Z)
         (alpha : pyval) (out_bounds : string) (tol tol_underflow : R)
         (xa delta : vec) (xa0 : option vec) (p : R),
    prepare self x y out_bounds = Ok (xa, delta, xa0) ->
    compute_probability_predx_equals_y ext self xa y = Ok p ->
    exists checked,
      check_bounds self xa out_bounds = Ok checked
      /\ (out_bounds = "nothing" -> checked = Some xa)
      /\ ((forall c, In c xa -> lower_bound self <= c <= upper_bound self) ->
          checked = Some xa)
      /\ (forall a, alpha = PyFloat a -> 1 - p >= a ->
          compute_adversarial_perturbation ext self x y alpha out_bounds
                                           tol tol_underflow
          = Ok (OneDict {| alpha_ := a; lambda_star := 0;
                           x_adv_star := checked; x_adv_0 := xa0 |}))
      /\ (forall res,
          compute_adversarial_perturbation ext self x y alpha out_bounds
                                           tol tol_underflow = Ok res ->
          forall d, In d (dicts_of res) -> 1 - p >= alpha_ d ->
            lambda_star d = 0 /\ x_adv_star d = checked).
Proof.
  intros ext self x y alpha ob tol tolu xa delta xa0 p Hprep Hp.
  destruct (prepare_Ok _ _ _ _ _ _ _ Hprep) as (_ & _ & _ & _ & v & _ & Hv).
  destruct (check_bounds_total self v xa ob xa0 Hv) as (checked & Hchk).
  exists checked. split; [exact Hchk|]. split.
  { intros ->. rewrite check_bounds_nothing in Hchk. now injection Hchk as <-. }
  split; [apply (check_bounds_inside _ _ _ _ Hchk)|]. split.
  - intros a -> Ha. unfold compute_adversarial_perturbation.
    rewrite Hprep. simpl. rewrite Hp. simpl.
    rewrite level_step_zero by exact Ha. rewrite Hchk. reflexivity.
  - intros res Hres d Hd Hge. unfold compute_adversarial_perturbation in Hres.
    rewrite Hprep in Hres. simpl in Hres.
    apply bind_Ok in Hres as (alphas & _ & Hres).
    rewrite Hp in Hres. simpl in Hres.
    revert d Hd Hge.
    apply (proj1 (Forall_forall
                    (fun d => 1 - p >= alpha_ d ->
                              lambda_star d = 0 /\ x_adv_star d = checked)
                    (dicts_of res))).
    eapply (levels_loop_invariant ext self y ob tol tolu delta xa0 p
              (length alphas)
              (fun x' => check_bounds self x' ob = Ok checked)
              (fun d => 1 - p >= alpha_ d ->
                        lambda_star d = 0 /\ x_adv_star d = checked));
      [ | exact Hchk | constructor | exact Hres].
    intros x' a d x'' Hinv Hstep.
    destruct (Rge_dec (1 - p) a) as [Hge|Hlt].
    + rewrite level_step_zero in Hstep by exact Hge.
      rewrite Hinv in Hstep. simpl in Hstep. injection Hstep as <- <-.
      simpl. split; [auto|]. apply check_bounds_again. exact Hinv.
    + apply level_step_solve in Hstep as (-> & _ & Ha & _); [|lra].
      split; [|exact Hinv]. intros Hge. rewrite Ha in Hge. contradiction.
Qed.

(** ** The alpha parameter *)

(** C10, as the code has it: when [alpha] is neither a float nor a list, the
    call never returns a result; it raises what the steps before the test
    raise, if one of them does, and the invalid-alpha exception otherwise. *)
Theorem invalid_alpha_rejected :
  forall (ext : Externals) (self : AdversarialLogistic) (x : vec) (y : Z)
         (alpha : pyval) (out_bounds : string) (tol tol_underflow : R),
    (forall a, alpha <> PyFloat a) ->
    (forall l, alpha <> PyList l) ->
    compute_adversarial_perturbation ext self x y alpha out_bounds
                                     tol tol_underflow
    = (_ <- prepare self x y out_bounds ;;
       Raise (PyException "Invalid alpha parameter")).
Proof.
  intros ext self x y alpha ob tol tolu Hf Hl.
  unfold compute_adversarial_perturbation.
  destruct (prepare self x y ob) as [[[xa delta] xa0]|e]; simpl; [|reflexivity].
  destruct alpha as [a|l| | | |]; simpl; try reflexivity.
  - destruct (Hf a); reflexivity.
  - destruct (Hl l); reflexivity.
Qed.

(** ** The coordinate space of the returned vectors *)

(** The value a bounds check leaves at a coordinate that held [c]. *)
Lemma check_bounds_cons (self : AdversarialLogistic) (c : R) (t : vec)
    (out_bounds : string) (w : vec) :
  check_bounds self (c :: t) out_bounds = Ok (Some w) ->
  exists t',
    w = (if String.eqb out_bounds "clipping"
         then clip (lower_bound self) (upper_bound self) c else c) :: t'
    /\ length t' = length t.
Proof.
  intros H. destruct (check_bounds_mode _ _ _ _ H) as [-> | [-> | ->]].
  - rewrite check_bounds_clipping in H. injection H as <-. simpl.
    eexists; split; [reflexivity | apply length_map].
  - rewrite check_bounds_missing in H.
    destruct (_ || _)%bool in H; [discriminate|]. injection H as <-.
    simpl. eauto.
  - rewrite check_bounds_nothing in H. injection H as <-. simpl. eauto.
Qed.

(** C9: for an instance whose model has an intercept while the examples
    carry no constant (the intercept index is then 0), every vector of every
    dict returned, [x_adv_star] or [x_adv_0], has one coordinate more than
    the [x] passed in, and its coordinate 0 is 1, or the clipped image of 1
    under ['clipping']. *)
Theorem returned_vectors_carry_constant :
  forall (ext : Externals) (self : AdversarialLogistic) (x : vec) (y : Z)
         (alpha : pyval) (out_bounds : string) (tol tol_underflow : R)
         (res : perturbation),
    model_has_intercept self = true ->
    X_has_constant self = false ->
    idx_beta0 self = Some O ->
    compute_adversarial_perturbation ext self x y alpha out_bounds
                                     tol tol_underflow = Ok res ->
    forall d v,
      In d (dicts_of res) ->
      x_adv_star d = Some v \/ x_adv_0 d = Some v ->
      length v = S (length x)
      /\ nth_error v 0
         = Some (if String.eqb out_bounds "clipping"
                 then clip (lower_bound self) (upper_bound self) 1 else 1).
Proof.
  intros ext self x y alpha ob tol tolu res Hint Hcst Hidx Hres.
  set (bounded := fun c : R =>
         if String.eqb ob "clipping"
         then clip (lower_bound self) (upper_bound self) c else c).
  assert (Hidem : forall c, bounded (bounded c) = bounded c).
  { intros c. unfold bounded. destruct (String.eqb ob "clipping");
      [apply clip_idem | reflexivity]. }
  set (good := fun v : vec =>
         length v = S (length x) /\ nth_error v 0 = Some (bounded 1)).
  unfold compute_adversarial_perturbation in Hres.
  apply bind_Ok in Hres as ([[xa delta] xa0] & Hprep & Hres).
  apply bind_Ok in Hres as (alphas & _ & Hres).
  apply bind_Ok in Hres as (p & _ & Hres).
  destruct (prepare_Ok _ _ _ _ _ _ _ Hprep)
    as (Hxa & _ & _ & Hproj & v0 & Hv0 & Hchk0).
  unfold add_constant_x in Hxa. rewrite Hint, Hcst in Hxa. simpl in Hxa.
  (* delta starts with the zero inserted at index 0 *)
  assert (Hdelta : exists t, delta = 0 :: t /\ length t = length x).
  { unfold compute_orthogonal_projection in Hproj.
    apply bind_Ok in Hproj as (xb & _ & Hproj).
    rewrite Hint, Hidx in Hproj. unfold np_insert in Hproj. simpl in Hproj.
    injection Hproj as <-. eexists; split; [reflexivity|].
    apply vadd_Ok in Hv0 as [Hlen _]. subst xa. simpl in Hlen. congruence. }
  destruct Hdelta as (dt & -> & Hdt).
  (* x_adv_0 *)
  assert (H0 : forall v, xa0 = Some v -> good v).
  { intros v ->. apply vadd_Ok in Hv0 as [_ ->]. subst xa. simpl in Hchk0.
    apply check_bounds_cons in Hchk0 as (t' & -> & Ht'). split.
    - simpl. rewrite Ht', length_vadd_; congruence.
    - simpl. fold (bounded (1 + 0)). now rewrite Rplus_0_r. }
  assert (HQ : Forall (fun d => (forall v, x_adv_star d = Some v -> good v)
                                /\ x_adv_0 d = xa0) (dicts_of res)).
  { eapply (levels_loop_invariant ext self y ob tol tolu (0 :: dt) xa0 p
              (length alphas)
              (fun x' => exists h t, x' = h :: t /\ length t = length x
                                     /\ bounded h = bounded 1));
      [ | | constructor | exact Hres].
    - intros x' a d x'' (h & t & -> & Ht & Hh) Hstep.
      destruct (Rge_dec (1 - p) a) as [Hge|Hlt].
      + rewrite level_step_zero in Hstep by exact Hge.
        apply bind_Ok in Hstep as (checked & Hchk & Hstep).
        injection Hstep as <- <-. simpl.
        destruct checked as [w|].
        * apply check_bounds_cons in Hchk as (t' & -> & Ht').
          fold (bounded h). split; [split; [|reflexivity]|].
          -- intros v Hv. injection Hv as <-. split.
             ++ simpl. congruence.
             ++ simpl. now rewrite Hh.
          -- exists (bounded h), t'. split; [reflexivity|].
             split; [congruence|]. now rewrite Hidem.
        * split; [split; [discriminate | reflexivity]|].
          exists h, t. auto.
      + apply level_step_solve in Hstep
          as (-> & _ & _ & Hx0 & x_adv & Hadd & Hchk); [|lra].
        split; [|exists h, t; auto]. split; [|exact Hx0].
        intros v Hv. rewrite Hv in Hchk.
        apply vadd_Ok in Hadd as [Hlen ->]. simpl in Hchk.
        apply check_bounds_cons in Hchk as (t' & -> & Ht'). split.
        * simpl. rewrite Ht', length_vadd_; [congruence|].
          rewrite length_vscale. simpl in Hlen. rewrite length_vscale in Hlen.
          congruence.
        * simpl. fold (bounded (h + lambda_star d * 0)).
          replace (h + lambda_star d * 0) with h by ring. now rewrite Hh.
    - subst xa. exists 1, x. auto. }
  intros d v Hd Hv.
  pose proof (proj1 (Forall_forall _ _) HQ d Hd) as [Hs Hz].
  destruct Hv as [Hv|Hv]; [exact (Hs v Hv)|].
  rewrite Hz in Hv. exact (H0 v Hv).
Qed.

(** ** The lambda solver *)

(** The coefficients of the second degree equation, in terms of the scores
    [x.beta_hat], [delta.beta_hat] and of the bilinear form of the
    covariance. *)
Lemma quad_coeffs_Ok (ext : Externals) (self : AdversarialLogistic)
    (n : nat) (cov : matrix) (alpha : R) (x delta : vec) (a b c : R) :
  rect n n cov ->
  quad_coeffs ext self cov alpha x delta = Ok (a, b, c) ->
  let k := 2 * (erfinv ext (2 * alpha - 1) * erfinv ext (2 * alpha - 1)) in
  let u0 := dot_ x (beta_hat self) in
  let m := dot_ delta (beta_hat self) in
  length (beta_hat self) = n /\ length x = n /\ length delta = n
  /\ a = m * m - k * bil_ delta cov delta
  /\ b = 2 * u0 * m - k * (bil_ x cov delta + bil_ delta cov x)
  /\ c = u0 * u0 - k * bil_ x cov x.
Proof.
  intros Hcov H k u0 m. unfold quad_coeffs, mat_A, msub in H. fold k in H.
  destruct (same_shape _ _) eqn:Hsh in H; [simpl in H | discriminate].
  assert (Hb : length (beta_hat self) = n).
  { unfold same_shape in Hsh. apply andb_true_iff in Hsh as [Hr _].
    apply Nat.eqb_eq in Hr. unfold nrows, outer, mscale in Hr.
    rewrite !length_map in Hr. destruct Hcov as [Hl _]. congruence. }
  assert (HA : rect n n (msub_ (outer (beta_hat self) (beta_hat self))
                               (mscale k cov))).
  { apply rect_msub; [|apply rect_mscale; exact Hcov].
    rewrite <- Hb at 1 2. apply rect_outer. }
  apply bind_Ok in H as (a' & Ha & H).
  apply bind_Ok in H as (b1 & Hb1 & H).
  apply bind_Ok in H as (b2 & Hb2 & H).
  apply bind_Ok in H as (c' & Hc & H).
  injection H as <- <- <-.
  apply (quad_form_Ok _ _ _ _ _ _ HA) in Ha as [Hld ->].
  apply (quad_form_Ok _ _ _ _ _ _ HA) in Hb1 as [Hlx ->].
  apply (quad_form_Ok _ _ _ _ _ _ HA) in Hb2 as [_ ->].
  apply (quad_form_Ok _ _ _ _ _ _ HA) in Hc as [_ ->].
  assert (Hbil : forall u v, length u = n ->
            bil_ u (msub_ (outer (beta_hat self) (beta_hat self)) (mscale k cov)) v
            = dot_ u (beta_hat self) * dot_ v (beta_hat self) - k * bil_ u cov v).
  { intros u v Hu. destruct Hcov as [Hl Hrows].
    rewrite (bil_msub n).
    - rewrite bil_outer by congruence. rewrite bil_mscale.
      rewrite (dot_comm (beta_hat self) v). reflexivity.
    - unfold outer, mscale. rewrite !length_map. congruence.
    - pose proof (rect_outer (beta_hat self) (beta_hat self)) as [_ Ho].
      rewrite Hb in Ho. exact Ho.
    - apply (rect_mscale n n k cov). split; assumption. }
  rewrite !Hbil by assumption. fold u0 m.
  repeat split; try assumption; ring.
Qed.

(** The squared form along [x + lambda * delta]. *)
Lemma bil_along (cov : matrix) (x delta : vec) (lam : R) :
  length x = length delta ->
  bil_ (vadd_ x (vscale lam delta)) cov (vadd_ x (vscale lam delta))
  = bil_ x cov x + lam * (bil_ x cov delta + bil_ delta cov x)
    + lam * lam * bil_ delta cov delta.
Proof.
  intros H.
  rewrite bil_vadd_l by (rewrite length_vscale; exact H).
  rewrite !bil_vadd_r by (rewrite length_vscale; exact H).
  rewrite !bil_vscale_l, !bil_vscale_r. ring.
Qed.

(** With a positive leading coefficient and a form that is nowhere negative,
    a discriminant that is not positive is zero, and the repeated root is
    where the score vanishes together with the scaled form. *)
Lemma repeated_root_exact (u0 m k Sxx Sm Sdd a b c : R) :
  0 <= k -> 0 <= Sdd ->
  (forall lam, 0 <= Sxx + lam * Sm + lam * lam * Sdd) ->
  a = m * m - k * Sdd ->
  b = 2 * u0 * m - k * Sm ->
  c = u0 * u0 - k * Sxx ->
  0 < a ->
  b * b - 4 * a * c <= 0 ->
  u0 + (- b / (2 * a)) * m = 0
  /\ k * (Sxx + (- b / (2 * a)) * Sm + (- b / (2 * a)) * (- b / (2 * a)) * Sdd) = 0.
Proof.
  intros Hk Hdd Hpsd Ha Hb Hc Hpos HD.
  assert (Hm : m <> 0).
  { intros ->. assert (0 <= k * Sdd) by (apply Rmult_le_pos; assumption). lra. }
  set (l1 := - u0 / m).
  pose proof (Hpsd l1) as Hs1.
  set (s1 := Sxx + l1 * Sm + l1 * l1 * Sdd) in *.
  assert (Hu : u0 + l1 * m = 0) by (unfold l1; field; exact Hm).
  assert (Hq : c + b * l1 + a * l1 * l1 = - (k * s1)).
  { replace (c + b * l1 + a * l1 * l1)
      with ((u0 + l1 * m) * (u0 + l1 * m) - k * s1)
      by (unfold s1; rewrite Ha, Hb, Hc; ring).
    rewrite Hu. ring. }
  assert (Hks : 0 <= k * s1) by (apply Rmult_le_pos; assumption).
  assert (Hsq : (2 * a * l1 + b) * (2 * a * l1 + b)
                = 4 * a * (c + b * l1 + a * l1 * l1) + (b * b - 4 * a * c))
    by ring.
  assert (Hz : 2 * a * l1 + b = 0) by nra.
  assert (Hl : - b / (2 * a) = l1).
  { replace b with (- (2 * a * l1)) by lra. field. lra. }
  rewrite Hl. fold s1. split; [exact Hu|]. nra.
Qed.


(** No root is returned when every residual is at least [tol]. *)
Lemma select_root_none (ext : Externals) (self : AdversarialLogistic)
    (cov : matrix) (alpha : R) (x delta : vec) (tol : R) (roots : list R) :
  (forall lam, In lam roots ->
     exists eq, residual ext self cov alpha x delta lam = Ok eq /\ tol <= eq) ->
  select_root ext self cov alpha x delta tol roots
  = Raise (ValueError "Error when solving the 2nd degree equation.").
Proof.
  induction roots as [|l roots IH]; simpl; intros H; [reflexivity|].
  destruct (H l) as (eq & -> & Hge); [auto|]. simpl.
  replace (Rltb eq tol) with false by (symmetry; now apply Rltb_false).
  apply IH. intros lam Hin. apply H. auto.
Qed.


(** The value of the residual, in terms of the scores and of the form. *)
Lemma residual_value (ext : Externals) (self : AdversarialLogistic)
    (n : nat) (cov : matrix) (alpha : R) (x delta : vec) (lam : R) :
  psd n cov ->
  length (beta_hat self) = n -> length x = n -> length delta = n ->
  residual ext self cov alpha x delta lam
  = Ok (Rabs (dot_ x (beta_hat self) + lam * dot_ delta (beta_hat self)
              + sqrt 2 * erfinv ext (2 * alpha - 1)
                * sqrt (bil_ x cov x
                        + lam * (bil_ x cov delta + bil_ delta cov x)
                        + lam * lam * bil_ delta cov delta))).
Proof.
  intros [Hrect Hpsd] Hb Hx Hd. unfold residual.
  assert (Hl : length (vadd_ x (vscale lam delta)) = n).
  { rewrite length_vadd_; [assumption | rewrite length_vscale; congruence]. }
  rewrite vadd_eq by (rewrite length_vscale; congruence). simpl.
  rewrite dot_eq by congruence. simpl.
  rewrite (quad_form_eq n) by assumption. simpl.
  unfold math_sqrt.
  replace (Rltb _ 0) with false
    by (symmetry; apply Rltb_false; apply Hpsd; exact Hl).
  simpl. rewrite bil_along by congruence.
  rewrite dot_vadd_l by (rewrite length_vscale; congruence).
  rewrite dot_vscale_l. reflexivity.
Qed.

(** With a form that is nowhere negative and a positive leading
    coefficient, the discriminant is not negative. *)
Lemma discriminant_nonneg (u0 m k Sxx Sm Sdd a b c : R) :
  0 <= k -> 0 <= Sdd ->
  (forall lam, 0 <= Sxx + lam * Sm + lam * lam * Sdd) ->
  a = m * m - k * Sdd ->
  b = 2 * u0 * m - k * Sm ->
  c = u0 * u0 - k * Sxx ->
  0 < a ->
  0 <= b * b - 4 * a * c.
Proof.
  intros Hk Hdd Hpsd Ea Eb Ec Ha.
  destruct (Rle_or_lt 0 (b * b - 4 * a * c)) as [H|H]; [exact H|].
  exfalso.
  destruct (repeated_root_exact u0 m k Sxx Sm Sdd a b c) as [Hu Hs];
    try assumption; [lra|].
  set (l0 := - b / (2 * a)) in *.
  assert (Hq0 : c + b * l0 + a * l0 * l0 = 0).
  { replace (c + b * l0 + a * l0 * l0)
      with ((u0 + l0 * m) * (u0 + l0 * m)
            - k * (Sxx + l0 * Sm + l0 * l0 * Sdd))
      by (rewrite Ea, Eb, Ec; ring).
    rewrite Hu, Hs. ring. }
  assert (Hq1 : 4 * a * (c + b * l0 + a * l0 * l0) = - (b * b - 4 * a * c)).
  { unfold l0. field. lra. }
  rewrite Hq0 in Hq1. lra.
Qed.

(** With a positive discriminant, one of the two roots of the squared
    equation is a root of the equation before squaring. *)
Lemma one_root_is_genuine (u0 m e Sxx Sm Sdd a b c : R) :
  0 <= Sdd ->
  (forall lam, 0 <= Sxx + lam * Sm + lam * lam * Sdd) ->
  a = m * m - 2 * (e * e) * Sdd ->
  b = 2 * u0 * m - 2 * (e * e) * Sm ->
  c = u0 * u0 - 2 * (e * e) * Sxx ->
  0 < a ->
  0 < b * b - 4 * a * c ->
  let res lam := u0 + lam * m
                 + sqrt 2 * e * sqrt (Sxx + lam * Sm + lam * lam * Sdd) in
  res ((- b - sqrt (b * b - 4 * a * c)) / (2 * a)) = 0
  \/ res ((- b + sqrt (b * b - 4 * a * c)) / (2 * a)) = 0.
Proof.
  intros Hdd Hpsd Ea Eb Ec Ha HD res.
  set (D := b * b - 4 * a * c) in *.
  set (r := sqrt D). assert (Hr : r * r = D) by (apply sqrt_sqrt; lra).
  set (l1 := (- b - r) / (2 * a)). set (l2 := (- b + r) / (2 * a)).
  set (k := 2 * (e * e)) in *.
  assert (Hk : 0 <= k) by (unfold k; nra).
  (* both are roots of the squared equation *)
  assert (Hq : forall l, l = l1 \/ l = l2 -> a * l * l + b * l + c = 0).
  { intros l [-> | ->]; unfold l1, l2.
    - replace (a * ((- b - r) / (2 * a)) * ((- b - r) / (2 * a))
               + b * ((- b - r) / (2 * a)) + c)
        with ((r * r - D) / (4 * a)) by (unfold D; field; lra).
      rewrite Hr. field. lra.
    - replace (a * ((- b + r) / (2 * a)) * ((- b + r) / (2 * a))
               + b * ((- b + r) / (2 * a)) + c)
        with ((r * r - D) / (4 * a)) by (unfold D; field; lra).
      rewrite Hr. field. lra. }
  set (u := fun l => u0 + l * m).
  set (s := fun l => Sxx + l * Sm + l * l * Sdd).
  set (w := fun l => sqrt 2 * e * sqrt (s l)).
  assert (Hsq : forall l, l = l1 \/ l = l2 -> u l * u l = w l * w l).
  { intros l Hl. unfold w.
    replace (sqrt 2 * e * sqrt (s l) * (sqrt 2 * e * sqrt (s l)))
      with ((sqrt 2 * sqrt 2) * (e * e) * (sqrt (s l) * sqrt (s l))) by ring.
    rewrite sqrt_sqrt by lra. rewrite sqrt_sqrt by apply Hpsd.
    specialize (Hq l Hl). unfold u, s. rewrite Ea, Eb, Ec in Hq. unfold k in *.
    nra. }
  (* the scores at the two roots do not have the same strict sign *)
  assert (HE : 0 <= Sdd * (u0 * u0) - Sm * (u0 * m) + Sxx * (m * m)).
  { destruct (Req_dec m 0) as [-> | Hm].
    - nra.
    - pose proof (Hpsd (- u0 / m)) as H.
      replace (Sdd * (u0 * u0) - Sm * (u0 * m) + Sxx * (m * m))
        with (m * m * (Sxx + - u0 / m * Sm + - u0 / m * (- u0 / m) * Sdd))
        by (field; exact Hm).
      apply Rmult_le_pos; [nra | exact H]. }
  assert (Hprod : a * (u l1 * u l2) = - (k * (Sdd * (u0 * u0) - Sm * (u0 * m)
                                               + Sxx * (m * m)))).
  { unfold u, l1, l2.
    replace (a * ((u0 + (- b - r) / (2 * a) * m) * (u0 + (- b + r) / (2 * a) * m)))
      with (a * (u0 * u0) - b * (u0 * m) + (b * b - r * r) / (4 * a) * (m * m))
      by (field; lra).
    rewrite Hr. unfold D.
    replace ((b * b - (b * b - 4 * a * c)) / (4 * a)) with c by (field; lra).
    rewrite Ea, Eb, Ec. fold k. ring. }
  assert (Hu12 : u l1 * u l2 <= 0).
  { assert (0 <= k * (Sdd * (u0 * u0) - Sm * (u0 * m) + Sxx * (m * m)))
      by (apply Rmult_le_pos; assumption).
    nra. }
  assert (He : e <> 0).
  { intros ->. unfold k in *. unfold D in HD. rewrite Ea, Eb, Ec in HD. nra. }
  assert (Hs2 : 0 <= sqrt 2) by apply sqrt_pos.
  assert (Hw : forall l, (0 < e -> 0 <= w l) /\ (e < 0 -> w l <= 0)).
  { intros l. pose proof (sqrt_pos (s l)) as Hsl. unfold w. split; intros He'.
    - apply Rmult_le_pos; [apply Rmult_le_pos; lra | exact Hsl].
    - assert (0 <= sqrt 2 * (- e) * sqrt (s l))
        by (apply Rmult_le_pos; [apply Rmult_le_pos; lra | exact Hsl]).
      lra. }
  change (u l1 + w l1 = 0 \/ u l2 + w l2 = 0).
  pose proof (Hsq l1 (or_introl eq_refl)) as H1.
  pose proof (Hsq l2 (or_intror eq_refl)) as H2.
  destruct (Hw l1) as [Hp1 Hn1]. destruct (Hw l2) as [Hp2 Hn2].
  destruct (Rtotal_order e 0) as [Hneg | [Hz | Hpos]]; [|contradiction|].
  - specialize (Hn1 Hneg). specialize (Hn2 Hneg).
    destruct (Rle_or_lt 0 (u l1)) as [Hu1|Hu1]; [left; nra|].
    right. assert (0 <= u l2) by nra. nra.
  - specialize (Hp1 Hpos). specialize (Hp2 Hpos).
    destruct (Rle_or_lt (u l1) 0) as [Hu1|Hu1]; [left; nra|].
    right. assert (u l2 <= 0) by nra. nra.
Qed.


(** C5, as the code has it: once the leading coefficient [a] has passed the
    underflow test, a discriminant that is negative by at least [tol] makes
    the solver return [None]; a positive one, with both roots leaving a
    residual of at least [tol], makes it raise the error of the root
    selection. *)
Theorem solve_lambda_without_root :
  forall (ext : Externals) (self : AdversarialLogistic) (cov : matrix)
         (alpha : R) (x : vec) (y : Z) (delta : vec) (tol tol_underflow : R)
         (a b c : R),
    y = 0%Z \/ y = 1%Z ->
    cov_params self = Some cov ->
    quad_coeffs ext self cov (if Z.eqb y 0 then 1 - alpha else alpha) x delta
    = Ok (a, b, c) ->
    tol_underflow <= a ->
    let D := b * b - 4 * a * c in
    (D < 0 -> tol <= Rabs D ->
     solve_lambda ext self alpha x y delta tol tol_underflow = Ok None)
    /\ (D > 0 ->
        (forall lam,
           In lam [(- b - sqrt D) / (2 * a); (- b + sqrt D) / (2 * a)] ->
           exists eq,
             residual ext self cov (if Z.eqb y 0 then 1 - alpha else alpha)
                      x delta lam = Ok eq
             /\ tol <= eq) ->
        solve_lambda ext self alpha x y delta tol tol_underflow
        = Raise (ValueError "Error when solving the 2nd degree equation.")).
Proof.
  intros ext self cov alpha x y delta tol tolu a b c Hy Hcov Hq Ha D.
  rewrite solve_lambda_unfold by exact Hy.
  unfold solve_lambda_body. rewrite Hcov, Hq. cbn [bind]. fold D.
  replace (Rltb a tolu) with false by (symmetry; now apply Rltb_false).
  split.
  - intros HD Htol.
    replace (Rltb (Rabs D) tol) with false by (symmetry; now apply Rltb_false).
    cbn [andb]. replace (Rltb D 0) with true by (symmetry; now apply Rltb_true).
    reflexivity.
  - intros HD Hres.
    replace (Rleb D 0) with false by (symmetry; apply Rleb_false; lra).
    rewrite andb_false_r.
    replace (Rltb D 0) with false by (symmetry; apply Rltb_false; lra).
    unfold Rgtb. replace (Rltb 0 D) with true by (symmetry; apply Rltb_true; lra).
    apply select_root_none. exact Hres.
Qed.

(** ** The outcome without a real solution *)

(** X1: with a positive semi-definite covariance matrix and a positive
    [tol_underflow], the solver never returns [None]: a negative
    discriminant comes with a leading coefficient that is not positive,
    which the underflow test rejects first. *)
Theorem solve_lambda_never_none :
  forall (ext : Externals) (self : AdversarialLogistic) (n : nat)
         (cov : matrix) (alpha : R) (x : vec) (y : Z) (delta : vec)
         (tol tol_underflow : R),
    cov_params self = Some cov ->
    psd n cov ->
    0 < tol_underflow ->
    solve_lambda ext self alpha x y delta tol tol_underflow <> Ok None.
Proof.
  intros ext self n cov alpha x y delta tol tolu Hcov Hpsd Htolu H.
  unfold solve_lambda in H. apply bind_Ok in H as (u & _ & H).
  set (alpha' := if Z.eqb y 0 then 1 - alpha else alpha) in *.
  unfold solve_lambda_body in H. rewrite Hcov in H.
  apply bind_Ok in H as ([[a b] c] & Hq & H).
  destruct (Rltb a tolu) eqn:Ha; [discriminate|]. apply Rltb_false in Ha.
  set (D := b * b - 4 * a * c) in *.
  destruct (Rltb (Rabs D) tol && Rleb D 0); [discriminate|].
  destruct (Rltb D 0) eqn:HD.
  - apply Rltb_true in HD.
    pose proof Hpsd as [Hrect Hform].
    destruct (quad_coeffs_Ok _ _ _ _ _ _ _ _ _ _ Hrect Hq)
      as (Hb & Hx & Hd & Ea & Eb & Ec).
    set (e := erfinv ext (2 * alpha' - 1)) in *.
    assert (HD' : 0 <= b * b - 4 * a * c).
    { apply (discriminant_nonneg
               (dot_ x (beta_hat self)) (dot_ delta (beta_hat self))
               (2 * (e * e)) (bil_ x cov x)
               (bil_ x cov delta + bil_ delta cov x) (bil_ delta cov delta));
        try assumption; try nra.
      - apply Hform. exact Hd.
      - intros l. rewrite <- bil_along by congruence. apply Hform.
        rewrite length_vadd_; [assumption | rewrite length_vscale; congruence]. }
    unfold D in HD. lra.
  - destruct (Rgtb D 0); [|discriminate].
    clear - H. revert H.
    generalize [(- b - sqrt D) / (2 * a); (- b + sqrt D) / (2 * a)].
    intros roots. induction roots as [|l roots IH]; simpl; intros H;
      [discriminate|].
    apply bind_Ok in H as (eq & _ & H).
    destruct (Rltb eq tol); [discriminate | auto].
Qed.

(** X2: with a positive semi-definite covariance matrix and positive
    tolerances, the solver returns a root as soon as the leading coefficient
    passes the underflow test: the error of the root selection is never
    raised. *)
Theorem solve_lambda_returns_root :
  forall (ext : Externals) (self : AdversarialLogistic) (n : nat)
         (cov : matrix) (alpha : R) (x : vec) (y : Z) (delta : vec)
         (tol tol_underflow : R) (a b c : R),
    y = 0%Z \/ y = 1%Z ->
    cov_params self = Some cov ->
    psd n cov ->
    0 < tol -> 0 < tol_underflow ->
    quad_coeffs ext self cov (if Z.eqb y 0 then 1 - alpha else alpha) x delta
    = Ok (a, b, c) ->
    tol_underflow <= a ->
    exists lam,
      solve_lambda ext self alpha x y delta tol tol_underflow = Ok (Some lam).
Proof.
  intros ext self n cov alpha x y delta tol tolu a b c
         Hy Hcov Hpsd Htol Htolu Hq Ha.
  rewrite solve_lambda_unfold by exact Hy.
  set (alpha' := if Z.eqb y 0 then 1 - alpha else alpha) in *.
  unfold solve_lambda_body. rewrite Hcov, Hq. cbn [bind].
  replace (Rltb a tolu) with false by (symmetry; now apply Rltb_false).
  pose proof Hpsd as [Hrect Hform].
  destruct (quad_coeffs_Ok _ _ _ _ _ _ _ _ _ _ Hrect Hq)
    as (Hb & Hx & Hd & Ea & Eb & Ec).
  set (e := erfinv ext (2 * alpha' - 1)) in *.
  assert (Hdd : 0 <= bil_ delta cov delta) by (apply Hform; exact Hd).
  assert (Hall : forall l, 0 <= bil_ x cov x
                             + l * (bil_ x cov delta + bil_ delta cov x)
                             + l * l * bil_ delta cov delta).
  { intros l. rewrite <- bil_along by congruence. apply Hform.
    rewrite length_vadd_; [assumption | rewrite length_vscale; congruence]. }
  assert (HD : 0 <= b * b - 4 * a * c).
  { apply (discriminant_nonneg
             (dot_ x (beta_hat self)) (dot_ delta (beta_hat self))
             (2 * (e * e)) (bil_ x cov x)
             (bil_ x cov delta + bil_ delta cov x) (bil_ delta cov delta));
      try assumption; nra. }
  set (D := b * b - 4 * a * c) in *.
  destruct HD as [HD | HD].
  - (* two roots *)
    replace (Rleb D 0) with false by (symmetry; apply Rleb_false; lra).
    rewrite andb_false_r.
    replace (Rltb D 0) with false by (symmetry; apply Rltb_false; lra).
    unfold Rgtb. replace (Rltb 0 D) with true by (symmetry; apply Rltb_true; lra).
    cbn [select_root].
    rewrite !(residual_value ext self n) by assumption. cbn [bind]. fold e.
    destruct (one_root_is_genuine
                (dot_ x (beta_hat self)) (dot_ delta (beta_hat self)) e
                (bil_ x cov x) (bil_ x cov delta + bil_ delta cov x)
                (bil_ delta cov delta) a b c) as [H1 | H2];
      try assumption; try lra.
    + fold D in H1. rewrite H1, Rabs_R0.
      replace (Rltb 0 tol) with true by (symmetry; now apply Rltb_true).
      eauto.
    + fold D in H2. destruct (Rltb _ tol); [eauto|].
      rewrite H2, Rabs_R0.
      replace (Rltb 0 tol) with true by (symmetry; now apply Rltb_true).
      eauto.
  - (* the repeated root *)
    rewrite <- HD, Rabs_R0.
    replace (Rltb 0 tol) with true by (symmetry; now apply Rltb_true).
    replace (Rleb 0 0) with true by (symmetry; apply Rleb_true; lra).
    cbn [andb]. eauto.
Qed.

(** ** The constructor *)

Lemma drop_label_absent (l : string) (s : list (string * R)) :
  has_label l s = false -> drop_label l s = map snd s.
Proof.
  unfold has_label, drop_label. induction s as [|p s IH]; simpl; intros H.
  - reflexivity.
  - apply orb_false_iff in H as [Hp Hs]. rewrite Hp. simpl. now rewrite IH.
Qed.

Lemma has_label_In (l : string) (s : list (string * R)) :
  has_label l s = true -> In l (map fst s).
Proof.
  unfold has_label. intros H. apply existsb_exists in H as (p & Hp & E).
  apply String.eqb_eq in E. subst l. now apply in_map.
Qed.

Lemma where_label_split (l : string) (s : list (string * R)) :
  NoDup (map fst s) -> has_label l s = true ->
  exists b0,
    (where_label l s <= length (drop_label l s))%nat
    /\ map snd s = firstn (where_label l s) (drop_label l s)
                   ++ b0 :: skipn (where_label l s) (drop_label l s).
Proof.
  induction s as [|p s IH]; simpl; intros Hnd H; [discriminate|].
  inversion Hnd as [|? ? Hnotin Hnd']; subst.
  unfold drop_label. simpl. destruct (String.eqb l (fst p)) eqn:E; simpl.
  - apply String.eqb_eq in E. subst l. exists (snd p). split; [lia|].
    simpl. f_equal. symmetry. apply drop_label_absent.
    destruct (has_label (fst p) s) eqn:Hl; [|reflexivity].
    apply has_label_In in Hl. contradiction.
  - simpl in H. destruct (IH Hnd' H) as (b0 & Hle & Hs). exists b0.
    fold (drop_label l s). split; [lia|]. now rewrite Hs at 1.
Qed.

(** [__init__] establishes the intercept convention, and computing the
    covariance keeps it. *)
Lemma init_aligned (mdl : fitted_model) (X_train : option matrix)
    (lower upper : R) (self : AdversarialLogistic) :
  distinct_labels mdl ->
  init mdl X_train lower upper = Ok self -> aligned self.
Proof.
  intros Hd H. destruct mdl as [m|m|s]; simpl in H; [| |discriminate].
  - destruct (fit_intercept m); injection H as <-; unfold aligned; simpl.
    + exists O, (intercept_ m). split; [reflexivity|]. split; [lia|reflexivity].
    + reflexivity.
  - apply bind_Ok in H as (u & _ & H).
    destruct (has_label "const" (params m)) eqn:E; simpl in H;
      injection H as <-; unfold aligned; simpl; [|reflexivity].
    destruct (where_label_split "const" (params m) Hd E) as (b0 & Hle & Hs).
    exists (where_label "const" (params m)), b0. auto.
Qed.

Lemma init_intercept_index (mdl : fitted_model) (X_train : option matrix)
    (lower upper : R) (self : AdversarialLogistic) :
  init mdl X_train lower upper = Ok self ->
  model_has_intercept self = true -> X_has_constant self = false ->
  idx_beta0 self = Some O.
Proof.
  intros H. destruct mdl as [m|m|s]; simpl in H; [| |discriminate].
  - destruct (fit_intercept m); injection H as <-; simpl; auto; discriminate.
  - apply bind_Ok in H as (u & _ & H).
    destruct (has_label "const" (params m)); simpl in H; injection H as <-;
      simpl; intros; discriminate.
Qed.

(** ** The projection of a degenerate model *)

(** C6, as the code has it: the projection tests nothing before it divides
    by the squared norm.  When the non-intercept coefficients are all zero
    the divisor is zero, no exception is raised and a vector of the length
    of [x] is returned. *)
Theorem projection_divides_unguarded :
  forall (self : AdversarialLogistic) (x : vec) (overshoot : R),
    aligned self ->
    length x = length (beta_hat self) ->
    Forall (fun c => c = 0) (beta_hat_minus0 self) ->
    sum_sq (beta_hat_minus0 self) = 0
    /\ exists delta,
         compute_orthogonal_projection self x overshoot = Ok delta
         /\ length delta = length x.
Proof.
  intros self x o Hal Hx Hz. split.
  { induction Hz as [|c v Hc Hz IH]; simpl; [reflexivity|].
    rewrite IH, Hc. ring. }
  unfold compute_orthogonal_projection. rewrite dot_eq by exact Hx. simpl.
  unfold aligned in Hal. destruct (model_has_intercept self).
  - destruct Hal as (i & b0 & Hi & Hle & Hb). rewrite Hi. unfold np_insert.
    rewrite !length_vscale.
    replace (Nat.leb i _) with true by (symmetry; now apply Nat.leb_le).
    eexists; split; [reflexivity|].
    rewrite Hx, Hb, !length_app. simpl.
    rewrite !length_firstn, !length_skipn, !length_vscale. reflexivity.
  - eexists; split; [reflexivity|]. rewrite Hx, Hal, !length_vscale. reflexivity.
Qed.

(** ** The covariance of a statsmodels model *)

Lemma init_statsmodels_fields (m : StatsmodelsGLM) (X_train : option matrix)
    (lower upper : R) (self : AdversarialLogistic) :
  init (Statsmodels m) X_train lower upper = Ok self ->
  module_ self = "statsmodels" /\ model self = Statsmodels m.
Proof.
  simpl. intros H. apply bind_Ok in H as (u & _ & H).
  destruct (negb _); injection H as <-; auto.
Qed.

(** C7, as the code has it: the estimator tests no dimension.  For a
    statsmodels model that reports its covariance, that matrix is taken
    whatever design matrix is passed, if any. *)
Theorem compute_covariance_checks_no_dimension :
  forall (ext : Externals) (m : StatsmodelsGLM) (cov : matrix)
         (X_init : option matrix) (lower upper : R)
         (self : AdversarialLogistic) (X_train : option matrix),
    init (Statsmodels m) X_init lower upper = Ok self ->
    normalized_cov_params m = Some cov ->
    compute_covariance ext self X_train = Ok (set_cov_params self cov).
Proof.
  intros ext m cov X_init lower upper self X_train Hinit Hcov.
  destruct (init_statsmodels_fields _ _ _ _ _ Hinit) as [Hmod Hm].
  unfold compute_covariance. rewrite Hmod, Hm, Hcov. reflexivity.
Qed.

(** For an sklearn model without regularization, an exception raised by
    [predict_proba] on the design matrix is the one the estimator raises. *)
Lemma compute_covariance_sklearn_propagates :
  forall (ext : Externals) (m : SklearnLogit) (X_init : option matrix)
         (lower upper : R) (self : AdversarialLogistic) (X : matrix) (e : exn),
    init (Sklearn m) X_init lower upper = Ok self ->
    10000000000 <= C_param m ->
    predict_proba_pos m (Some X) = Raise e ->
    compute_covariance ext self (Some X) = Raise e.
Proof.
  intros ext m X_init lower upper self X e Hinit HC Hp. simpl in Hinit.
  unfold compute_covariance.
  destruct (fit_intercept m); injection Hinit as <-; simpl;
    unfold Rgeb;
    (replace (Rleb 10000000000 (C_param m)) with true
      by (symmetry; now apply Rleb_true));
    rewrite Hp; reflexivity.
Qed.

(** Computing the covariance assigns [cov_params] and nothing else, so the
    intercept convention is kept. *)
Lemma compute_covariance_Ok (ext : Externals) (self self' : AdversarialLogistic)
    (X_train : option matrix) :
  compute_covariance ext self X_train = Ok self' ->
  exists cov, self' = set_cov_params self cov.
Proof.
  unfold compute_covariance. intros H.
  destruct (String.eqb (module_ self) "statsmodels").
  - destruct (model self) as [m|m|s]; try discriminate.
    destruct (normalized_cov_params m) as [cov|]; [|discriminate].
    injection H as <-. eauto.
  - destruct (String.eqb (module_ self) "sklearn"); [|discriminate].
    destruct (model self) as [m|m|s]; try discriminate.
    destruct (Rgeb (C_param m) 10000000000).
    + destruct (add_constant_X ext self X_train) as [X|]; [|discriminate].
      apply bind_Ok in H as (yhat & _ & H).
      apply bind_Ok in H as (XWX & _ & H).
      apply bind_Ok in H as (cov & _ & H).
      injection H as <-. eauto.
    + destruct (String.eqb (penalty m) "l2"); [|discriminate].
      destruct (add_constant_X ext self X_train) as [X|]; [|discriminate].
      apply bind_Ok in H as (yhat & _ & H).
      apply bind_Ok in H as (XWX & _ & H).
      apply bind_Ok in H as (reg & _ & H).
      apply bind_Ok in H as (inv & _ & H).
      apply bind_Ok in H as (t & _ & H).
      apply bind_Ok in H as (cov & _ & H).
      injection H as <-. eauto.
Qed.

Lemma compute_covariance_aligned (ext : Externals)
    (self self' : AdversarialLogistic) (X_train : option matrix) :
  aligned self ->
  compute_covariance ext self X_train = Ok self' -> aligned self'.
Proof.
  intros Hal H. apply compute_covariance_Ok in H as (cov & ->). exact Hal.
Qed.

(** * Further properties *)

(** ** The projection: overshoot and minimal norm *)

Lemma sum_sq_app (u v : vec) : sum_sq (u ++ v) = sum_sq u + sum_sq v.
Proof. induction u as [|a u IH]; simpl; [ring | rewrite IH; ring]. Qed.

Lemma sum_sq_vscale (c : R) (v : vec) :
  sum_sq (vscale c v) = c * c * sum_sq v.
Proof. induction v as [|a v IH]; simpl; [ring | rewrite IH; ring]. Qed.

(** The inequality of Cauchy and Schwarz. *)
Lemma dot_sq_le (u v : vec) :
  dot_ u v * dot_ u v <= sum_sq u * sum_sq v.
Proof.
  revert v; induction u as [|a u IH]; intros [|b v]; simpl.
  - lra.
  - pose proof (sum_sq_nonneg v). nra.
  - pose proof (sum_sq_nonneg u). nra.
  - specialize (IH v). pose proof (sum_sq_nonneg u) as HU.
    pose proof (sum_sq_nonneg v) as HV.
    set (p := dot_ u v) in *. set (U := sum_sq u) in *. set (V := sum_sq v) in *.
    clearbody p U V.
    assert (HaV : 0 <= a * a * V) by (apply Rmult_le_pos; [nra | exact HV]).
    assert (HbU : 0 <= b * b * U) by (apply Rmult_le_pos; [nra | exact HU]).
    assert (H : 2 * (a * b) * p <= a * a * V + b * b * U).
    { destruct (Rle_or_lt (2 * (a * b) * p) 0) as [Hn|Hp]; [lra|].
      assert (Hsq : (2 * (a * b) * p) * (2 * (a * b) * p)
                    <= (a * a * V + b * b * U) * (a * a * V + b * b * U)).
      { pose proof (Rle_0_sqr (a * a * V - b * b * U)) as Hs1.
        pose proof (Rle_0_sqr (a * b)) as Hs2. unfold Rsqr in Hs1, Hs2.
        assert (0 <= a * a * (b * b)) by lra.
        assert (a * a * (b * b) * (p * p) <= a * a * (b * b) * (U * V))
          by (apply Rmult_le_compat_l; assumption).
        nra. }
      nra. }
    nra.
Qed.

(** X3: for a well-formed instance with a non-zero non-intercept part, the
    projection computed with any [overshoot] moves the score [x.beta_hat]
    to [- overshoot] times itself: with a positive overshoot, [x + delta]
    is strictly on the other side of the hyperplane. *)
Theorem projection_overshoots :
  forall (self : AdversarialLogistic) (x : vec) (overshoot : R),
    aligned self ->
    (exists c, In c (beta_hat_minus0 self) /\ c <> 0) ->
    length x = length (beta_hat self) ->
    exists delta x_adv,
      compute_orthogonal_projection self x overshoot = Ok delta
      /\ vadd x delta = Ok x_adv
      /\ dot x_adv (beta_hat self) = Ok (- overshoot * dot_ x (beta_hat self)).
Proof.
  intros self x o Hal (c & Hin & Hc) Hx.
  pose proof (sum_sq_pos _ _ Hin Hc) as Hpos.
  destruct (projection_score self x o Hal) as (delta & Hp & Hl & Hd & _);
    [lra | assumption |].
  exists delta, (vadd_ x delta). split; [exact Hp|].
  split; [apply vadd_eq; congruence|].
  rewrite dot_eq by (rewrite length_vadd_; congruence).
  rewrite dot_vadd_l by congruence. rewrite Hd. f_equal. ring.
Qed.

(** A perturbation that leaves the intercept coordinate alone, seen in the
    space of the non-intercept coefficients. *)
Lemma dot_insert_zero (i : nat) (m0 d : vec) (b0 : R) :
  (i <= length m0)%nat ->
  length d = S (length m0) ->
  nth_error d i = Some 0 ->
  exists d',
    dot_ d (firstn i m0 ++ b0 :: skipn i m0) = dot_ d' m0
    /\ sum_sq d = sum_sq d'.
Proof.
  intros Hi Hl Hn.
  exists (firstn i d ++ skipn (S i) d).
  assert (Hd : d = firstn i d ++ 0 :: skipn (S i) d).
  { rewrite <- (firstn_skipn i d) at 1. f_equal.
    destruct (skipn i d) as [|z t] eqn:E.
    - assert (length (skipn i d) = 0%nat) by (rewrite E; reflexivity).
      rewrite length_skipn in H. lia.
    - assert (Hz : nth_error d i = Some z).
      { rewrite <- (firstn_skipn i d), E.
        rewrite nth_error_app2 by (rewrite length_firstn; lia).
        rewrite length_firstn.
        replace (i - Nat.min i (length d))%nat with O by lia. reflexivity. }
      rewrite Hn in Hz. injection Hz as <-. f_equal.
      replace (S i) with (1 + i)%nat by lia.
      rewrite <- skipn_skipn, E. reflexivity. }
  split.
  - rewrite Hd at 1.
    rewrite dot_app by (rewrite !length_firstn; lia). simpl.
    rewrite <- (firstn_skipn i m0) at 3.
    rewrite dot_app by (rewrite !length_firstn; lia). ring.
  - rewrite Hd at 1. rewrite !sum_sq_app. simpl. ring.
Qed.

(** X4: the projection computed with [overshoot = 0] is the smallest
    perturbation, in L2 norm, among those that leave the intercept
    coordinate alone and put [x] on the hyperplane. *)
Theorem projection_minimal_norm :
  forall (self : AdversarialLogistic) (x delta d : vec),
    aligned self ->
    (exists c, In c (beta_hat_minus0 self) /\ c <> 0) ->
    length x = length (beta_hat self) ->
    compute_orthogonal_projection self x 0 = Ok delta ->
    length d = length x ->
    (model_has_intercept self = true ->
     forall i, idx_beta0 self = Some i -> nth_error d i = Some 0) ->
    dot_ (vadd_ x d) (beta_hat self) = 0 ->
    sum_sq delta <= sum_sq d.
Proof.
  intros self x delta d Hal (c & Hin & Hc) Hx Hp Hld Hzero Hon.
  pose proof (sum_sq_pos _ _ Hin Hc) as Hpos.
  rewrite dot_vadd_l in Hon by congruence.
  set (xb := dot_ x (beta_hat self)) in *.
  set (m0 := beta_hat_minus0 self) in *.
  assert (Hkey : exists d' delta',
             dot_ d (beta_hat self) = dot_ d' m0 /\ sum_sq d = sum_sq d'
             /\ sum_sq delta = sum_sq delta'
             /\ delta' = vscale (1 + 0) (vscale (- (xb / sum_sq m0)) m0)).
  { unfold compute_orthogonal_projection in Hp.
    rewrite dot_eq in Hp by assumption. simpl in Hp. fold xb m0 in Hp.
    unfold aligned in Hal. fold m0 in Hal.
    destruct (model_has_intercept self).
    - destruct Hal as (i & b0 & Hi & Hle & Hb). rewrite Hi in Hp.
      unfold np_insert in Hp. rewrite !length_vscale in Hp.
      replace (Nat.leb i (length m0)) with true in Hp
        by (symmetry; now apply Nat.leb_le).
      injection Hp as <-.
      destruct (dot_insert_zero i m0 d b0 Hle) as (d' & Hd1 & Hd2).
      + rewrite Hld, Hx, Hb, length_app. simpl.
        rewrite length_firstn, length_skipn. lia.
      + apply Hzero; [reflexivity | exact Hi].
      + exists d'. eexists. rewrite Hb. split; [exact Hd1|].
        split; [exact Hd2|]. split; [|reflexivity].
        rewrite sum_sq_app. simpl.
        rewrite <- (firstn_skipn i (vscale (1 + 0) _)) at 3.
        rewrite sum_sq_app. ring.
    - injection Hp as <-. exists d. eexists. rewrite Hal.
      split; [reflexivity|]. split; [reflexivity|]. split; reflexivity. }
  destruct Hkey as (d' & delta' & Hd1 & Hd2 & Hs & ->).
  rewrite Hs, Hd2, !sum_sq_vscale.
  pose proof (dot_sq_le d' m0) as Hcs. rewrite <- Hd1 in Hcs.
  assert (Hxb : dot_ d (beta_hat self) = - xb) by lra.
  rewrite Hxb in Hcs.
  replace ((1 + 0) * (1 + 0) * (- (xb / sum_sq m0) * - (xb / sum_sq m0) * sum_sq m0))
    with (xb * xb / sum_sq m0) by (field; lra).
  apply (Rmult_le_reg_r (sum_sq m0)); [exact Hpos|].
  replace (xb * xb / sum_sq m0 * sum_sq m0) with (xb * xb) by (field; lra).
  lra.
Qed.

(** ** The self-check of the orchestrator *)

(** The score of [x_adv_0], as [prepare] computes it. *)
Lemma prepare_scores (self : AdversarialLogistic) (xa : vec) :
  aligned self ->
  (exists c, In c (beta_hat_minus0 self) /\ c <> 0) ->
  length xa = length (beta_hat self) ->
  exists delta,
    compute_orthogonal_projection self xa (1 / 1000000) = Ok delta
    /\ length delta = length xa
    /\ vadd xa delta = Ok (vadd_ xa delta)
    /\ dot (vadd_ xa delta) (beta_hat self)
       = Ok (- (1 / 1000000) * dot_ xa (beta_hat self)).
Proof.
  intros Hal (c & Hin & Hc) Hx.
  pose proof (sum_sq_pos _ _ Hin Hc) as Hpos.
  destruct (projection_score self xa (1 / 1000000) Hal)
    as (delta & Hp & Hl & Hd & _); [lra | assumption |].
  exists delta. split; [exact Hp|]. split; [exact Hl|].
  split; [apply vadd_eq; congruence|].
  rewrite dot_eq by (rewrite length_vadd_; congruence).
  rewrite dot_vadd_l by congruence. rewrite Hd. f_equal. ring.
Qed.

(** X5: an example that lies exactly on the decision hyperplane never
    passes the self-check of [x_adv_0]: whatever its label, the call raises
    an assertion error. *)
Theorem boundary_example_fails_self_check :
  forall (ext : Externals) (self : AdversarialLogistic) (cov : matrix)
         (x : vec) (y : Z) (alpha : pyval) (out_bounds : string)
         (tol tol_underflow : R),
    cov_params self = Some cov ->
    y = 0%Z \/ y = 1%Z ->
    aligned self ->
    (exists c, In c (beta_hat_minus0 self) /\ c <> 0) ->
    length (add_constant_x self x) = length (beta_hat self) ->
    dot_ (add_constant_x self x) (beta_hat self) = 0 ->
    compute_adversarial_perturbation ext self x y alpha out_bounds
                                     tol tol_underflow
    = Raise AssertionError.
Proof.
  intros ext self cov x y alpha ob tol tolu Hcov Hy Hal Hnz Hx Hzero.
  destruct (prepare_scores self _ Hal Hnz Hx) as (delta & Hp & Hl & Ha & Hs).
  unfold compute_adversarial_perturbation, prepare.
  rewrite Hcov.
  replace (py_assert (Z.eqb y 0 || Z.eqb y 1)) with (Ok tt)
    by (destruct Hy as [-> | ->]; reflexivity).
  cbn [bind]. rewrite dot_eq by exact Hx. cbn [bind].
  rewrite Hp. cbn [bind]. rewrite Ha. cbn [bind]. rewrite Hs. cbn [bind].
  rewrite Hzero. replace (- (1 / 1000000) * 0) with 0 by ring.
  unfold pred_ne, pred_eq, Rgtb.
  replace (Rltb 0 0) with false by (symmetry; apply Rltb_false; lra).
  destruct Hy as [-> | ->]; reflexivity.
Qed.

(** X6: off the hyperplane the self-check always passes: for a well-formed
    instance with its covariance, a valid label, an example of the right
    length and a valid bounds mode, the steps before the levels succeed. *)
Theorem self_check_passes_off_boundary :
  forall (self : AdversarialLogistic) (cov : matrix) (x : vec) (y : Z)
         (out_bounds : string),
    cov_params self = Some cov ->
    y = 0%Z \/ y = 1%Z ->
    aligned self ->
    (exists c, In c (beta_hat_minus0 self) /\ c <> 0) ->
    length (add_constant_x self x) = length (beta_hat self) ->
    dot_ (add_constant_x self x) (beta_hat self) <> 0 ->
    out_bounds = "clipping" \/ out_bounds = "missing" \/ out_bounds = "nothing" ->
    exists delta x_adv_0,
      prepare self x y out_bounds = Ok (add_constant_x self x, delta, x_adv_0)
      /\ check_bounds self (vadd_ (add_constant_x self x) delta) out_bounds
         = Ok x_adv_0.
Proof.
  intros self cov x y ob Hcov Hy Hal Hnz Hx Hne Hob.
  destruct (prepare_scores self _ Hal Hnz Hx) as (delta & Hp & Hl & Ha & Hs).
  set (xa := add_constant_x self x) in *.
  assert (Hchk : exists r, check_bounds self (vadd_ xa delta) ob = Ok r).
  { destruct Hob as [-> | [-> | ->]].
    - rewrite check_bounds_clipping. eauto.
    - rewrite check_bounds_missing. eauto.
    - rewrite check_bounds_nothing. eauto. }
  destruct Hchk as (r & Hchk). exists delta, r. split; [|exact Hchk].
  unfold prepare. fold xa. rewrite Hcov.
  replace (py_assert (Z.eqb y 0 || Z.eqb y 1)) with (Ok tt)
    by (destruct Hy as [-> | ->]; reflexivity).
  cbn [bind]. rewrite dot_eq by exact Hx. cbn [bind].
  rewrite Hp. cbn [bind]. rewrite Ha. cbn [bind]. rewrite Hs. cbn [bind].
  set (xb := dot_ xa (beta_hat self)) in *.
  replace (py_assert _) with (Ok tt).
  - cbn [bind]. rewrite Hchk. reflexivity.
  - unfold pred_ne, pred_eq, Rgtb.
    destruct (Rtotal_order xb 0) as [Hneg | [Hz | Hpos]]; [|contradiction|].
    + replace (Rltb 0 xb) with false by (symmetry; apply Rltb_false; lra).
      replace (Rltb 0 (- (1 / 1000000) * xb)) with true
        by (symmetry; apply Rltb_true; lra).
      destruct Hy as [-> | ->]; reflexivity.
    + replace (Rltb 0 xb) with true by (symmetry; apply Rltb_true; lra).
      replace (Rltb 0 (- (1 / 1000000) * xb)) with false
        by (symmetry; apply Rltb_false; lra).
      destruct Hy as [-> | ->]; reflexivity.
Qed.

(** ** The bounds check *)

Lemma clip_within (lower upper c : R) :
  lower <= upper -> lower <= clip lower upper c <= upper.
Proof.
  intros H. unfold clip, Rgtb, Rltb. case_cmp; lra.
Qed.

(** X7: under ['clipping'] with bounds in order, the vector returned has the
    length of the argument and every coordinate inside the bounds. *)
Theorem clipping_lands_within_bounds :
  forall (self : AdversarialLogistic) (x_adv : vec),
    lower_bound self <= upper_bound self ->
    exists clipped,
      check_bounds self x_adv "clipping" = Ok (Some clipped)
      /\ length clipped = length x_adv
      /\ forall c, In c clipped ->
           lower_bound self <= c <= upper_bound self.
Proof.
  intros self x_adv Hb. eexists. split; [apply check_bounds_clipping|].
  split; [apply length_map|].
  intros c Hc. apply in_map_iff in Hc as (c0 & <- & _).
  apply clip_within. exact Hb.
Qed.

(** X8: under ['missing'] the check returns [None] exactly when a
    coordinate is outside the bounds, and the argument itself otherwise. *)
Theorem missing_discards_exactly_outside :
  forall (self : AdversarialLogistic) (x_adv : vec),
    ((exists c, In c x_adv /\ (c < lower_bound self \/ upper_bound self < c)) ->
     check_bounds self x_adv "missing" = Ok None)
    /\ ((forall c, In c x_adv -> lower_bound self <= c <= upper_bound self) ->
        check_bounds self x_adv "missing" = Ok (Some x_adv)).
Proof.
  intros self x_adv. rewrite check_bounds_missing. split.
  - intros (c & Hin & Hout).
    replace (_ || _)%bool with true; [reflexivity|].
    symmetry. apply orb_true_iff. destruct Hout as [H|H].
    + left. apply existsb_exists. exists c. split; [exact Hin|].
      apply Rltb_true. exact H.
    + right. apply existsb_exists. exists c. split; [exact Hin|].
      apply Rltb_true. exact H.
  - intros Hall.
    replace (_ || _)%bool with false; [reflexivity|].
    symmetry. apply orb_false_iff. split; apply not_true_is_false; intros E;
      apply existsb_exists in E as (c & Hc & E); apply Rltb_true in E;
      specialize (Hall c Hc); lra.
Qed.

(** X9: the bounds check is idempotent: applied to a vector it returned, in
    the same mode, it returns that vector. *)
Theorem check_bounds_idempotent :
  forall (self : AdversarialLogistic) (x_adv checked : vec)
         (out_bounds : string),
    check_bounds self x_adv out_bounds = Ok (Some checked) ->
    check_bounds self checked out_bounds = Ok (Some checked).
Proof.
  intros self x_adv checked ob H.
  exact (check_bounds_again self x_adv ob (Some checked) H).
Qed.

(** ** The probability estimate *)

(** X10: with a positive semi-definite covariance and an example of the
    length of the coefficient vector, the estimate is defined: it is
    [norm.cdf(0, mu, sqrt(sigma))] for the label 0, one minus that for the
    label 1, with [mu = x.beta_hat] and [sigma] the form of the covariance
    at [x]. *)
Theorem probability_is_gaussian_tail :
  forall (ext : Externals) (self : AdversarialLogistic) (n : nat)
         (cov : matrix) (x : vec) (y : Z),
    cov_params self = Some cov ->
    psd n cov ->
    length (beta_hat self) = n -> length x = n ->
    y = 0%Z \/ y = 1%Z ->
    let p0 := norm_cdf ext 0 (dot_ x (beta_hat self)) (sqrt (bil_ x cov x)) in
    compute_probability_predx_equals_y ext self x y
    = Ok (if Z.eqb y 0 then p0 else 1 - p0).
Proof.
  intros ext self n cov x y Hcov [Hrect Hpsd] Hb Hx Hy p0.
  unfold compute_probability_predx_equals_y. rewrite Hcov.
  replace (py_assert (Z.eqb y 0 || Z.eqb y 1)) with (Ok tt)
    by (destruct Hy as [-> | ->]; reflexivity).
  cbn [bind]. rewrite dot_eq by congruence. cbn [bind].
  rewrite (quad_form_eq n) by assumption. cbn [bind].
  unfold math_sqrt.
  replace (Rltb (bil_ x cov x) 0) with false
    by (symmetry; apply Rltb_false; apply Hpsd; exact Hx).
  cbn [bind]. destruct (Z.eqb y 0); reflexivity.
Qed.

(** ** The shape of the value returned *)

Lemma level_step_alpha (ext : Externals) (self : AdversarialLogistic) (y : Z)
    (out_bounds : string) (tol tol_underflow : R) (delta : vec)
    (xa0 : option vec) (p : R) (x : vec) (a : R)
    (d : result_dict) (x' : vec) :
  level_step ext self y out_bounds tol tol_underflow delta xa0 p x a
  = Ok (d, x') ->
  alpha_ d = a /\ x_adv_0 d = xa0.
Proof.
  intros H. destruct (Rge_dec (1 - p) a) as [Hge|Hlt].
  - rewrite level_step_zero in H by exact Hge.
    apply bind_Ok in H as (checked & _ & H). injection H as <- <-. auto.
  - apply level_step_solve in H as (_ & _ & Ha & H0 & _); [auto | lra].
Qed.

Lemma levels_loop_list (ext : Externals) (self : AdversarialLogistic) (y : Z)
    (out_bounds : string) (tol tol_underflow : R) (delta : vec)
    (xa0 : option vec) (p : R) (n : nat) :
  n <> 1%nat ->
  forall (alphas : list R) (x : vec) (results : list result_dict)
         (res : perturbation),
    levels_loop ext self y out_bounds tol tol_underflow delta xa0 p n
                x results alphas = Ok res ->
    exists ds, res = ListOfDicts (results ++ ds) /\ map alpha_ ds = alphas.
Proof.
  intros Hn alphas. induction alphas as [|a rest IH];
    intros x results res H; simpl in H.
  - injection H as <-. exists []. rewrite app_nil_r. auto.
  - apply bind_Ok in H as ([d x'] & Hs & H).
    apply level_step_alpha in Hs as [Ha _].
    replace (Nat.eqb n 1) with false in H
      by (symmetry; now apply Nat.eqb_neq).
    apply IH in H as (ds & -> & Hds). exists (d :: ds).
    rewrite <- app_assoc. simpl. split; [reflexivity|]. now rewrite Ha, Hds.
Qed.

(** X11: the call returns one dict per requested level, in the order of the
    levels: a single dict when exactly one level is requested, also when it
    comes as a list of one element, and a list of dicts otherwise. *)
Theorem one_dict_per_level :
  forall (ext : Externals) (self : AdversarialLogistic) (x : vec) (y : Z)
         (alpha : pyval) (out_bounds : string) (tol tol_underflow : R)
         (res : perturbation),
    compute_adversarial_perturbation ext self x y alpha out_bounds
                                     tol tol_underflow = Ok res ->
    exists alphas,
      alphas_of alpha = Ok alphas
      /\ map alpha_ (dicts_of res) = alphas
      /\ match res with
         | OneDict _ => length alphas = 1%nat
         | ListOfDicts _ => length alphas <> 1%nat
         end.
Proof.
  intros ext self x y alpha ob tol tolu res H.
  unfold compute_adversarial_perturbation in H.
  apply bind_Ok in H as ([[xa delta] xa0] & _ & H).
  apply bind_Ok in H as (alphas & Hal & H).
  apply bind_Ok in H as (p & _ & H).
  exists alphas. split; [exact Hal|].
  destruct (Nat.eq_dec (length alphas) 1) as [H1|H1].
  - destruct alphas as [|a [|a' rest]]; try discriminate.
    simpl in H. apply bind_Ok in H as ([d x'] & Hs & H).
    injection H as <-. apply level_step_alpha in Hs as [Ha _].
    simpl. rewrite Ha. auto.
  - apply levels_loop_list in H as (ds & -> & Hds); [|exact H1].
    simpl. auto.
Qed.

(** ** The level reached *)

Lemma vadd_vscale_zero (x delta : vec) :
  length x = length delta -> vadd_ x (vscale 0 delta) = x.
Proof.
  revert delta; induction x as [|a x IH]; intros [|b delta] H; simpl in *;
    try reflexivity; try discriminate.
  rewrite IH by congruence. f_equal. ring.
Qed.

(** The second branch of the loop body, with what its assertions checked. *)
Lemma level_step_solve_checked (ext : Externals) (self : AdversarialLogistic)
    (y : Z) (out_bounds : string) (tol tol_underflow : R) (delta : vec)
    (xa0 : option vec) (p : R) (x : vec) (a : R)
    (d : result_dict) (x' : vec) :
  1 - p < a ->
  level_step ext self y out_bounds tol tol_underflow delta xa0 p x a
  = Ok (d, x') ->
  exists p',
    compute_probability_predx_equals_y
      ext self (vadd_ x (vscale (lambda_star d) delta)) y = Ok p'
    /\ 1 - p' + tol >= a
    /\ check_bounds self (vadd_ x (vscale (lambda_star d) delta)) out_bounds
       = Ok (x_adv_star d).
Proof.
  intros Hlt H. unfold level_step, Rgeb in H.
  replace (Rleb a (1 - p)) with false in H by (symmetry; apply Rleb_false; lra).
  apply bind_Ok in H as ([lam|] & Hsol & H); [|discriminate].
  apply bind_Ok in H as (x_adv & Hadd & H).
  apply bind_Ok in H as (u1 & _ & H).
  apply bind_Ok in H as (p' & Hp' & H).
  apply bind_Ok in H as (u2 & Hassert & H).
  apply bind_Ok in H as (checked & Hchk & H).
  injection H as <- <-. simpl.
  apply vadd_Ok in Hadd as [_ ->].
  apply py_assert_Ok in Hassert. apply Rleb_true in Hassert.
  exists p'. split; [exact Hp'|]. split; [lra | exact Hchk].
Qed.

(** X12: under ['nothing'], with a tolerance that is not negative, every
    dict returned holds [x_adv_star = x + lambda_star * delta] for the
    aligned [x] and the projection [delta], and the estimated probability
    that this example is misclassified is at least the level of the dict,
    up to [tol]. *)
Theorem returned_levels_are_reached :
  forall (ext : Externals) (self : AdversarialLogistic) (x : vec) (y : Z)
         (alpha : pyval) (tol tol_underflow : R)
         (xa delta : vec) (xa0 : option vec) (res : perturbation),
    0 <= tol ->
    prepare self x y "nothing" = Ok (xa, delta, xa0) ->
    compute_adversarial_perturbation ext self x y alpha "nothing"
                                     tol tol_underflow = Ok res ->
    forall d, In d (dicts_of res) ->
      x_adv_star d = Some (vadd_ xa (vscale (lambda_star d) delta))
      /\ exists p,
           compute_probability_predx_equals_y
             ext self (vadd_ xa (vscale (lambda_star d) delta)) y = Ok p
           /\ 1 - p + tol >= alpha_ d.
Proof.
  intros ext self x y alpha tol tolu xa delta xa0 res Htol Hprep Hres.
  unfold compute_adversarial_perturbation in Hres.
  rewrite Hprep in Hres. cbn [bind] in Hres.
  apply bind_Ok in Hres as (alphas & _ & Hres).
  apply bind_Ok in Hres as (p & Hp & Hres).
  destruct (prepare_Ok _ _ _ _ _ _ _ Hprep) as (_ & _ & _ & _ & v & Hv & _).
  apply vadd_Ok in Hv as [Hlen _].
  apply (proj1 (Forall_forall _ (dicts_of res))).
  eapply (levels_loop_invariant ext self y "nothing" tol tolu delta xa0 p
            (length alphas) (fun x' => x' = xa));
    [ | reflexivity | constructor | exact Hres].
  intros x' a d x'' -> Hstep.
  destruct (Rge_dec (1 - p) a) as [Hge|Hlt].
  - rewrite level_step_zero in Hstep by exact Hge.
    rewrite check_bounds_nothing in Hstep. cbn [bind] in Hstep.
    injection Hstep as <- <-. simpl.
    rewrite vadd_vscale_zero by exact Hlen.
    split; [|reflexivity]. split; [reflexivity|].
    exists p. split; [exact Hp | lra].
  - assert (Hlt' : 1 - p < a) by lra.
    pose proof (level_step_alpha _ _ _ _ _ _ _ _ _ _ _ _ _ Hstep) as [Ha _].
    pose proof (level_step_solve _ _ _ _ _ _ _ _ _ _ _ _ _ Hlt' Hstep)
      as (-> & _).
    destruct (level_step_solve_checked _ _ _ _ _ _ _ _ _ _ _ _ _ Hlt' Hstep)
      as (p' & Hp' & Hge' & Hchk).
    rewrite check_bounds_nothing in Hchk. injection Hchk as Hchk.
    split; [|reflexivity]. split; [now symmetry|].
    exists p'. split; [exact Hp' | now rewrite Ha].
Qed.

(** ** The solver at the level 1/2 *)

Lemma ncols_outer (b : vec) : ncols (outer b b) = length b.
Proof. destruct b; simpl; [reflexivity | now rewrite length_vscale]. Qed.

(** On operands of the right shapes the coefficients are computed. *)
Lemma quad_coeffs_eq (ext : Externals) (self : AdversarialLogistic)
    (n : nat) (cov : matrix) (alpha : R) (x delta : vec) :
  rect n n cov ->
  length (beta_hat self) = n -> length x = n -> length delta = n ->
  let k := 2 * (erfinv ext (2 * alpha - 1) * erfinv ext (2 * alpha - 1)) in
  let u0 := dot_ x (beta_hat self) in
  let m := dot_ delta (beta_hat self) in
  quad_coeffs ext self cov alpha x delta
  = Ok (m * m - k * bil_ delta cov delta,
        2 * u0 * m - k * (bil_ x cov delta + bil_ delta cov x),
        u0 * u0 - k * bil_ x cov x).
Proof.
  intros Hcov Hb Hx Hd k u0 m.
  assert (HA : rect n n (msub_ (outer (beta_hat self) (beta_hat self))
                               (mscale k cov))).
  { apply rect_msub; [|apply rect_mscale; exact Hcov].
    rewrite <- Hb at 1 2. apply rect_outer. }
  assert (Hex : exists a b c,
             quad_coeffs ext self cov alpha x delta = Ok (a, b, c)).
  { unfold quad_coeffs, mat_A, msub. fold k.
    replace (same_shape _ _) with true.
    - cbn [bind]. rewrite !(quad_form_eq n) by assumption. cbn [bind]. eauto.
    - symmetry. unfold same_shape. apply andb_true_iff. split; apply Nat.eqb_eq.
      + unfold nrows, outer, mscale. rewrite !length_map.
        destruct Hcov as [Hl _]. congruence.
      + rewrite ncols_outer, (rect_ncols n) by (apply rect_mscale; exact Hcov).
        exact Hb. }
  destruct Hex as (a & b & c & Hq). rewrite Hq.
  destruct (quad_coeffs_Ok _ _ _ _ _ _ _ _ _ _ Hcov Hq)
    as (_ & _ & _ & -> & -> & ->).
  reflexivity.
Qed.

(** X13: at the level 1/2, where [erfinv] vanishes, the solver returns the
    intensity that puts [x + lambda * delta] exactly on the decision
    hyperplane, whatever the covariance, as soon as the squared score of
    [delta] passes the underflow test. *)
Theorem half_level_is_the_hyperplane :
  forall (ext : Externals) (self : AdversarialLogistic) (n : nat)
         (cov : matrix) (x : vec) (y : Z) (delta : vec)
         (tol tol_underflow : R),
    erfinv ext 0 = 0 ->
    cov_params self = Some cov ->
    rect n n cov ->
    length (beta_hat self) = n -> length x = n -> length delta = n ->
    y = 0%Z \/ y = 1%Z ->
    0 < tol -> 0 < tol_underflow ->
    tol_underflow
    <= dot_ delta (beta_hat self) * dot_ delta (beta_hat self) ->
    exists lam,
      solve_lambda ext self (1 / 2) x y delta tol tol_underflow = Ok (Some lam)
      /\ dot_ (vadd_ x (vscale lam delta)) (beta_hat self) = 0.
Proof.
  intros ext self n cov x y delta tol tolu He Hcov Hrect Hb Hx Hd Hy
         Htol Htolu Hm.
  rewrite solve_lambda_unfold by exact Hy.
  set (alpha' := if Z.eqb y 0 then 1 - 1 / 2 else 1 / 2).
  assert (Harg : 2 * alpha' - 1 = 0)
    by (unfold alpha'; destruct (Z.eqb y 0); lra).
  unfold solve_lambda_body. rewrite Hcov.
  rewrite (quad_coeffs_eq ext self n) by assumption. cbn [bind].
  rewrite Harg, He.
  set (u0 := dot_ x (beta_hat self)) in *.
  set (m := dot_ delta (beta_hat self)) in *.
  replace (m * m - 2 * (0 * 0) * bil_ delta cov delta) with (m * m) by ring.
  replace (2 * u0 * m - 2 * (0 * 0) * (bil_ x cov delta + bil_ delta cov x))
    with (2 * u0 * m) by ring.
  replace (u0 * u0 - 2 * (0 * 0) * bil_ x cov x) with (u0 * u0) by ring.
  replace (2 * u0 * m * (2 * u0 * m) - 4 * (m * m) * (u0 * u0)) with 0 by ring.
  rewrite Rabs_R0.
  replace (Rltb (m * m) tolu) with false by (symmetry; now apply Rltb_false).
  replace (Rltb 0 tol) with true by (symmetry; now apply Rltb_true).
  replace (Rleb 0 0) with true by (symmetry; apply Rleb_true; lra).
  cbn [andb]. eexists. split; [reflexivity|].
  rewrite dot_vadd_l by (rewrite length_vscale; congruence).
  rewrite dot_vscale_l. fold u0 m.
  assert (m <> 0) by (intros E; rewrite E in Hm; lra).
  field. exact H.
Qed.

(** ** The life cycle of an instance *)

Lemma init_no_covariance (mdl : fitted_model) (X_train : option matrix)
    (lower upper : R) (self : AdversarialLogistic) :
  init mdl X_train lower upper = Ok self -> cov_params self = None.
Proof.
  intros H. destruct mdl as [m|m|s]; simpl in H; [| |discriminate].
  - destruct (fit_intercept m); injection H as <-; reflexivity.
  - apply bind_Ok in H as (u & _ & H).
    destruct (negb _); injection H as <-; reflexivity.
Qed.

(** X14: on an instance fresh from [__init__], a perturbation request raises
    the missing-covariance exception whatever its arguments: nothing of the
    request is looked at before [compute_covariance] has been called. *)
Theorem fresh_instance_needs_covariance :
  forall (ext : Externals) (mdl : fitted_model) (X_train : option matrix)
         (lower upper : R) (self : AdversarialLogistic) (x : vec) (y : Z)
         (alpha : pyval) (out_bounds : string) (tol tol_underflow : R),
    init mdl X_train lower upper = Ok self ->
    compute_adversarial_perturbation ext self x y alpha out_bounds
                                     tol tol_underflow
    = Raise (PyException
        "Missing cov_params. Call: self.compute_covariance(X_train, y_train)").
Proof.
  intros ext mdl X_train lower upper self x y alpha ob tol tolu H.
  apply init_no_covariance in H.
  unfold compute_adversarial_perturbation, prepare. rewrite H. reflexivity.
Qed.

(** ** Plotting the results *)

Lemma plot_loop_calls (colors : list string)
    (labels linestyles : option (list string)) :
  forall (args : list perturbation) (i : nat) (calls : list plot_call),
    plot_loop i args colors labels linestyles = Ok calls ->
    length calls = length args
    /\ forall j arg call,
         nth_error args j = Some arg -> nth_error calls j = Some call ->
         exists l,
           arg = ListOfDicts l
           /\ plot_x call = map alpha_ l
           /\ plot_y call = map lambda_star l
           /\ nth_error colors (i + j) = Some (plot_color call).
Proof.
  induction args as [|arg0 rest IH]; intros i calls H; simpl in H.
  - injection H as <-. split; [reflexivity|].
    intros [|j] arg call Ha; discriminate.
  - destruct arg0 as [d|l]; [discriminate|].
    apply bind_Ok in H as (label & _ & H).
    apply bind_Ok in H as (linestyle & _ & H).
    apply bind_Ok in H as (color & Hc & H).
    apply bind_Ok in H as (calls' & Hrest & H).
    injection H as <-. apply IH in Hrest as [Hlen Hcalls].
    split; [simpl; congruence|].
    intros [|j] arg call Ha Hcall; simpl in Ha, Hcall.
    + injection Ha as <-. injection Hcall as <-. exists l. simpl.
      repeat split. rewrite Nat.add_0_r. unfold py_getitem in Hc.
      destruct (nth_error colors i); [injection Hc as <-; reflexivity
                                     | discriminate].
    + destruct (Hcalls j arg call Ha Hcall) as (l' & -> & Hx & Hy & Hcol).
      exists l'. repeat split; try assumption.
      replace (i + S j)%nat with (S i + j)%nat by lia. exact Hcol.
Qed.

(** X15: when the plot succeeds it draws one curve per argument, in order:
    curve [i] has the levels of the dicts of argument [i] as abscissas,
    their [lambda_star] as ordinates, and the colour [colors[i]]. *)
Theorem one_curve_per_argument :
  forall (args : list perturbation) (colors : list string)
         (labels linestyles : option (list string)) (calls : list plot_call),
    plot_intensity_vs_level args colors labels linestyles = Ok calls ->
    length calls = length args
    /\ forall i arg call,
         nth_error args i = Some arg -> nth_error calls i = Some call ->
         exists l,
           arg = ListOfDicts l
           /\ plot_x call = map alpha_ l
           /\ plot_y call = map lambda_star l
           /\ nth_error colors i = Some (plot_color call).
Proof.
  intros args colors labels linestyles calls H.
  exact (plot_loop_calls colors labels linestyles args 0 calls H).
Qed.

(** X16: the value returned for exactly one level, given as a float or as a
    list of one element, cannot be plotted as it is: it is a dict, and the
    plot asserts that each argument is a list. *)
Theorem single_level_result_is_not_plottable :
  forall (ext : Externals) (self : AdversarialLogistic) (x : vec) (y : Z)
         (alpha : pyval) (a : R) (out_bounds : string) (tol tol_underflow : R)
         (res : perturbation) (others : list perturbation)
         (colors : list string) (labels linestyles : option (list string)),
    alphas_of alpha = Ok [a] ->
    compute_adversarial_perturbation ext self x y alpha out_bounds
                                     tol tol_underflow = Ok res ->
    plot_intensity_vs_level (res :: others) colors labels linestyles
    = Raise AssertionError.
Proof.
  intros ext self x y alpha a ob tol tolu res others colors labels ls Hal H.
  unfold compute_adversarial_perturbation in H.
  apply bind_Ok in H as ([[xa delta] xa0] & _ & H).
  rewrite Hal in H. cbn [bind] in H.
  apply bind_Ok in H as (p & _ & H). simpl in H.
  apply bind_Ok in H as ([d x'] & _ & H). injection H as <-.
  reflexivity.
Qed.

(** ** The outcomes of a request *)

Lemma probability_defined (ext : Externals) (self : AdversarialLogistic)
    (n : nat) (cov : matrix) (x : vec) (y : Z) :
  cov_params self = Some cov -> psd n cov ->
  length (beta_hat self) = n -> length x = n ->
  y = 0%Z \/ y = 1%Z ->
  exists p, compute_probability_predx_equals_y ext self x y = Ok p.
Proof.
  intros Hcov [Hrect Hpsd] Hb Hx Hy.
  unfold compute_probability_predx_equals_y. rewrite Hcov.
  replace (py_assert (Z.eqb y 0 || Z.eqb y 1)) with (Ok tt)
    by (destruct Hy as [-> | ->]; reflexivity).
  cbn [bind]. rewrite dot_eq by congruence. cbn [bind].
  rewrite (quad_form_eq n) by assumption. cbn [bind].
  unfold math_sqrt.
  replace (Rltb (bil_ x cov x) 0) with false
    by (symmetry; apply Rltb_false; apply Hpsd; exact Hx).
  cbn [bind]. destruct (Z.eqb y 0); eauto.
Qed.

(** On operands of the right shapes, with a positive semi-definite
    covariance and positive tolerances, the solver raises the underflow
    error or returns a root. *)
Lemma solve_lambda_outcome (ext : Externals) (self : AdversarialLogistic)
    (n : nat) (cov : matrix) (alpha : R) (x : vec) (y : Z) (delta : vec)
    (tol tol_underflow : R) :
  cov_params self = Some cov -> psd n cov ->
  length (beta_hat self) = n -> length x = n -> length delta = n ->
  y = 0%Z \/ y = 1%Z ->
  0 < tol -> 0 < tol_underflow ->
  solve_lambda ext self alpha x y delta tol tol_underflow
  = Raise (ArithmeticError "Risk of underflow")
  \/ exists lam,
       solve_lambda ext self alpha x y delta tol tol_underflow = Ok (Some lam).
Proof.
  intros Hcov Hpsd Hb Hx Hd Hy Htol Htolu.
  pose proof Hpsd as [Hrect Hform].
  rewrite solve_lambda_unfold by exact Hy.
  set (alpha' := if Z.eqb y 0 then 1 - alpha else alpha).
  pose proof (quad_coeffs_eq ext self n cov alpha' x delta Hrect Hb Hx Hd)
    as Hq. cbv zeta in Hq.
  set (e := erfinv ext (2 * alpha' - 1)) in *.
  set (u0 := dot_ x (beta_hat self)) in *.
  set (m := dot_ delta (beta_hat self)) in *.
  set (a := m * m - 2 * (e * e) * bil_ delta cov delta) in *.
  set (b := 2 * u0 * m
            - 2 * (e * e) * (bil_ x cov delta + bil_ delta cov x)) in *.
  set (c := u0 * u0 - 2 * (e * e) * bil_ x cov x) in *.
  unfold solve_lambda_body. rewrite Hcov, Hq. cbn [bind].
  destruct (Rltb a tol_underflow) eqn:Ha; [left; reflexivity | right].
  apply Rltb_false in Ha.
  assert (Hdd : 0 <= bil_ delta cov delta) by (apply Hform; exact Hd).
  assert (Hall : forall l, 0 <= bil_ x cov x
                             + l * (bil_ x cov delta + bil_ delta cov x)
                             + l * l * bil_ delta cov delta).
  { intros l. rewrite <- bil_along by congruence. apply Hform.
    rewrite length_vadd_; [assumption | rewrite length_vscale; congruence]. }
  assert (HD : 0 <= b * b - 4 * a * c).
  { apply (discriminant_nonneg u0 m (2 * (e * e)) (bil_ x cov x)
             (bil_ x cov delta + bil_ delta cov x) (bil_ delta cov delta));
      try assumption; try reflexivity; nra. }
  set (D := b * b - 4 * a * c) in *.
  destruct HD as [HD | HD].
  - replace (Rleb D 0) with false by (symmetry; apply Rleb_false; lra).
    rewrite andb_false_r.
    replace (Rltb D 0) with false by (symmetry; apply Rltb_false; lra).
    unfold Rgtb. replace (Rltb 0 D) with true by (symmetry; apply Rltb_true; lra).
    cbn [select_root].
    rewrite !(residual_value ext self n) by assumption. cbn [bind].
    fold e u0 m.
    destruct (one_root_is_genuine u0 m e (bil_ x cov x)
                (bil_ x cov delta + bil_ delta cov x)
                (bil_ delta cov delta) a b c) as [H1 | H2];
      try assumption; try reflexivity; try lra.
    + fold D in H1. rewrite H1, Rabs_R0.
      replace (Rltb 0 tol) with true by (symmetry; now apply Rltb_true).
      eauto.
    + fold D in H2. destruct (Rltb _ tol); [eauto|].
      rewrite H2, Rabs_R0.
      replace (Rltb 0 tol) with true by (symmetry; now apply Rltb_true).
      eauto.
  - rewrite <- HD, Rabs_R0.
    replace (Rltb 0 tol) with true by (symmetry; now apply Rltb_true).
    replace (Rleb 0 0) with true by (symmetry; apply Rleb_true; lra).
    cbn [andb]. eauto.
Qed.

(** X17: once the steps before the levels have succeeded, with a positive
    semi-definite covariance and positive tolerances, a request for one
    float level has three possible outcomes: a dict, the underflow error of
    the solver, or an assertion error.  It raises nothing else; in
    particular the solver's "no solution" and root selection errors do not
    occur. *)
Theorem float_level_outcomes :
  forall (ext : Externals) (self : AdversarialLogistic) (n : nat)
         (cov : matrix) (x : vec) (y : Z) (a : R) (out_bounds : string)
         (tol tol_underflow : R) (xa delta : vec) (xa0 : option vec),
    cov_params self = Some cov ->
    psd n cov ->
    length (beta_hat self) = n ->
    0 < tol -> 0 < tol_underflow ->
    prepare self x y out_bounds = Ok (xa, delta, xa0) ->
    (exists d,
        compute_adversarial_perturbation ext self x y (PyFloat a) out_bounds
                                         tol tol_underflow = Ok (OneDict d))
    \/ compute_adversarial_perturbation ext self x y (PyFloat a) out_bounds
                                        tol tol_underflow
       = Raise (ArithmeticError "Risk of underflow")
    \/ compute_adversarial_perturbation ext self x y (PyFloat a) out_bounds
                                        tol tol_underflow
       = Raise AssertionError.
Proof.
  intros ext self n cov x y a ob tol tolu xa delta xa0
         Hcov Hpsd Hb Htol Htolu Hprep.
  destruct (prepare_Ok _ _ _ _ _ _ _ Hprep)
    as (_ & Hy & _ & Hproj & v & Hv & Hchk0).
  apply vadd_Ok in Hv as [Hlen _].
  assert (Hxa : length xa = n).
  { unfold prepare in Hprep. rewrite Hcov in Hprep.
    apply bind_Ok in Hprep as (u & _ & Hprep).
    apply bind_Ok in Hprep as (xb & Hxb & Hprep).
    apply bind_Ok in Hprep as (d0 & _ & Hprep).
    apply bind_Ok in Hprep as (v0 & _ & Hprep).
    apply bind_Ok in Hprep as (xb0 & _ & Hprep).
    apply bind_Ok in Hprep as (u' & _ & Hprep).
    apply bind_Ok in Hprep as (c0 & _ & Hprep).
    injection Hprep as <- _ _. apply dot_Ok in Hxb as [Hxb _]. congruence. }
  assert (Hd : length delta = n) by congruence.
  destruct (probability_defined ext self n cov xa y Hcov Hpsd Hb Hxa Hy)
    as (p & Hp).
  unfold compute_adversarial_perturbation. rewrite Hprep. cbn [bind alphas_of].
  rewrite Hp. cbn [bind levels_loop length Nat.eqb].
  destruct (Rge_dec (1 - p) a) as [Hge|Hlt].
  - rewrite level_step_zero by exact Hge.
    destruct (check_bounds_total self v xa ob xa0 Hchk0) as (r & ->).
    cbn [bind]. left. eauto.
  - unfold level_step, Rgeb.
    replace (Rleb a (1 - p)) with false by (symmetry; apply Rleb_false; lra).
    destruct (solve_lambda_outcome ext self n cov a xa y delta tol tolu
                Hcov Hpsd Hb Hxa Hd Hy Htol Htolu) as [-> | (lam & ->)].
    + right. left. reflexivity.
    + cbn [bind].
      rewrite vadd_eq by (rewrite length_vscale; congruence). cbn [bind].
      set (x_adv := vadd_ xa (vscale lam delta)).
      assert (Hla : length x_adv = n).
      { unfold x_adv. rewrite length_vadd_; [exact Hxa|].
        rewrite length_vscale. congruence. }
      rewrite !(dot_eq x_adv) by congruence.
      destruct (probability_defined ext self n cov x_adv y
                  Hcov Hpsd Hb Hla Hy) as (p' & ->).
      destruct (check_bounds_total self v x_adv ob xa0 Hchk0) as (r & ->).
      cbn [bind].
      assert (Hsign :
        (if Rgtb a (1 / 2 + tol)
         then py_assert (pred_ne (dot_ x_adv (beta_hat self)) y)
         else if Rltb a (1 / 2 - tol)
              then py_assert (pred_eq (dot_ x_adv (beta_hat self)) y)
              else Ok tt) = Ok tt
        \/ (if Rgtb a (1 / 2 + tol)
            then py_assert (pred_ne (dot_ x_adv (beta_hat self)) y)
            else if Rltb a (1 / 2 - tol)
                 then py_assert (pred_eq (dot_ x_adv (beta_hat self)) y)
                 else Ok tt) = Raise AssertionError).
      { destruct (Rgtb a (1 / 2 + tol)); [|destruct (Rltb a (1 / 2 - tol))];
          try (left; reflexivity);
          match goal with |- context [py_assert ?b] => destruct b end;
          simpl; auto. }
      destruct Hsign as [-> | ->]; [|right; right; reflexivity].
      cbn [bind].
      destruct (Rleb a (1 - p' + tol)); cbn [py_assert bind];
        [left; eauto | right; right; reflexivity].
Qed.

(** ** The instance built by the constructor *)

(** X18: for a model whose parameter labels are distinct, the instance that
    [__init__] returns follows the intercept convention, its coefficient
    vector has one entry more than the non-intercept part exactly when the
    model has an intercept, and it stores the two bounds as given. *)
Theorem init_well_formed :
  forall (mdl : fitted_model) (X_train : option matrix) (lower upper : R)
         (self : AdversarialLogistic),
    distinct_labels mdl ->
    init mdl X_train lower upper = Ok self ->
    aligned self
    /\ length (beta_hat self)
       = (length (beta_hat_minus0 self)
          + if model_has_intercept self then 1 else 0)%nat
    /\ lower_bound self = lower
    /\ upper_bound self = upper.
Proof.
  intros mdl X_train lower upper self Hd H.
  pose proof (init_aligned mdl X_train lower upper self Hd H) as Hal.
  split; [exact Hal|]. split.
  - unfold aligned in Hal. destruct (model_has_intercept self).
    + destruct Hal as (i & b0 & _ & Hi & ->).
      rewrite length_app. cbn [length]. rewrite length_firstn, length_skipn. lia.
    + rewrite Hal. lia.
  - destruct mdl as [m|m|s]; simpl in H; [| |discriminate].
    + destruct (fit_intercept m); injection H as <-; split; reflexivity.
    + apply bind_Ok in H as (u & _ & H).
      destruct (has_label "const" (params m)); simpl in H;
        injection H as <-; split; reflexivity.
Qed.

(** X19: on an instance fresh from [__init__], the aligned example has the
    length of the coefficient vector exactly when the example has one entry
    per coefficient of an sklearn model, or one entry per parameter of a
    statsmodels model, its constant included. *)
Theorem aligned_example_length :
  forall (mdl : fitted_model) (X_train : option matrix) (lower upper : R)
         (self : AdversarialLogistic) (x : vec),
    init mdl X_train lower upper = Ok self ->
    length (add_constant_x self x) = length (beta_hat self)
    <-> length x = match mdl with
                   | Sklearn m => length (coef_ m)
                   | Statsmodels m => length (params m)
                   | OtherModel _ => O
                   end.
Proof.
  intros mdl X_train lower upper self x H.
  destruct mdl as [m|m|s]; simpl in H; [| |discriminate].
  - destruct (fit_intercept m); injection H as <-;
      unfold add_constant_x; simpl; lia.
  - apply bind_Ok in H as (u & _ & H).
    destruct (has_label "const" (params m)); simpl in H; injection H as <-;
      unfold add_constant_x; simpl; rewrite length_map; lia.
Qed.

(** ** The covariance of an sklearn model *)

Lemma bil_matvec (u : vec) (M : matrix) (v : vec) :
  bil_ u M v = dot_ u (matvec M v).
Proof.
  revert M; induction u as [|a u IH]; intros [|r M]; simpl; try reflexivity.
  now rewrite IH.
Qed.

Lemma bil_matmul (m : nat) (u : vec) (M N : matrix) (v : vec) :
  Forall (fun r => length r = m) N ->
  bil_ u (map (fun r => vecmat_ m r N) M) v = bil_ u M (matvec N v).
Proof.
  intros HN. revert M; induction u as [|a u IH]; intros [|r M]; simpl;
    try reflexivity.
  rewrite IH, dot_vecmat_ by assumption. now rewrite bil_matvec.
Qed.

Lemma length_matvec (M : matrix) (v : vec) : length (matvec M v) = length M.
Proof. apply length_map. Qed.

Lemma length_transpose_ (m : nat) (M : matrix) :
  Forall (fun r => length r = m) M -> length (transpose_ m M) = m.
Proof.
  induction 1 as [|r M Hr HM IH]; simpl; [apply repeat_length|].
  rewrite length_map, length_combine, IH, Hr. apply Nat.min_id.
Qed.

Lemma rows_transpose_ (m : nat) (M : matrix) :
  Forall (fun c => length c = length M) (transpose_ m M).
Proof.
  induction M as [|r M IH]; simpl.
  - apply Forall_forall. intros c Hc. apply repeat_spec in Hc. now subst.
  - apply Forall_forall. intros c Hc. apply in_map_iff in Hc as ([a t] & <- & Hin).
    apply in_combine_r in Hin. simpl. f_equal.
    exact (proj1 (Forall_forall _ _) IH t Hin).
Qed.

Lemma bil_empty_rows (m : nat) (u v : vec) : bil_ u (repeat [] m) v = 0.
Proof.
  revert u; induction m as [|m IH]; intros [|a u]; simpl; try reflexivity.
  rewrite IH. ring.
Qed.

Lemma bil_cons_rows (u r : vec) (T : matrix) (b : R) (v : vec) :
  length r = length T ->
  bil_ u (map (fun p => fst p :: snd p) (combine r T)) (b :: v)
  = b * dot_ u r + bil_ u T v.
Proof.
  revert r T; induction u as [|a u IH]; intros [|c r] [|t T] H; simpl in *;
    try discriminate; try ring.
  rewrite IH by congruence. ring.
Qed.

(** The form of the transpose: [u.T.dot(M.T).dot(v) = v.T.dot(M).dot(u)]. *)
Lemma bil_transpose_ (m : nat) (M : matrix) (u v : vec) :
  Forall (fun r => length r = m) M -> length v = length M ->
  bil_ u (transpose_ m M) v = bil_ v M u.
Proof.
  intros HM; revert v; induction HM as [|r M Hr HM IH]; intros [|b v] Hv;
    simpl in *; try discriminate.
  - apply bil_empty_rows.
  - rewrite bil_cons_rows by (rewrite length_transpose_; assumption).
    rewrite IH by congruence. rewrite (dot_comm u r). reflexivity.
Qed.

Lemma length_unit_row (n i : nat) (a : R) : length (unit_row n i a) = n.
Proof.
  revert i; induction n as [|n IH]; intros [|i]; simpl; try reflexivity.
  - now rewrite repeat_length.
  - now rewrite IH.
Qed.

Lemma rect_diag (w : vec) : rect (length w) (length w) (diag w).
Proof.
  unfold diag. split.
  - rewrite length_map, length_combine, length_seq. apply Nat.min_id.
  - apply Forall_map, Forall_forall. intros p _. apply length_unit_row.
Qed.

Lemma dot_unit_row (n : nat) (pre : vec) (a b : R) (rest : vec) :
  (length pre < n)%nat ->
  dot_ (unit_row n (length pre) a) (pre ++ b :: rest) = a * b.
Proof.
  revert n; induction pre as [|c pre IH]; intros [|n] H; simpl in *; try lia.
  - rewrite dot_zeros. ring.
  - rewrite IH by lia. ring.
Qed.

Lemma dot_diag_rows (n : nat) (w pre s : vec) :
  n = (length pre + length w)%nat -> length s = length w ->
  dot_ (map (fun p => dot_ (unit_row n (fst p) (snd p)) (pre ++ s))
            (combine (seq (length pre) (length w)) w)) s
  = weighted_sq w s.
Proof.
  revert pre s; induction w as [|a w IH]; intros pre [|b s] Hn Hs;
    simpl in *; try discriminate; try reflexivity.
  rewrite dot_unit_row by lia. f_equal; [ring|].
  specialize (IH (pre ++ [b]) s).
  rewrite length_app, Nat.add_1_r, <- app_assoc in IH. simpl in IH.
  apply IH; lia.
Qed.

Lemma matvec_diag (w s : vec) :
  length s = length w -> dot_ (matvec (diag w) s) s = weighted_sq w s.
Proof.
  intros H. unfold matvec, diag. rewrite map_map.
  apply (dot_diag_rows (length w) w [] s); [reflexivity | exact H].
Qed.

Lemma weighted_sq_nonneg (w s : vec) :
  Forall (fun a => 0 <= a) w -> 0 <= weighted_sq w s.
Proof.
  intros H; revert s; induction H as [|a w Ha H IH]; intros [|b s]; simpl;
    try lra.
  specialize (IH s). pose proof (Rle_0_sqr b) as Hb. unfold Rsqr in Hb.
  pose proof (Rmult_le_pos _ _ Ha Hb). lra.
Qed.

Lemma ncols_rect (k n : nat) (M : matrix) :
  rect k n M -> (0 < k)%nat -> ncols M = n.
Proof.
  intros [HL HF] Hk. destruct M as [|r M]; simpl in *; [lia|].
  now inversion HF.
Qed.

Lemma rect_matmul_rows (k m : nat) (M N : matrix) :
  length M = k -> Forall (fun r => length r = m) N ->
  rect k m (map (fun r => vecmat_ m r N) M).
Proof.
  intros HM HN. split; [now rewrite length_map|].
  apply Forall_map, Forall_forall. intros r _. now apply length_vecmat_.
Qed.

(** The matrix [X.T W X] of a [k x n] design matrix: it is defined, it is
    [n x n], and its form at [v] is [sum(w * (X v)**2)]. *)
Lemma Xt_W_X_form (k n : nat) (X : matrix) (yhat : vec) :
  rect k n X -> (0 < k)%nat -> (0 < n)%nat -> length yhat = k ->
  exists M,
    Xt_W_X X yhat = Ok M
    /\ rect n n M
    /\ forall v, bil_ v M v
                 = weighted_sq (map (fun p => p * (1 - p)) yhat) (matvec X v).
Proof.
  intros HX Hk Hn Hy. pose proof (ncols_rect k n X HX Hk) as Hc.
  destruct HX as [HL HF].
  set (w := map (fun p => p * (1 - p)) yhat).
  assert (Hw : length w = k) by (unfold w; now rewrite length_map).
  pose proof (rect_diag w) as HW. rewrite Hw in HW.
  pose proof (ncols_rect k k (diag w) HW Hk) as HcW. destruct HW as [HLW HFW].
  set (Xt := transpose_ n X).
  assert (HLt : length Xt = n) by (apply length_transpose_; exact HF).
  assert (HFt : Forall (fun c => length c = k) Xt).
  { unfold Xt. rewrite <- HL. apply rows_transpose_. }
  set (XtW := map (fun r => vecmat_ k r (diag w)) Xt).
  assert (HXtW : rect n k XtW).
  { apply (rect_matmul_rows n k); assumption. }
  exists (map (fun r => vecmat_ n r X) XtW).
  split; [|split].
  - unfold Xt_W_X, transpose. fold w. rewrite Hc. fold Xt.
    assert (H1 : matmul Xt (diag w) = Ok XtW).
    { unfold matmul. rewrite (ncols_rect n k Xt (conj HLt HFt) Hn).
      unfold nrows. rewrite HLW, Nat.eqb_refl, HcW. reflexivity. }
    rewrite H1. cbn [bind]. unfold matmul.
    rewrite (ncols_rect n k XtW HXtW Hn). unfold nrows.
    rewrite HL, Nat.eqb_refl, Hc. reflexivity.
  - apply (rect_matmul_rows n n); [apply HXtW | exact HF].
  - intros v. rewrite bil_matmul by exact HF.
    unfold XtW. rewrite bil_matmul by exact HFW.
    unfold Xt. rewrite bil_transpose_;
      [|exact HF | rewrite length_matvec; congruence].
    rewrite bil_matvec. apply matvec_diag.
    rewrite length_matvec. congruence.
Qed.

Lemma variance_weights_nonneg (yhat : vec) :
  Forall (fun p => 0 <= p <= 1) yhat ->
  Forall (fun a => 0 <= a) (map (fun p => p * (1 - p)) yhat).
Proof.
  intros H. apply Forall_map. eapply Forall_impl; [|exact H].
  intros p Hp. simpl. nra.
Qed.

(** X20: for a design matrix of at least two rows and one column and
    predicted probabilities between 0 and 1, one per row, the matrix
    [X.T W X] that both sklearn branches build is defined, square of the
    number of columns, and positive semi-definite. *)
Theorem information_matrix_psd :
  forall (k n : nat) (X : matrix) (yhat : vec),
    rect k n X -> (2 <= k)%nat -> (0 < n)%nat ->
    length yhat = k ->
    Forall (fun p => 0 <= p <= 1) yhat ->
    exists M, Xt_W_X X yhat = Ok M /\ psd n M.
Proof.
  intros k n X yhat HX Hk Hn Hy Hp.
  destruct (Xt_W_X_form k n X yhat HX ltac:(lia) Hn Hy) as (M & HM & Hr & Hf).
  exists M. split; [exact HM|]. split; [exact Hr|].
  intros v _. rewrite Hf. apply weighted_sq_nonneg.
  now apply variance_weights_nonneg.
Qed.

Lemma rect_madd_ (n m : nat) (M N : matrix) :
  rect n m M -> rect n m N -> rect n m (madd_ M N).
Proof.
  intros [HLM HM] [HLN HN]. subst n. split.
  - clear HM HN. revert N HLN; induction M as [|r M IH]; intros [|s N] H;
      simpl in *; try reflexivity; try discriminate.
    f_equal. apply IH. congruence.
  - clear HLN. revert N HN; induction HM as [|r M Hr HM IH]; intros N HN;
      destruct HN as [|s N Hs HN]; simpl; constructor.
    + rewrite length_vadd_; congruence.
    + apply IH; assumption.
Qed.

(** The sandwich [B A B] of a symmetric [B] around a positive semi-definite
    [A] is positive semi-definite. *)
Lemma sandwich_psd (n : nat) (A B : matrix) :
  (0 < n)%nat -> psd n A -> rect n n B -> transpose B = B ->
  psd n (map (fun r => vecmat_ n r B) (map (fun r => vecmat_ n r A) B)).
Proof.
  intros Hn [HA Hpsd] HB Hsym.
  pose proof (ncols_rect n n B HB Hn) as Hc.
  destruct HA as [HLA HFA]. pose proof HB as [HLB HFB].
  split.
  - apply (rect_matmul_rows n n); [now rewrite length_map | exact HFB].
  - intros v Hv. rewrite bil_matmul by exact HFB.
    rewrite bil_matmul by exact HFA.
    set (s := matvec B v).
    assert (Hs : length s = n) by (unfold s; rewrite length_matvec; exact HLB).
    rewrite <- Hsym at 1. unfold transpose. rewrite Hc.
    rewrite bil_transpose_; [|exact HFB | rewrite length_matvec; congruence].
    rewrite bil_matvec. fold s. rewrite dot_comm, <- bil_matvec.
    apply Hpsd. exact Hs.
Qed.

(** X21: for an sklearn model with an L2 penalty ([C] below 1e10), a design
    matrix of at least two rows and predicted probabilities between 0 and
    1, if the inverse that numpy returns for the regularised matrix is
    symmetric and of its size, the covariance is computed and it is
    positive semi-definite. *)
Theorem l2_covariance_is_psd :
  forall (ext : Externals) (self : AdversarialLogistic) (m : SklearnLogit)
         (X Xc XWX Minv : matrix) (k n : nat) (yhat : vec),
    module_ self = "sklearn" -> model self = Sklearn m ->
    C_param m < 10000000000 -> penalty m = "l2" ->
    add_constant_X ext self (Some X) = Some Xc ->
    rect k n Xc -> (2 <= k)%nat -> (0 < n)%nat ->
    predict_proba_pos m (Some X) = Ok yhat ->
    length yhat = k -> Forall (fun p => 0 <= p <= 1) yhat ->
    Xt_W_X Xc yhat = Ok XWX ->
    linalg_inv ext (madd_ XWX (mscale (2 * (1 / C_param m)) (identity n)))
    = Ok Minv ->
    rect n n Minv -> transpose Minv = Minv ->
    exists cov,
      compute_covariance ext self (Some X) = Ok (set_cov_params self cov)
      /\ psd n cov.
Proof.
  intros ext self m X Xc XWX Minv k n yhat Hmod Hmdl HC Hpen HXc Hrect Hk Hn
         Hyhat Hlen Hprob HXWX Hinv HMinv Hsym.
  destruct (Xt_W_X_form k n Xc yhat Hrect ltac:(lia) Hn Hlen)
    as (M & HM & Hr & Hf).
  rewrite HXWX in HM. injection HM as <-.
  assert (Hpsd : psd n XWX).
  { split; [exact Hr|]. intros v _. rewrite Hf. apply weighted_sq_nonneg.
    now apply variance_weights_nonneg. }
  pose proof (ncols_rect n n XWX Hr Hn) as HcA.
  pose proof (ncols_rect n n Minv HMinv Hn) as HcB.
  pose proof (rect_diag (repeat 1 n)) as HI. rewrite repeat_length in HI.
  fold (identity n) in HI.
  pose proof (rect_mscale n n (2 * (1 / C_param m)) (identity n) HI) as HsI.
  exists (map (fun r => vecmat_ n r Minv) (map (fun r => vecmat_ n r XWX) Minv)).
  split; [|now apply sandwich_psd].
  unfold compute_covariance. rewrite HXc, Hmod, Hmdl. cbn [String.eqb].
  replace (String.eqb "sklearn" "statsmodels") with false by reflexivity.
  replace (String.eqb "sklearn" "sklearn") with true by reflexivity.
  unfold Rgeb. replace (Rleb 10000000000 (C_param m)) with false
    by (symmetry; apply Rleb_false; lra).
  rewrite Hpen. replace (String.eqb "l2" "l2") with true by reflexivity.
  rewrite Hyhat. cbn [bind]. rewrite HXWX. cbn [bind].
  destruct Hr as [HLA HFA].
  assert (Hadd : madd XWX (mscale (2 * (1 / C_param m)) (identity (nrows XWX)))
                 = Ok (madd_ XWX (mscale (2 * (1 / C_param m)) (identity n)))).
  { unfold nrows. rewrite HLA. unfold madd, same_shape, nrows.
    rewrite HLA, (proj1 HsI), Nat.eqb_refl, HcA.
    rewrite (ncols_rect n n _ HsI Hn), Nat.eqb_refl. reflexivity. }
  rewrite Hadd. cbn [bind]. rewrite Hinv. cbn [bind].
  assert (Hmul : matmul Minv XWX = Ok (map (fun r => vecmat_ n r XWX) Minv)).
  { unfold matmul, nrows. rewrite HcB, HLA, Nat.eqb_refl, HcA. reflexivity. }
  rewrite Hmul. cbn [bind]. unfold matmul, nrows.
  rewrite (ncols_rect n n (map (fun r => vecmat_ n r XWX) Minv)
             (rect_matmul_rows n n Minv XWX (proj1 HMinv) HFA) Hn).
  rewrite (proj1 HMinv), Nat.eqb_refl, HcB. reflexivity.
Qed.

(** ** The bounds of the vectors returned *)

Lemma check_bounds_result_within (self : AdversarialLogistic) (w : vec)
    (out_bounds : string) (v : vec) :
  (out_bounds = "clipping" /\ lower_bound self <= upper_bound self)
  \/ out_bounds = "missing" ->
  check_bounds self w out_bounds = Ok (Some v) ->
  forall c, In c v -> lower_bound self <= c <= upper_bound self.
Proof.
  intros [[-> Hb] | ->] H c Hc.
  - rewrite check_bounds_clipping in H. injection H as <-.
    apply in_map_iff in Hc as (c0 & <- & _). apply clip_within. exact Hb.
  - rewrite check_bounds_missing in H.
    destruct (np_any _ w || np_any _ w)%bool eqn:E in H; [discriminate|].
    injection H as <-. apply orb_false_iff in E as [E1 E2].
    unfold np_any in E1, E2. split.
    + destruct (Rle_dec (lower_bound self) c) as [Hle|Hn]; [exact Hle|].
      assert (Ht : existsb (fun c => Rltb c (lower_bound self)) w = true).
      { apply existsb_exists. exists c. split; [exact Hc|].
        apply Rltb_true. lra. }
      congruence.
    + destruct (Rle_dec c (upper_bound self)) as [Hle|Hn]; [exact Hle|].
      assert (Ht : existsb (fun c => Rgtb c (upper_bound self)) w = true).
      { apply existsb_exists. exists c. split; [exact Hc|].
        unfold Rgtb. apply Rltb_true. lra. }
      congruence.
Qed.

Lemma level_step_checked (ext : Externals) (self : AdversarialLogistic)
    (y : Z) (out_bounds : string) (tol tol_underflow : R) (delta : vec)
    (xa0 : option vec) (p : R) (x : vec) (a : R)
    (d : result_dict) (x' : vec) :
  level_step ext self y out_bounds tol tol_underflow delta xa0 p x a
  = Ok (d, x') ->
  exists w, check_bounds self w out_bounds = Ok (x_adv_star d).
Proof.
  intros H. destruct (Rge_dec (1 - p) a) as [Hge|Hlt].
  - rewrite level_step_zero in H by exact Hge.
    apply bind_Ok in H as (checked & Hchk & H). injection H as <- _.
    exists x. exact Hchk.
  - apply level_step_solve in H as (_ & _ & _ & _ & w & _ & Hchk); [|lra].
    exists w. exact Hchk.
Qed.

(** X22: under ['clipping'] with bounds in order, and under ['missing'],
    every vector the call returns, as [x_adv_star] or as [x_adv_0] of any
    dict, has all its coordinates inside the bounds, the constant
    included. *)
Theorem returned_examples_respect_bounds :
  forall (ext : Externals) (self : AdversarialLogistic) (x : vec) (y : Z)
         (alpha : pyval) (out_bounds : string) (tol tol_underflow : R)
         (res : perturbation),
    (out_bounds = "clipping" /\ lower_bound self <= upper_bound self)
    \/ out_bounds = "missing" ->
    compute_adversarial_perturbation ext self x y alpha out_bounds
                                     tol tol_underflow = Ok res ->
    forall d v,
      In d (dicts_of res) ->
      x_adv_star d = Some v \/ x_adv_0 d = Some v ->
      forall c, In c v -> lower_bound self <= c <= upper_bound self.
Proof.
  intros ext self x y alpha ob tol tolu res Hmode Hres d v Hd.
  revert v. revert d Hd.
  unfold compute_adversarial_perturbation in Hres.
  apply bind_Ok in Hres as ([[xa delta] xa0] & Hprep & Hres).
  apply bind_Ok in Hres as (alphas & _ & Hres).
  apply bind_Ok in Hres as (p & _ & Hres).
  destruct (prepare_Ok _ _ _ _ _ _ _ Hprep) as (_ & _ & _ & _ & w0 & _ & Hchk0).
  apply (proj1 (Forall_forall
                  (fun d => forall v,
                     x_adv_star d = Some v \/ x_adv_0 d = Some v ->
                     forall c, In c v ->
                       lower_bound self <= c <= upper_bound self)
                  (dicts_of res))).
  eapply (levels_loop_invariant ext self y ob tol tolu delta xa0 p
            (length alphas) (fun _ => True));
    [ | exact I | constructor | exact Hres].
  intros x' a d x'' _ Hstep. split; [|exact I].
  intros v [Hv | Hv].
  - destruct (level_step_checked _ _ _ _ _ _ _ _ _ _ _ _ _ Hstep) as (w & Hw).
    rewrite Hv in Hw. exact (check_bounds_result_within self w ob v Hmode Hw).
  - destruct (level_step_alpha _ _ _ _ _ _ _ _ _ _ _ _ _ Hstep) as [_ H0].
    rewrite Hv in H0. rewrite <- H0 in Hchk0.
    exact (check_bounds_result_within self w0 ob v Hmode Hchk0).
Qed.

(** * Examples *)

(** Evaluates the list and control structure of a call on explicit data,
    leaving the arithmetic of the reals as it is, and decides the
    comparisons. *)
Ltac run :=
  cbn -[Rplus Rmult Rminus Ropp Rdiv Rinv IZR sqrt Rabs
        Rltb Rleb Rgtb Rgeb clip check_bounds level_step solve_lambda].

Ltac run_cmp := unfold pred_ne, pred_eq, math_sqrt, Rgtb, Rgeb; decide_cmp; run.

(** The instances are the ones [__init__] builds, and [compute_covariance]
    completes. *)
Lemma scenario_engine_init (lower upper : R) :
  init (Sklearn scenario_model) None lower upper
  = Ok (scenario_engine lower upper None).
Proof. reflexivity. Qed.

Lemma constant_engine_init :
  init (Sklearn constant_model) None 0 1 = Ok constant_engine.
Proof. reflexivity. Qed.

Lemma glm_engine_init (X : matrix) :
  init (Statsmodels glm_model) (Some X) 0 1 = Ok glm_engine.
Proof. reflexivity. Qed.

Lemma scenario_cov_psd : psd 3 scenario_cov.
Proof.
  split.
  - split; [reflexivity|]. repeat constructor.
  - intros [|a [|b [|c [|d v]]]] H; try discriminate. simpl. nra.
Qed.

Lemma scenario_engine_aligned (lower upper : R) (cov : option matrix) :
  aligned (scenario_engine lower upper cov).
Proof.
  exists O, 0. split; [reflexivity|]. split; [simpl; lia | reflexivity].
Qed.


(** The bounds modes on [[1/2, 3/2]] with the bounds [0] and [1]:
    coordinate 1 exceeds the upper bound. *)
Lemma check_bounds_modes_witness :
  check_bounds (scenario_engine 0 1 None) [1 / 2; 3 / 2] "nothing"
  = Ok (Some [1 / 2; 3 / 2])
  /\ check_bounds (scenario_engine 0 1 None) [1 / 2; 3 / 2] "missing" = Ok None
  /\ exists clipped,
       check_bounds (scenario_engine 0 1 None) [1 / 2; 3 / 2] "clipping"
       = Ok (Some clipped)
       /\ length clipped = 2%nat
       /\ (1 < 3 / 2 -> nth_error clipped 1 = Some 1)
       /\ (3 / 2 < 0 -> 0 <= 1 -> nth_error clipped 1 = Some 0)
       /\ (forall j w, nth_error [1 / 2; 3 / 2] j = Some w ->
             0 <= w <= 1 -> nth_error clipped j = Some w).
Proof.
  apply (check_bounds_modes (scenario_engine 0 1 None) [1 / 2; 3 / 2] 1 (3 / 2)).
  - reflexivity.
  - left. simpl. lra.
Defined.

Lemma Ok_triple (a b c a' b' c' : R) :
  a = a' -> b = b' -> c = c' ->
  @Ok (R * R * R) (a, b, c) = Ok (a', b', c').
Proof. intros -> -> ->. reflexivity. Qed.




(** The scenario with a covariance of 4 times the identity, at the level
    0.95: the coefficients in terms of [e = erfinv(0.9)]. *)
Lemma wide_covariance_coeffs (ext : Externals) :
  let e := erfinv ext (2 * (19 / 20) - 1) in
  quad_coeffs ext (scenario_engine 0 1 (Some wide_cov)) wide_cov
              (19 / 20) [1; 1; 1] [0; - (2 / 5); 1 / 5]
  = Ok (1 - 8 / 5 * (e * e), -2 + 16 / 5 * (e * e), 1 - 24 * (e * e)).
Proof.
  intros e. unfold quad_coeffs, mat_A. run. fold e. apply Ok_triple; lra.
Qed.

(** Whatever [erfinv] is, provided [erfinv(0.9) >= 1] (it is 1.1631 to four
    places): the discriminant is negative beyond the tolerance, and the
    solver raises the underflow error. *)
Lemma wide_covariance_underflow (ext : Externals) :
  1 <= erfinv ext (2 * (19 / 20) - 1) ->
  exists a b c,
    quad_coeffs ext (scenario_engine 0 1 (Some wide_cov)) wide_cov
                (19 / 20) [1; 1; 1] [0; - (2 / 5); 1 / 5] = Ok (a, b, c)
    /\ b * b - 4 * a * c < 0
    /\ 1 / 1000000 <= Rabs (b * b - 4 * a * c)
    /\ solve_lambda ext (scenario_engine 0 1 (Some wide_cov))
                    (19 / 20) [1; 1; 1] 1 [0; - (2 / 5); 1 / 5]
                    (1 / 1000000) (1 / 10000000)
       = Raise (ArithmeticError "Risk of underflow").
Proof.
  intros He. pose proof (wide_covariance_coeffs ext) as Hq. simpl in Hq.
  set (e := erfinv ext (2 * (19 / 20) - 1)) in *.
  do 3 eexists. split; [exact Hq|].
  assert (Hee : 1 <= e * e) by nra.
  assert (HD : (-2 + 16 / 5 * (e * e)) * (-2 + 16 / 5 * (e * e))
               - 4 * (1 - 8 / 5 * (e * e)) * (1 - 24 * (e * e)) < -1) by nra.
  split; [lra|]. split.
  - rewrite Rabs_left by lra. lra.
  - rewrite solve_lambda_unfold by auto. unfold solve_lambda_body.
    cbn [cov_params scenario_engine Z.eqb]. rewrite Hq. cbn [bind].
    replace (Rltb _ (1 / 10000000)) with true
      by (symmetry; apply Rltb_true; lra).
    reflexivity.
Qed.

(** C5 fails as stated: on the scenario with the covariance [wide_cov] and
    the level 0.95, the discriminant is negative beyond the tolerance and
    the solver raises the underflow error instead of returning [None]. *)
Lemma negative_discriminant_raises_underflow :
  exists a b c,
    quad_coeffs (example_externals (11631 / 10000) 0)
                (scenario_engine 0 1 (Some wide_cov)) wide_cov
                (19 / 20) [1; 1; 1] [0; - (2 / 5); 1 / 5] = Ok (a, b, c)
    /\ b * b - 4 * a * c < 0
    /\ 1 / 1000000 <= Rabs (b * b - 4 * a * c)
    /\ solve_lambda (example_externals (11631 / 10000) 0)
                    (scenario_engine 0 1 (Some wide_cov))
                    (19 / 20) [1; 1; 1] 1 [0; - (2 / 5); 1 / 5]
                    (1 / 1000000) (1 / 10000000)
       = Raise (ArithmeticError "Risk of underflow").
Proof.
  apply (wide_covariance_underflow (example_externals (11631 / 10000) 0)).
  simpl. lra.
Qed.

(** With a positive semi-definite covariance the residual is defined at
    every [lambda], and it is a magnitude. *)
Lemma residual_defined (ext : Externals) (self : AdversarialLogistic)
    (n : nat) (cov : matrix) (alpha : R) (x delta : vec) (lam : R) :
  psd n cov ->
  length (beta_hat self) = n -> length x = n -> length delta = n ->
  exists eq, residual ext self cov alpha x delta lam = Ok eq /\ 0 <= eq.
Proof.
  intros [Hrect Hpsd] Hb Hx Hd. unfold residual.
  assert (Hl : length (vadd_ x (vscale lam delta)) = n).
  { rewrite length_vadd_; [assumption | rewrite length_vscale; congruence]. }
  rewrite vadd_eq by (rewrite length_vscale; congruence). simpl.
  rewrite dot_eq by congruence. simpl.
  rewrite (quad_form_eq n) by assumption. simpl.
  unfold math_sqrt.
  replace (Rltb _ 0) with false
    by (symmetry; apply Rltb_false; apply Hpsd; exact Hl).
  simpl. eexists; split; [reflexivity | apply Rabs_pos].
Qed.

(** The scenario at the level 0.95 with [erfinv(0.9)] taken as 1.1631. *)
Lemma scenario_coeffs :
  exists a b c,
    quad_coeffs (example_externals (11631 / 10000) 0)
                (scenario_engine 0 1 (Some scenario_cov)) scenario_cov
                (19 / 20) [1; 1; 1] [0; - (2 / 5); 1 / 5] = Ok (a, b, c)
    /\ 1 / 10000000 <= a /\ b * b - 4 * a * c > 0.
Proof.
  do 3 eexists. split.
  - unfold quad_coeffs, mat_A. run. reflexivity.
  - split; lra.
Qed.

(** Both outcomes of C5 occur: with [tol_underflow = -2] the scenario with
    the covariance [wide_cov] has no real root and the solver returns
    [None]; with [tol = 0] no root of the scenario can pass the test of its
    residual and the solver raises the error of the root selection. *)
Lemma solve_lambda_without_root_witness :
  solve_lambda (example_externals (11631 / 10000) 0)
               (scenario_engine 0 1 (Some wide_cov))
               (19 / 20) [1; 1; 1] 1 [0; - (2 / 5); 1 / 5]
               (1 / 1000000) (-2) = Ok None
  /\ solve_lambda (example_externals (11631 / 10000) 0)
               (scenario_engine 0 1 (Some scenario_cov))
               (19 / 20) [1; 1; 1] 1 [0; - (2 / 5); 1 / 5]
               0 (1 / 10000000)
     = Raise (ValueError "Error when solving the 2nd degree equation.").
Proof.
  split.
  - pose proof (wide_covariance_coeffs (example_externals (11631 / 10000) 0))
      as Hq. simpl in Hq.
    apply (proj1 (solve_lambda_without_root
                    (example_externals (11631 / 10000) 0)
                    (scenario_engine 0 1 (Some wide_cov)) wide_cov
                    (19 / 20) [1; 1; 1] 1 [0; - (2 / 5); 1 / 5]
                    (1 / 1000000) (-2) _ _ _
                    (or_intror eq_refl) eq_refl Hq ltac:(lra))).
    + lra.
    + rewrite Rabs_left by lra. lra.
  - destruct scenario_coeffs as (a & b & c & Hq & Ha & HD).
    apply (proj2 (solve_lambda_without_root
                    (example_externals (11631 / 10000) 0)
                    (scenario_engine 0 1 (Some scenario_cov)) scenario_cov
                    (19 / 20) [1; 1; 1] 1 [0; - (2 / 5); 1 / 5]
                    0 (1 / 10000000) a b c
                    (or_intror eq_refl) eq_refl Hq Ha)).
    + exact HD.
    + intros lam _. apply (residual_defined _ _ 3);
        [apply scenario_cov_psd | reflexivity | reflexivity | reflexivity].
Defined.

(** The scenario with the bounds [0] and [1/2], the mode ['clipping'] and
    the example [x = [0.4, 0.3]] of true label 0, which the model predicts
    as 1.  [P[pred(x) = 0]] is [norm.cdf(0, 0.5, sqrt(1/80))]. *)
Lemma scenario_probability (ext : Externals) :
  compute_probability_predx_equals_y
    ext (scenario_engine 0 (1 / 2) (Some scenario_cov)) [1; 4 / 10; 3 / 10] 0
  = Ok (norm_cdf ext 0 (1 / 2) (sqrt (1 / 80))).
Proof.
  unfold compute_probability_predx_equals_y. run. run_cmp.
  do 2 f_equal; [|f_equal]; lra.
Qed.

Lemma scenario_prepare :
  exists delta xa0,
    prepare (scenario_engine 0 (1 / 2) (Some scenario_cov))
            [4 / 10; 3 / 10] 0 "clipping"
    = Ok ([1; 4 / 10; 3 / 10], delta, xa0).
Proof.
  do 2 eexists. unfold prepare. run. run_cmp.
  rewrite check_bounds_clipping. reflexivity.
Qed.

Lemma scenario_clipped :
  check_bounds (scenario_engine 0 (1 / 2) (Some scenario_cov))
               [1; 4 / 10; 3 / 10] "clipping"
  = Ok (Some [1 / 2; 4 / 10; 3 / 10]).
Proof.
  rewrite check_bounds_clipping. run. unfold clip. unfold Rgtb. decide_cmp.
  reflexivity.
Qed.

(** Whatever [norm.cdf] is, provided its value at [(0, 0.5, sqrt(1/80))] is
    at most 0.05 (it is 3.9e-6): the level 0.95 is already met, and the
    [x_adv_star] returned is [x] with its constant clipped to 1/2. *)
Lemma scenario_level_met (ext : Externals) :
  norm_cdf ext 0 (1 / 2) (sqrt (1 / 80)) <= 1 / 20 ->
  exists p d,
    compute_probability_predx_equals_y
      ext (scenario_engine 0 (1 / 2) (Some scenario_cov))
      [1; 4 / 10; 3 / 10] 0 = Ok p
    /\ 1 - p >= 19 / 20
    /\ compute_adversarial_perturbation
         ext (scenario_engine 0 (1 / 2) (Some scenario_cov))
         [4 / 10; 3 / 10] 0 (PyFloat (19 / 20)) "clipping"
         (1 / 1000000) (1 / 10000000) = Ok (OneDict d)
    /\ lambda_star d = 0
    /\ x_adv_star d = Some [1 / 2; 4 / 10; 3 / 10]
    /\ x_adv_star d <> Some [1; 4 / 10; 3 / 10].
Proof.
  intros Hp. destruct scenario_prepare as (delta & xa0 & Hprep).
  eexists. eexists. split; [apply scenario_probability|].
  split; [lra|]. split.
  - unfold compute_adversarial_perturbation. rewrite Hprep. cbn [bind alphas_of].
    rewrite scenario_probability. cbn [bind levels_loop length Nat.eqb].
    rewrite level_step_zero by lra. rewrite scenario_clipped.
    cbn [bind]. reflexivity.
  - cbn [lambda_star x_adv_star]. split; [reflexivity|].
    split; [reflexivity|]. intros H. injection H as H. lra.
Qed.

(** C3 fails as stated: in the scenario, with the features of [x] inside
    the bounds [0] and [1/2], the level 0.95 is already met, and under
    ['clipping'] the [x_adv_star] returned is not [x]: its constant 1 has
    been clipped.  ([norm.cdf] is taken as 0 where it is 3.9e-6.) *)
Lemma zero_intensity_not_x_exactly :
  exists p d,
    compute_probability_predx_equals_y
      (example_externals 0 0) (scenario_engine 0 (1 / 2) (Some scenario_cov))
      [1; 4 / 10; 3 / 10] 0 = Ok p
    /\ 1 - p >= 19 / 20
    /\ compute_adversarial_perturbation
         (example_externals 0 0) (scenario_engine 0 (1 / 2) (Some scenario_cov))
         [4 / 10; 3 / 10] 0 (PyFloat (19 / 20)) "clipping"
         (1 / 1000000) (1 / 10000000) = Ok (OneDict d)
    /\ lambda_star d = 0
    /\ x_adv_star d = Some [1 / 2; 4 / 10; 3 / 10]
    /\ x_adv_star d <> Some [1; 4 / 10; 3 / 10].
Proof. apply (scenario_level_met (example_externals 0 0)). simpl. lra. Qed.

(** The same call, through the theorem. *)
Lemma zero_intensity_level_witness :
  exists d,
    compute_adversarial_perturbation
      (example_externals 0 0) (scenario_engine 0 (1 / 2) (Some scenario_cov))
      [4 / 10; 3 / 10] 0 (PyFloat (19 / 20)) "clipping"
      (1 / 1000000) (1 / 10000000) = Ok (OneDict d)
    /\ lambda_star d = 0
    /\ check_bounds (scenario_engine 0 (1 / 2) (Some scenario_cov))
                    [1; 4 / 10; 3 / 10] "clipping" = Ok (x_adv_star d).
Proof.
  destruct scenario_prepare as (delta & xa0 & Hprep).
  destruct (zero_intensity_level
              (example_externals 0 0)
              (scenario_engine 0 (1 / 2) (Some scenario_cov))
              [4 / 10; 3 / 10] 0 (PyFloat (19 / 20)) "clipping"
              (1 / 1000000) (1 / 10000000)
              [1; 4 / 10; 3 / 10] delta xa0 0 Hprep
              (scenario_probability (example_externals 0 0)))
    as (checked & Hchk & _ & _ & Hone & _).
  eexists. split; [apply (Hone (19 / 20) eq_refl); lra|].
  split; [reflexivity | exact Hchk].
Defined.

(** In that call the vector returned has three coordinates for the two of
    [x], the first one being the clipped image of the constant. *)
Lemma returned_vectors_carry_constant_witness :
  exists d v,
    compute_adversarial_perturbation
      (example_externals 0 0) (scenario_engine 0 (1 / 2) (Some scenario_cov))
      [4 / 10; 3 / 10] 0 (PyFloat (19 / 20)) "clipping"
      (1 / 1000000) (1 / 10000000) = Ok (OneDict d)
    /\ x_adv_star d = Some v
    /\ length v = 3%nat
    /\ nth_error v 0 = Some (clip 0 (1 / 2) 1).
Proof.
  destruct (scenario_level_met (example_externals 0 0))
    as (p & d & _ & _ & Hres & _ & Hstar & _); [simpl; lra|].
  exists d, [1 / 2; 4 / 10; 3 / 10].
  split; [exact Hres|]. split; [exact Hstar|].
  apply (returned_vectors_carry_constant
           (example_externals 0 0)
           (scenario_engine 0 (1 / 2) (Some scenario_cov))
           [4 / 10; 3 / 10] 0 (PyFloat (19 / 20)) "clipping"
           (1 / 1000000) (1 / 10000000) (OneDict d)
           eq_refl eq_refl eq_refl Hres d [1 / 2; 4 / 10; 3 / 10]
           (or_introl eq_refl) (or_introl Hstar)).
Defined.

(** C10 fails as stated: before the covariance has been computed, an
    integer [alpha] is not answered by the invalid-alpha exception. *)
Lemma integer_alpha_without_covariance :
  compute_adversarial_perturbation
    (example_externals 0 0) (scenario_engine 0 1 None)
    [1; 1] 1 (PyInt 1) "nothing" (1 / 1000000) (1 / 10000000)
  = Raise (PyException
      "Missing cov_params. Call: self.compute_covariance(X_train, y_train)").
Proof. reflexivity. Qed.

(** An integer [alpha] on the scenario. *)
Lemma invalid_alpha_rejected_witness :
  compute_adversarial_perturbation
    (example_externals 0 0) (scenario_engine 0 1 (Some scenario_cov))
    [1; 1] 1 (PyInt 1) "nothing" (1 / 1000000) (1 / 10000000)
  = (_ <- prepare (scenario_engine 0 1 (Some scenario_cov)) [1; 1] 1 "nothing" ;;
     Raise (PyException "Invalid alpha parameter")).
Proof.
  apply invalid_alpha_rejected; intros; discriminate.
Defined.

(** On the scenario the steps before the test succeed, and the exception
    is the invalid-alpha one. *)
Lemma integer_alpha_on_scenario :
  compute_adversarial_perturbation
    (example_externals 0 0) (scenario_engine 0 1 (Some scenario_cov))
    [1; 1] 1 (PyInt 1) "nothing" (1 / 1000000) (1 / 10000000)
  = Raise (PyException "Invalid alpha parameter").
Proof.
  unfold compute_adversarial_perturbation, prepare. run. run_cmp.
  rewrite check_bounds_nothing. reflexivity.
Qed.

(** C6 fails as stated: for the model that predicts a constant, whose
    non-intercept coefficients are all zero, the projection returns. *)
Lemma degenerate_projection_returns :
  init (Sklearn constant_model) None 0 1 = Ok constant_engine
  /\ Forall (fun c => c = 0) (beta_hat_minus0 constant_engine)
  /\ exists delta,
       compute_orthogonal_projection constant_engine [1; 3; 4] (1 / 1000000)
       = Ok delta.
Proof.
  split; [reflexivity|]. split; [repeat constructor|].
  eexists. reflexivity.
Qed.

Lemma projection_divides_unguarded_witness :
  sum_sq [0; 0] = 0
  /\ exists delta,
       compute_orthogonal_projection constant_engine [1; 3; 4] (1 / 1000000)
       = Ok delta
       /\ length delta = 3%nat.
Proof.
  apply (projection_divides_unguarded constant_engine [1; 3; 4] (1 / 1000000)).
  - exists O, 1. split; [reflexivity|]. split; [simpl; lia | reflexivity].
  - reflexivity.
  - repeat constructor.
Defined.

(** C7 fails as stated: for the statsmodels model of three coefficients, a
    design matrix of five columns raises nothing. *)
Lemma mismatched_design_matrix_accepted :
  init (Statsmodels glm_model) (Some [[1; 2; 3; 4; 5]]) 0 1 = Ok glm_engine
  /\ compute_covariance (example_externals 0 0) glm_engine
                        (Some [[1; 2; 3; 4; 5]])
     = Ok (set_cov_params glm_engine scenario_cov).
Proof. split; reflexivity. Qed.

Lemma compute_covariance_checks_no_dimension_witness :
  compute_covariance (example_externals 0 0) glm_engine
                     (Some [[1; 2; 3; 4; 5]])
  = Ok (set_cov_params glm_engine scenario_cov).
Proof.
  apply (compute_covariance_checks_no_dimension
           (example_externals 0 0) glm_model scenario_cov
           (Some [[1; 2; 3; 4; 5]]) 0 1 glm_engine (Some [[1; 2; 3; 4; 5]])).
  - reflexivity.
  - reflexivity.
Defined.

(** ** The matrix operations on small data *)

Example transpose_2x3 :
  transpose [[1; 2; 3]; [4; 5; 6]] = [[1; 4]; [2; 5]; [3; 6]].
Proof. reflexivity. Qed.

Example diag_3 : diag [1; 2; 3] = [[1; 0; 0]; [0; 2; 0]; [0; 0; 3]].
Proof. reflexivity. Qed.

Example matmul_2x2 :
  matmul [[1; 2]; [3; 4]] [[0; 1]; [1; 0]]
  = Ok [[1 * 0 + (2 * 1 + 0); 1 * 1 + (2 * 0 + 0)];
        [3 * 0 + (4 * 1 + 0); 3 * 1 + (4 * 0 + 0)]].
Proof. reflexivity. Qed.

(** On the scenario at the level 1/2. *)
Lemma solve_lambda_never_none_witness :
  solve_lambda (example_externals 0 0)
               (scenario_engine 0 1 (Some scenario_cov))
               (1 / 2) [1; 1; 1] 1 [0; - (2 / 5); 1 / 5]
               (1 / 1000000) (1 / 10000000)
  <> Ok None.
Proof.
  apply (solve_lambda_never_none
           (example_externals 0 0) (scenario_engine 0 1 (Some scenario_cov))
           3 scenario_cov).
  - reflexivity.
  - apply scenario_cov_psd.
  - lra.
Defined.

(** On the scenario at the level 0.95, with [erfinv(0.9)] taken as 1.1631. *)
Lemma solve_lambda_returns_root_witness :
  exists lam,
    solve_lambda (example_externals (11631 / 10000) 0)
                 (scenario_engine 0 1 (Some scenario_cov))
                 (19 / 20) [1; 1; 1] 1 [0; - (2 / 5); 1 / 5]
                 (1 / 1000000) (1 / 10000000)
    = Ok (Some lam).
Proof.
  destruct scenario_coeffs as (a & b & c & Hq & Ha & _).
  apply (solve_lambda_returns_root
           (example_externals (11631 / 10000) 0)
           (scenario_engine 0 1 (Some scenario_cov)) 3 scenario_cov
           (19 / 20) [1; 1; 1] 1 [0; - (2 / 5); 1 / 5]
           (1 / 1000000) (1 / 10000000) a b c
           (or_intror eq_refl) eq_refl scenario_cov_psd
           ltac:(lra) ltac:(lra) Hq Ha).
Defined.

(** ** The further properties on the instances *)

Lemma ridge_engine_init : init (Sklearn ridge_model) None 0 1 = Ok ridge_engine.
Proof. reflexivity. Qed.

(** The projection of [[1, 1, 1]] with the overshoot of the orchestrator. *)
Lemma projection_overshoots_witness :
  exists delta x_adv,
    compute_orthogonal_projection (scenario_engine 0 1 None) [1; 1; 1]
                                  (1 / 1000000) = Ok delta
    /\ vadd [1; 1; 1] delta = Ok x_adv
    /\ dot x_adv [0; 2; -1]
       = Ok (- (1 / 1000000) * dot_ [1; 1; 1] [0; 2; -1]).
Proof.
  apply (projection_overshoots (scenario_engine 0 1 None) [1; 1; 1]
                               (1 / 1000000)).
  - apply scenario_engine_aligned.
  - exists 2. split; [simpl; auto | lra].
  - reflexivity.
Defined.

(** Moving the first feature alone by [-1/2] also puts [[1, 1, 1]] on the
    hyperplane; the projection is not longer. *)
Lemma projection_minimal_norm_witness :
  exists delta,
    compute_orthogonal_projection (scenario_engine 0 1 None) [1; 1; 1] 0
    = Ok delta
    /\ sum_sq delta <= sum_sq [0; - (1 / 2); 0].
Proof.
  eexists. split; [reflexivity|].
  apply (projection_minimal_norm (scenario_engine 0 1 None) [1; 1; 1]).
  - apply scenario_engine_aligned.
  - exists 2. split; [simpl; auto | lra].
  - reflexivity.
  - reflexivity.
  - reflexivity.
  - intros _ i Hi. injection Hi as <-. reflexivity.
  - simpl. lra.
Defined.

(** The example [[1, 2]] of the scenario has the score [2 - 2 = 0]. *)
Lemma boundary_example_fails_self_check_witness :
  compute_adversarial_perturbation
    (example_externals 0 0) (scenario_engine 0 1 (Some scenario_cov))
    [1; 2] 1 (PyFloat (19 / 20)) "nothing" (1 / 1000000) (1 / 10000000)
  = Raise AssertionError.
Proof.
  apply (boundary_example_fails_self_check
           (example_externals 0 0) (scenario_engine 0 1 (Some scenario_cov))
           scenario_cov).
  - reflexivity.
  - right. reflexivity.
  - apply scenario_engine_aligned.
  - exists 2. split; [simpl; auto | lra].
  - reflexivity.
  - simpl. lra.
Defined.

(** The example [[1, 1]] of the scenario has the score 1. *)
Lemma self_check_passes_off_boundary_witness :
  exists delta x_adv_0,
    prepare (scenario_engine 0 1 (Some scenario_cov)) [1; 1] 1 "nothing"
    = Ok ([1; 1; 1], delta, x_adv_0)
    /\ check_bounds (scenario_engine 0 1 (Some scenario_cov))
                    (vadd_ [1; 1; 1] delta) "nothing" = Ok x_adv_0.
Proof.
  apply (self_check_passes_off_boundary
           (scenario_engine 0 1 (Some scenario_cov)) scenario_cov [1; 1] 1
           "nothing").
  - reflexivity.
  - right. reflexivity.
  - apply scenario_engine_aligned.
  - exists 2. split; [simpl; auto | lra].
  - reflexivity.
  - simpl. lra.
  - right. right. reflexivity.
Defined.

Lemma clipping_lands_within_bounds_witness :
  exists clipped,
    check_bounds (scenario_engine 0 1 None) [1 / 2; 3 / 2] "clipping"
    = Ok (Some clipped)
    /\ length clipped = 2%nat
    /\ forall c, In c clipped -> 0 <= c <= 1.
Proof.
  apply (clipping_lands_within_bounds (scenario_engine 0 1 None) [1 / 2; 3 / 2]).
  simpl. lra.
Defined.

Lemma missing_discards_exactly_outside_witness :
  check_bounds (scenario_engine 0 1 None) [1 / 2; 3 / 2] "missing" = Ok None.
Proof.
  apply (proj1 (missing_discards_exactly_outside
                  (scenario_engine 0 1 None) [1 / 2; 3 / 2])).
  exists (3 / 2). split; [simpl; auto | right; simpl; lra].
Defined.

Lemma check_bounds_idempotent_witness :
  check_bounds (scenario_engine 0 (1 / 2) (Some scenario_cov))
               [1 / 2; 4 / 10; 3 / 10] "clipping"
  = Ok (Some [1 / 2; 4 / 10; 3 / 10]).
Proof.
  apply (check_bounds_idempotent
           (scenario_engine 0 (1 / 2) (Some scenario_cov))
           [1; 4 / 10; 3 / 10]).
  apply scenario_clipped.
Defined.

Lemma probability_is_gaussian_tail_witness :
  compute_probability_predx_equals_y
    (example_externals 0 0) (scenario_engine 0 1 (Some scenario_cov))
    [1; 4 / 10; 3 / 10] 1
  = Ok (1 - norm_cdf (example_externals 0 0) 0
                     (dot_ [1; 4 / 10; 3 / 10] [0; 2; -1])
                     (sqrt (bil_ [1; 4 / 10; 3 / 10] scenario_cov
                                 [1; 4 / 10; 3 / 10]))).
Proof.
  apply (probability_is_gaussian_tail
           (example_externals 0 0) (scenario_engine 0 1 (Some scenario_cov))
           3 scenario_cov [1; 4 / 10; 3 / 10] 1).
  - reflexivity.
  - apply scenario_cov_psd.
  - reflexivity.
  - reflexivity.
  - right. reflexivity.
Defined.

(** The scenario call at the level 0.95 returns one dict, of that level. *)
Lemma one_dict_per_level_witness :
  exists d alphas,
    compute_adversarial_perturbation
      (example_externals 0 0) (scenario_engine 0 (1 / 2) (Some scenario_cov))
      [4 / 10; 3 / 10] 0 (PyFloat (19 / 20)) "clipping"
      (1 / 1000000) (1 / 10000000) = Ok (OneDict d)
    /\ alphas_of (PyFloat (19 / 20)) = Ok alphas
    /\ map alpha_ [d] = alphas
    /\ length alphas = 1%nat.
Proof.
  destruct (scenario_level_met (example_externals 0 0))
    as (p & d & _ & _ & Hres & _); [simpl; lra|].
  exists d.
  destruct (one_dict_per_level _ _ _ _ _ _ _ _ _ Hres) as (alphas & H).
  exists alphas. split; [exact Hres | exact H].
Defined.

(** The scenario under ['nothing']: the level 0.95 is already met. *)
Lemma scenario_prepare_nothing :
  exists delta xa0,
    prepare (scenario_engine 0 (1 / 2) (Some scenario_cov))
            [4 / 10; 3 / 10] 0 "nothing"
    = Ok ([1; 4 / 10; 3 / 10], delta, xa0).
Proof.
  do 2 eexists. unfold prepare. run. run_cmp.
  rewrite check_bounds_nothing. reflexivity.
Qed.

Lemma scenario_level_met_nothing (ext : Externals) :
  norm_cdf ext 0 (1 / 2) (sqrt (1 / 80)) <= 1 / 20 ->
  exists d,
    compute_adversarial_perturbation
      ext (scenario_engine 0 (1 / 2) (Some scenario_cov))
      [4 / 10; 3 / 10] 0 (PyFloat (19 / 20)) "nothing"
      (1 / 1000000) (1 / 10000000) = Ok (OneDict d).
Proof.
  intros Hp. destruct scenario_prepare_nothing as (delta & xa0 & Hprep).
  eexists. unfold compute_adversarial_perturbation. rewrite Hprep.
  cbn [bind alphas_of]. rewrite scenario_probability.
  cbn [bind levels_loop length Nat.eqb].
  rewrite level_step_zero by lra. rewrite check_bounds_nothing.
  cbn [bind]. reflexivity.
Qed.

Lemma returned_levels_are_reached_witness :
  exists delta d,
    compute_adversarial_perturbation
      (example_externals 0 0) (scenario_engine 0 (1 / 2) (Some scenario_cov))
      [4 / 10; 3 / 10] 0 (PyFloat (19 / 20)) "nothing"
      (1 / 1000000) (1 / 10000000) = Ok (OneDict d)
    /\ x_adv_star d
       = Some (vadd_ [1; 4 / 10; 3 / 10] (vscale (lambda_star d) delta))
    /\ exists p,
         compute_probability_predx_equals_y
           (example_externals 0 0)
           (scenario_engine 0 (1 / 2) (Some scenario_cov))
           (vadd_ [1; 4 / 10; 3 / 10] (vscale (lambda_star d) delta)) 0 = Ok p
         /\ 1 - p + 1 / 1000000 >= alpha_ d.
Proof.
  destruct scenario_prepare_nothing as (delta & xa0 & Hprep).
  destruct (scenario_level_met_nothing (example_externals 0 0)) as (d & Hres);
    [simpl; lra|].
  exists delta, d. split; [exact Hres|].
  apply (returned_levels_are_reached
           (example_externals 0 0)
           (scenario_engine 0 (1 / 2) (Some scenario_cov))
           [4 / 10; 3 / 10] 0 (PyFloat (19 / 20)) (1 / 1000000) (1 / 10000000)
           [1; 4 / 10; 3 / 10] delta xa0 (OneDict d)
           ltac:(lra) Hprep Hres d (or_introl eq_refl)).
Defined.

Lemma half_level_is_the_hyperplane_witness :
  exists lam,
    solve_lambda (example_externals 0 0)
                 (scenario_engine 0 1 (Some scenario_cov))
                 (1 / 2) [1; 1; 1] 1 [0; - (2 / 5); 1 / 5]
                 (1 / 1000000) (1 / 10000000) = Ok (Some lam)
    /\ dot_ (vadd_ [1; 1; 1] (vscale lam [0; - (2 / 5); 1 / 5])) [0; 2; -1] = 0.
Proof.
  apply (half_level_is_the_hyperplane
           (example_externals 0 0) (scenario_engine 0 1 (Some scenario_cov))
           3 scenario_cov [1; 1; 1] 1 [0; - (2 / 5); 1 / 5]
           (1 / 1000000) (1 / 10000000)).
  - reflexivity.
  - reflexivity.
  - apply scenario_cov_psd.
  - reflexivity.
  - reflexivity.
  - reflexivity.
  - right. reflexivity.
  - lra.
  - lra.
  - simpl. lra.
Defined.

Lemma fresh_instance_needs_covariance_witness :
  compute_adversarial_perturbation
    (example_externals 0 0) (scenario_engine 0 1 None)
    [1; 1] 1 (PyFloat (19 / 20)) "clipping" (1 / 1000000) (1 / 10000000)
  = Raise (PyException
      "Missing cov_params. Call: self.compute_covariance(X_train, y_train)").
Proof.
  apply (fresh_instance_needs_covariance
           (example_externals 0 0) (Sklearn scenario_model) None 0 1).
  reflexivity.
Defined.

(** Two results of two levels each, plotted in red and blue. *)
Lemma one_curve_per_argument_witness :
  exists calls,
    plot_intensity_vs_level
      [ListOfDicts [{| alpha_ := 3 / 4; lambda_star := 1;
                       x_adv_star := None; x_adv_0 := None |};
                    {| alpha_ := 19 / 20; lambda_star := 2;
                       x_adv_star := None; x_adv_0 := None |}];
       ListOfDicts [{| alpha_ := 3 / 4; lambda_star := 3;
                       x_adv_star := None; x_adv_0 := None |};
                    {| alpha_ := 19 / 20; lambda_star := 4;
                       x_adv_star := None; x_adv_0 := None |}]]
      ["red"; "blue"] (Some ["a"; "b"]) None = Ok calls
    /\ length calls = 2%nat
    /\ map plot_y calls = [[1; 2]; [3; 4]].
Proof.
  eexists. split; [reflexivity|].
  split; [|reflexivity].
  apply (one_curve_per_argument
           [ListOfDicts [{| alpha_ := 3 / 4; lambda_star := 1;
                            x_adv_star := None; x_adv_0 := None |};
                         {| alpha_ := 19 / 20; lambda_star := 2;
                            x_adv_star := None; x_adv_0 := None |}];
            ListOfDicts [{| alpha_ := 3 / 4; lambda_star := 3;
                            x_adv_star := None; x_adv_0 := None |};
                         {| alpha_ := 19 / 20; lambda_star := 4;
                            x_adv_star := None; x_adv_0 := None |}]]
           ["red"; "blue"] (Some ["a"; "b"]) None).
  reflexivity.
Defined.

Lemma single_level_result_is_not_plottable_witness :
  exists res,
    compute_adversarial_perturbation
      (example_externals 0 0) (scenario_engine 0 (1 / 2) (Some scenario_cov))
      [4 / 10; 3 / 10] 0 (PyFloat (19 / 20)) "clipping"
      (1 / 1000000) (1 / 10000000) = Ok res
    /\ plot_intensity_vs_level [res] ["red"] None None = Raise AssertionError.
Proof.
  destruct (scenario_level_met (example_externals 0 0))
    as (p & d & _ & _ & Hres & _); [simpl; lra|].
  exists (OneDict d). split; [exact Hres|].
  apply (single_level_result_is_not_plottable
           (example_externals 0 0)
           (scenario_engine 0 (1 / 2) (Some scenario_cov))
           [4 / 10; 3 / 10] 0 (PyFloat (19 / 20)) (19 / 20) "clipping"
           (1 / 1000000) (1 / 10000000) (OneDict d) [] ["red"] None None
           eq_refl Hres).
Defined.

Lemma float_level_outcomes_witness :
  (exists d,
      compute_adversarial_perturbation
        (example_externals 0 0) (scenario_engine 0 (1 / 2) (Some scenario_cov))
        [4 / 10; 3 / 10] 0 (PyFloat (19 / 20)) "clipping"
        (1 / 1000000) (1 / 10000000) = Ok (OneDict d))
  \/ compute_adversarial_perturbation
       (example_externals 0 0) (scenario_engine 0 (1 / 2) (Some scenario_cov))
       [4 / 10; 3 / 10] 0 (PyFloat (19 / 20)) "clipping"
       (1 / 1000000) (1 / 10000000)
     = Raise (ArithmeticError "Risk of underflow")
  \/ compute_adversarial_perturbation
       (example_externals 0 0) (scenario_engine 0 (1 / 2) (Some scenario_cov))
       [4 / 10; 3 / 10] 0 (PyFloat (19 / 20)) "clipping"
       (1 / 1000000) (1 / 10000000)
     = Raise AssertionError.
Proof.
  destruct scenario_prepare as (delta & xa0 & Hprep).
  apply (float_level_outcomes
           (example_externals 0 0)
           (scenario_engine 0 (1 / 2) (Some scenario_cov)) 3 scenario_cov
           [4 / 10; 3 / 10] 0 (19 / 20) "clipping"
           (1 / 1000000) (1 / 10000000) [1; 4 / 10; 3 / 10] delta xa0
           eq_refl scenario_cov_psd eq_refl ltac:(lra) ltac:(lra) Hprep).
Defined.

Lemma init_well_formed_witness :
  aligned glm_engine
  /\ length (beta_hat glm_engine)
     = (length (beta_hat_minus0 glm_engine)
        + if model_has_intercept glm_engine then 1 else 0)%nat
  /\ lower_bound glm_engine = 0
  /\ upper_bound glm_engine = 1.
Proof.
  apply (init_well_formed (Statsmodels glm_model) (Some [[1; 2; 3]]) 0 1
                          glm_engine).
  - simpl. repeat constructor; simpl; intuition discriminate.
  - reflexivity.
Defined.

Lemma aligned_example_length_witness :
  length (add_constant_x (scenario_engine 0 1 None) [1; 1])
  = length (beta_hat (scenario_engine 0 1 None))
  <-> length [1; 1] = length (coef_ scenario_model).
Proof.
  apply (aligned_example_length (Sklearn scenario_model) None 0 1
                                (scenario_engine 0 1 None) [1; 1]).
  reflexivity.
Defined.

(** The design matrix [[1, 1, 0], [1, 0, 1]] with the probabilities 1/2. *)
Lemma information_matrix_psd_witness :
  exists M, Xt_W_X [[1; 1; 0]; [1; 0; 1]] [1 / 2; 1 / 2] = Ok M /\ psd 3 M.
Proof.
  apply (information_matrix_psd 2 3 [[1; 1; 0]; [1; 0; 1]] [1 / 2; 1 / 2]).
  - split; [reflexivity | repeat constructor].
  - lia.
  - lia.
  - reflexivity.
  - repeat constructor; lra.
Defined.

(** The L2 model on the training rows [[1, 0]] and [[0, 1]], where
    [linalg.inv] is taken as the identity map: what it returns for the
    regularised matrix is symmetric, as its inverse is. *)
Lemma l2_covariance_is_psd_witness :
  exists cov,
    compute_covariance (example_externals 0 0) ridge_engine
                       (Some [[1; 0]; [0; 1]])
    = Ok (set_cov_params ridge_engine cov)
    /\ psd 3 cov.
Proof.
  eassert (HX : Xt_W_X [[1; 1; 0]; [1; 0; 1]] [1 / 2; 1 / 2] = Ok _)
    by reflexivity.
  eapply (l2_covariance_is_psd
            (example_externals 0 0) ridge_engine ridge_model
            [[1; 0]; [0; 1]] [[1; 1; 0]; [1; 0; 1]] _ _ 2 3 [1 / 2; 1 / 2]).
  - reflexivity.
  - reflexivity.
  - simpl. lra.
  - reflexivity.
  - reflexivity.
  - split; [reflexivity | repeat constructor].
  - lia.
  - lia.
  - reflexivity.
  - reflexivity.
  - repeat constructor; lra.
  - exact HX.
  - reflexivity.
  - split; [reflexivity | repeat constructor].
  - run.
    repeat match goal with
           | |- _ :: _ = _ :: _ => apply (f_equal2 cons)
           end; try reflexivity; lra.
Defined.

Lemma returned_examples_respect_bounds_witness :
  exists d,
    compute_adversarial_perturbation
      (example_externals 0 0) (scenario_engine 0 (1 / 2) (Some scenario_cov))
      [4 / 10; 3 / 10] 0 (PyFloat (19 / 20)) "clipping"
      (1 / 1000000) (1 / 10000000) = Ok (OneDict d)
    /\ forall v,
         x_adv_star d = Some v \/ x_adv_0 d = Some v ->
         forall c, In c v -> 0 <= c <= 1 / 2.
Proof.
  destruct (scenario_level_met (example_externals 0 0))
    as (p & d & _ & _ & Hres & _); [simpl; lra|].
  exists d. split; [exact Hres|]. intros v.
  apply (returned_examples_respect_bounds
           (example_externals 0 0)
           (scenario_engine 0 (1 / 2) (Some scenario_cov))
           [4 / 10; 3 / 10] 0 (PyFloat (19 / 20)) "clipping"
           (1 / 1000000) (1 / 10000000) (OneDict d)).
  - left. split; [reflexivity | simpl; lra].
  - exact Hres.
  - left. reflexivity.
Defined.
